(** * Route reconciliation (pkg/datapath/route/route.go)

    A shallow embedding of the route reconciliation code of
    [pkg/datapath/route/route.go] together with the parts of Go's [net]
    package and of the [netlink] library that the code relies on.

    Conventions of the embedding:
    - a Go byte is a [Z] in [0, 256); a byte slice ([net.IP], [net.IPMask])
      is a [list Z], and the nil slice is the empty list.  The only
      nil tests on slices in the source are on results of [To4], which is
      either nil or of length 4, so nothing is lost by the identification;
    - a Go pointer that may be nil ([*net.IP], [*net.IPNet],
      [*netlink.Route]) is an [option]; dereferencing nil panics, which the
      embedding records as the outcome [Panicked];
    - a Go [error] is its message, a [string]; the nil error is [None];
    - Go's [int] is a [Z]; the code only compares and copies such values;
    - the kernel (the [netlink] package functions) is an [Adapter]: four
      operations over an abstract kernel state.  Every call that reaches
      the adapter is appended to a trace;
    - logging does not influence return values or adapter calls and is
      left out. *)

From Stdlib Require Import String ZArith List Bool Lia.
Import ListNotations.
Open Scope Z_scope.

Definition error := string.

(** ** Go's [net] package: addresses, masks and networks *)

Module net.

Definition IP := list Z.
Definition IPMask := list Z.

Definition IPv4len : nat := 4.
Definition IPv6len : nat := 16.

Record IPNet := mkIPNet { IPNet_IP : IP; IPNet_Mask : IPMask }.

Definition isNil (s : list Z) : bool :=
  match s with [] => true | _ :: _ => false end.

Fixpoint bytesEqual (a b : list Z) : bool :=
  match a, b with
  | [], [] => true
  | x :: a', y :: b' => (x =? y) && bytesEqual a' b'
  | _, _ => false
  end.

Definition v4InV6Prefix : list Z :=
  [0; 0; 0; 0; 0; 0; 0; 0; 0; 0; 0xff; 0xff].

Definition isZeros (p : list Z) : bool := forallb (fun b => b =? 0) p.

(** [func (ip IP) To4() IP] *)
Definition To4 (ip : IP) : IP :=
  if Nat.eqb (length ip) IPv4len then ip
  else if Nat.eqb (length ip) IPv6len
          && isZeros (firstn 10 ip)
          && (nth 10 ip 0 =? 0xff)
          && (nth 11 ip 0 =? 0xff)
       then firstn 4 (skipn 12 ip)
       else [].

(** [func (ip IP) Equal(x IP) bool] *)
Definition Equal (ip x : IP) : bool :=
  if Nat.eqb (length ip) (length x) then bytesEqual ip x
  else if Nat.eqb (length ip) IPv4len && Nat.eqb (length x) IPv6len
       then bytesEqual (firstn 12 x) v4InV6Prefix && bytesEqual ip (skipn 12 x)
  else if Nat.eqb (length ip) IPv6len && Nat.eqb (length x) IPv4len
       then bytesEqual (firstn 12 ip) v4InV6Prefix && bytesEqual (skipn 12 ip) x
  else false.

(** The inner loop of [simpleMaskLength]:
    [for v&0x80 != 0 { n++; v <<= 1 }] on a [uint8].  A byte has eight
    bits, so eight rounds always reach the exit (lemma
    [leadingOnes_exits]). *)
Fixpoint leadingOnes (fuel : nat) (n v : Z) : Z * Z :=
  match fuel with
  | O => (n, v)
  | S fuel' =>
      if Z.land v 0x80 =? 0 then (n, v)
      else leadingOnes fuel' (n + 1) (Z.land (Z.shiftl v 1) 0xff)
  end.

(** [func simpleMaskLength(mask IPMask) int] *)
Fixpoint simpleMaskLength_from (n : Z) (mask : IPMask) : Z :=
  match mask with
  | [] => n
  | v :: rest =>
      if v =? 0xff then simpleMaskLength_from (n + 8) rest
      else
        let '(n', v') := leadingOnes 8 n v in
        if negb (v' =? 0) then -1
        else if forallb (fun b => b =? 0) rest then n' else -1
  end.

Definition simpleMaskLength (mask : IPMask) : Z := simpleMaskLength_from 0 mask.

(** [func (m IPMask) Size() (ones, bits int)] *)
Definition Size (m : IPMask) : Z * Z :=
  let ones := simpleMaskLength m in
  let bits := Z.of_nat (length m) * 8 in
  if ones =? -1 then (0, 0) else (ones, bits).

(** The loop of [CIDRMask] filling [l] bytes with [n] ones left to set. *)
Fixpoint cidrBytes (l : nat) (n : Z) : IPMask :=
  match l with
  | O => []
  | S l' =>
      if 8 <=? n then 0xff :: cidrBytes l' (n - 8)
      else Z.lxor (Z.shiftr 0xff n) 0xff :: cidrBytes l' 0
  end.

(** [func CIDRMask(ones, bits int) IPMask] *)
Definition CIDRMask (ones bits : Z) : IPMask :=
  if negb (bits =? 8 * Z.of_nat IPv4len) && negb (bits =? 8 * Z.of_nat IPv6len)
  then []
  else if (ones <? 0) || (bits <? ones) then []
  else cidrBytes (Z.to_nat (bits / 8)) ones.

(** [func networkNumberAndMask(n *IPNet) (ip IP, m IPMask)] *)
Definition networkNumberAndMask (n : IPNet) : IP * IPMask :=
  let ip4 := To4 (IPNet_IP n) in
  let ip := if isNil ip4 then IPNet_IP n else ip4 in
  if isNil ip4 && negb (Nat.eqb (length ip) IPv6len) then ([], [])
  else
    let m := IPNet_Mask n in
    if Nat.eqb (length m) IPv4len then
      if negb (Nat.eqb (length ip) IPv4len) then ([], []) else (ip, m)
    else if Nat.eqb (length m) IPv6len then
      if Nat.eqb (length ip) IPv4len then (ip, skipn 12 m) else (ip, m)
    else ([], []).

(** The comparison loop of [Contains]; both lists have the length of
    the address when it is entered. *)
Fixpoint sameMasked (nn m ip : list Z) : bool :=
  match ip with
  | [] => true
  | b :: ip' =>
      (Z.land (hd 0 nn) (hd 0 m) =? Z.land b (hd 0 m))
      && sameMasked (tl nn) (tl m) ip'
  end.

(** [func (n *IPNet) Contains(ip IP) bool] *)
Definition Contains (n : IPNet) (ip : IP) : bool :=
  let '(nn, m) := networkNumberAndMask n in
  let x := To4 ip in
  let ip := if isNil x then ip else x in
  if negb (Nat.eqb (length ip) (length nn)) then false
  else sameMasked nn m ip.

End net.

(** ** The [netlink] library: what the code uses of it *)

Module netlink.

(** [type Scope uint8] and the kernel's scope constants. *)
Definition ScopeT := Z.
Definition SCOPE_UNIVERSE : ScopeT := 0.
Definition SCOPE_LINK : ScopeT := 253.

(** Address families ([AF_INET], [AF_INET6]). *)
Definition FAMILY_V4 : Z := 2.
Definition FAMILY_V6 : Z := 10.

(** [netlink.Route], restricted to the fields the code reads or writes;
    every other field keeps Go's zero value throughout. *)
Record Route := mkRoute {
  LinkIndex : Z;
  Scope : ScopeT;
  Dst : option net.IPNet;
  Src : net.IP;
  Gw : net.IP;
  MTU : Z
}.

(** [netlink.Link] is used only through [link.Attrs().Index]. *)
Record LinkAttrs := mkLinkAttrs { Index : Z }.
Definition Link := LinkAttrs.
Definition Attrs (l : Link) : LinkAttrs := l.

End netlink.

(** ** Outcomes, results and the kernel adapter *)

Inductive result (A : Type) : Type :=
| Ok (a : A)
| Err (e : error).
Arguments Ok {A} a.
Arguments Err {A} e.

(** A Go call either returns or panics (nil pointer dereference). *)
Inductive outcome (A : Type) : Type :=
| Done (a : A)
| Panicked.
Arguments Done {A} a.
Arguments Panicked {A}.

(** The calls that reach the kernel, in the order they are issued. *)
Inductive Call : Type :=
| CLinkByName (dev : string)
| CRouteList (link : netlink.Link) (family : Z)
| CRouteReplace (r : netlink.Route)
| CRouteDel (r : netlink.Route).

(** The four [netlink] functions the code calls.  Each one may read and
    change the kernel state. *)
Record Adapter : Type := mkAdapter {
  kstate : Type;
  LinkByName : string -> kstate -> result netlink.Link * kstate;
  RouteList : netlink.Link -> Z -> kstate -> result (list netlink.Route) * kstate;
  RouteReplace : netlink.Route -> kstate -> option error * kstate;
  RouteDel : netlink.Route -> kstate -> option error * kstate
}.

(** ** The route specification and its pure helpers *)

Record Route := mkRoute {
  Prefix : net.IPNet;
  Nexthop : option net.IP;
  Local : net.IP;
  Device : string;
  MTU : Z;
  Scope : netlink.ScopeT
}.

(** [func (r *Route) getNetlinkRoute() netlink.Route] *)
Definition getNetlinkRoute (r : Route) : netlink.Route :=
  {| netlink.LinkIndex := 0;
     netlink.Scope := if Scope r =? 0 then 0 else Scope r;
     netlink.Dst := Some (Prefix r);
     netlink.Src := Local r;
     netlink.Gw := match Nexthop r with Some gw => gw | None => [] end;
     netlink.MTU := MTU r |}.

(** [func (r *Route) getNexthopAsIPNet() *net.IPNet] *)
Definition getNexthopAsIPNet (r : Route) : option net.IPNet :=
  match Nexthop r with
  | None => None
  | Some nh =>
      if negb (net.isNil (net.To4 nh))
      then Some (net.mkIPNet nh (net.CIDRMask 32 32))
      else Some (net.mkIPNet nh (net.CIDRMask 128 128))
  end.

(** [func (a ByMask) Less(i, j int) bool], on the two elements. *)
Definition Less (a b : Route) : bool :=
  fst (net.Size (net.IPNet_Mask (Prefix b))) <? fst (net.Size (net.IPNet_Mask (Prefix a))).

(** [func ipFamily(ip net.IP) int] *)
Definition ipFamily (ip : net.IP) : Z :=
  if net.isNil (net.To4 ip) then netlink.FAMILY_V6 else netlink.FAMILY_V4.

(** The test of lines 141-145 of [lookup] once both destinations are
    known to be present. *)
Definition sameRoute (r route : netlink.Route) (rd routed : net.IPNet) : bool :=
  let '(aMaskLen, aMaskBits) := net.Size (net.IPNet_Mask rd) in
  let '(bMaskLen, bMaskBits) := net.Size (net.IPNet_Mask routed) in
  (netlink.LinkIndex r =? netlink.LinkIndex route)
  && (netlink.Scope r =? netlink.Scope route)
  && (aMaskLen =? bMaskLen) && (aMaskBits =? bMaskBits)
  && net.Equal (net.IPNet_IP rd) (net.IPNet_IP routed)
  && net.Equal (netlink.Gw r) (netlink.Gw route).

(** The [for _, r := range routes] loop of [lookup] (lines 132-150).
    When neither route has a destination, line 141 dereferences the nil
    [r.Dst]. *)
Fixpoint lookupRange (route : netlink.Route) (routes : list netlink.Route)
  : outcome (option netlink.Route) :=
  match routes with
  | [] => Done None
  | r :: rest =>
      match netlink.Dst r, netlink.Dst route with
      | Some _, None => lookupRange route rest
      | None, Some _ => lookupRange route rest
      | None, None => Panicked
      | Some rd, Some routed =>
          if sameRoute r route rd routed then Done (Some r)
          else lookupRange route rest
      end
  end.

(** [func createNexthopRoute(link netlink.Link, routerNet *net.IPNet) *netlink.Route];
    line 164 dereferences [routerNet]. *)
Definition createNexthopRoute (link : netlink.Link) (routerNet : option net.IPNet)
  : outcome netlink.Route :=
  match routerNet with
  | None => Panicked
  | Some rn =>
      Done {| netlink.LinkIndex := netlink.Index (netlink.Attrs link);
              netlink.Scope :=
                if negb (net.isNil (net.To4 (net.IPNet_IP rn)))
                then netlink.SCOPE_LINK else 0;
              netlink.Dst := Some rn;
              netlink.Src := [];
              netlink.Gw := [];
              netlink.MTU := 0 |}
  end.

(** ** Stateful code: a state monad over the kernel state and the trace *)

Record World (K : Type) : Type := mkWorld { kernel : K; trace : list Call }.
Arguments mkWorld {K} kernel trace.
Arguments kernel {K} w.
Arguments trace {K} w.

Definition M (K T : Type) : Type := World K -> outcome T * World K.

Definition ret {K T} (x : T) : M K T := fun w => (Done x, w).

Definition panic {K T} : M K T := fun w => (Panicked, w).

Definition bind {K T U} (m : M K T) (f : T -> M K U) : M K U :=
  fun w =>
    match m w with
    | (Done x, w') => f x w'
    | (Panicked, w') => (Panicked, w')
    end.

(** A pure computation that may panic. *)
Definition lift {K T} (o : outcome T) : M K T :=
  match o with
  | Done x => ret x
  | Panicked => panic
  end.

Declare Scope go_scope.
Delimit Scope go_scope with go.
Notation "x <- m ;; k" := (bind m (fun x => k))
  (at level 100, m at next level, right associativity) : go_scope.
Open Scope go_scope.

Section Reconciler.

(** The kernel the code talks to, and the two values of the [mtu]
    package ([mtu.GetDeviceMTU()], [mtu.GetRouteMTU()]), which is not part
    of the sources at hand. *)
Variable A : Adapter.
Variables GetDeviceMTU GetRouteMTU : Z.

Definition netlink_LinkByName (dev : string) : M (kstate A) (result netlink.Link) :=
  fun w =>
    let p := LinkByName A dev (kernel w) in
    (Done (fst p), mkWorld (snd p) (trace w ++ [CLinkByName dev])).

Definition netlink_RouteList (link : netlink.Link) (family : Z)
  : M (kstate A) (result (list netlink.Route)) :=
  fun w =>
    let p := RouteList A link family (kernel w) in
    (Done (fst p), mkWorld (snd p) (trace w ++ [CRouteList link family])).

Definition netlink_RouteReplace (r : netlink.Route) : M (kstate A) (option error) :=
  fun w =>
    let p := RouteReplace A r (kernel w) in
    (Done (fst p), mkWorld (snd p) (trace w ++ [CRouteReplace r])).

Definition netlink_RouteDel (r : netlink.Route) : M (kstate A) (option error) :=
  fun w =>
    let p := RouteDel A r (kernel w) in
    (Done (fst p), mkWorld (snd p) (trace w ++ [CRouteDel r])).

(** [func lookup(link netlink.Link, route *netlink.Route) *netlink.Route].
    The argument [ipFamily(route.Dst.IP)] of line 127 is evaluated before
    [RouteList] is called and dereferences [route.Dst]. *)
Definition lookup (link : netlink.Link) (route : netlink.Route)
  : M (kstate A) (option netlink.Route) :=
  match netlink.Dst route with
  | None => panic
  | Some dst =>
      res <- netlink_RouteList link (ipFamily (net.IPNet_IP dst)) ;;
      match res with
      | Err _ => ret None
      | Ok routes => lift (lookupRange route routes)
      end
  end.

(** [func replaceNexthopRoute(link netlink.Link, routerNet *net.IPNet) (bool, error)] *)
Definition replaceNexthopRoute (link : netlink.Link) (routerNet : option net.IPNet)
  : M (kstate A) (bool * option error) :=
  route <- lift (createNexthopRoute link routerNet) ;;
  found <- lookup link route ;;
  match found with
  | None =>
      err <- netlink_RouteReplace route ;;
      match err with
      | Some e => ret (false, Some ("unable to add L2 nexthop route: " ++ e)%string)
      | None => ret (true, None)
      end
  | Some _ => ret (false, None)
  end.

(** [func deleteNexthopRoute(link netlink.Link, routerNet *net.IPNet) error] *)
Definition deleteNexthopRoute (link : netlink.Link) (routerNet : option net.IPNet)
  : M (kstate A) (option error) :=
  route <- lift (createNexthopRoute link routerNet) ;;
  err <- netlink_RouteDel route ;;
  match err with
  | Some e => ret (Some ("unable to delete L2 nexthop route: " ++ e)%string)
  | None => ret None
  end.

(** Lines 212-224 of [replaceRoute]: the request of the main route. *)
Definition routeSpec (route : Route) (link : netlink.Link) : netlink.Route :=
  let rs := getNetlinkRoute route in
  {| netlink.LinkIndex := netlink.Index (netlink.Attrs link);
     netlink.Scope := netlink.Scope rs;
     netlink.Dst := netlink.Dst rs;
     netlink.Src := netlink.Src rs;
     netlink.Gw := netlink.Gw rs;
     netlink.MTU :=
       if negb (netlink.MTU rs =? 0) then
         if net.Contains (Prefix route) (Local route)
         then GetDeviceMTU else GetRouteMTU
       else netlink.MTU rs |}.

(** [func replaceRoute(route Route) (bool, error)] *)
Definition replaceRoute (route : Route) : M (kstate A) (bool * option error) :=
  res <- netlink_LinkByName (Device route) ;;
  match res with
  | Err e =>
      ret (false,
           Some ("unable to lookup interface " ++ Device route ++ ": " ++ e)%string)
  | Ok link =>
      let routerNet := getNexthopAsIPNet route in
      nh <- replaceNexthopRoute link routerNet ;;
      match snd nh with
      | Some e => ret (false, Some ("unable to add nexthop route: " ++ e)%string)
      | None =>
          let routeSpec := routeSpec route link in
          found <- lookup link routeSpec ;;
          match found with
          | None =>
              err <- netlink_RouteReplace routeSpec ;;
              match err with
              | Some e => ret (false, Some e)
              | None => ret (true, None)
              end
          | Some _ => ret (false, None)
          end
      end
  end.

(** [func ReplaceRoute(route Route) error] *)
Definition ReplaceRoute (route : Route) : M (kstate A) (option error) :=
  r <- replaceRoute route ;;
  match snd r with
  | Some e => ret (Some e)
  | None => ret None
  end.

(** Lines 258-266 of [deleteRoute]: the delete request. *)
Definition deleteSpec (route : Route) (link : netlink.Link) : netlink.Route :=
  {| netlink.LinkIndex := netlink.Index (netlink.Attrs link);
     netlink.Scope :=
       if negb (net.isNil (net.To4 (net.IPNet_IP (Prefix route))))
       then Scope route else 0;
     netlink.Dst := Some (Prefix route);
     netlink.Src := [];
     netlink.Gw := [];
     netlink.MTU := 0 |}.

(** [func deleteRoute(route Route) error] *)
Definition deleteRoute (route : Route) : M (kstate A) (option error) :=
  res <- netlink_LinkByName (Device route) ;;
  match res with
  | Err e =>
      ret (Some ("unable to lookup interface " ++ Device route ++ ": " ++ e)%string)
  | Ok link =>
      err <- netlink_RouteDel (deleteSpec route link) ;;
      match err with
      | Some e => ret (Some e)
      | None => ret None
      end
  end.

(** [func DeleteRoute(route Route) error] *)
Definition DeleteRoute (route : Route) : M (kstate A) (option error) :=
  err <- deleteRoute route ;;
  match err with
  | Some e => ret (Some e)
  | None => ret None
  end.

End Reconciler.


(** ** Route keys

    The kernel's route table is keyed by destination, device, gateway and
    scope; two requests with the same key address the same entry. *)

Definition ipnetEqb (a b : option net.IPNet) : bool :=
  match a, b with
  | None, None => true
  | Some x, Some y =>
      net.bytesEqual (net.IPNet_IP x) (net.IPNet_IP y)
      && net.bytesEqual (net.IPNet_Mask x) (net.IPNet_Mask y)
  | _, _ => false
  end.

Definition sameKey (x r : netlink.Route) : bool :=
  ipnetEqb (netlink.Dst x) (netlink.Dst r)
  && (netlink.LinkIndex x =? netlink.LinkIndex r)
  && net.bytesEqual (netlink.Gw x) (netlink.Gw r)
  && (netlink.Scope x =? netlink.Scope r).

(** ** An in-memory kernel

    Modelled from the spec: the in-memory fake of the Kernel Route Adapter
    (the [netlink] library and the kernel behind it are not part of the
    sources).  It resolves device names from a table, answers [RouteList]
    from its own state with the routes of the device and family asked
    for, replaces the entry with the key of the request or adds one, and
    deletes the entries with the destination and device of the request.
    Each mutating or listing operation can be made to fail. *)

Module fake.

(** Which operations are made to fail, and with which message. *)
Record Faults := mkFaults {
  failList : option error;
  failReplace : option error;
  failDel : option error
}.

Definition noFaults : Faults := mkFaults None None None.

Record Kernel := mkKernel {
  links : list (string * Z);
  table : list netlink.Route
}.

(** The address family of a stored route: that of its destination, or
    of its gateway for a default route. *)
Definition familyOf (r : netlink.Route) : Z :=
  match netlink.Dst r with
  | Some d => ipFamily (net.IPNet_IP d)
  | None => ipFamily (netlink.Gw r)
  end.

Fixpoint findLink (dev : string) (ls : list (string * Z)) : option Z :=
  match ls with
  | [] => None
  | (n, i) :: rest => if String.eqb n dev then Some i else findLink dev rest
  end.

Definition linkByName (dev : string) (k : Kernel) : result netlink.Link * Kernel :=
  match findLink dev (links k) with
  | Some i => (Ok (netlink.mkLinkAttrs i), k)
  | None => (Err "Link not found"%string, k)
  end.

Definition routeList (f : Faults) (link : netlink.Link) (family : Z) (k : Kernel)
  : result (list netlink.Route) * Kernel :=
  match failList f with
  | Some e => (Err e, k)
  | None =>
      (Ok (filter (fun r => (netlink.LinkIndex r =? netlink.Index link)
                            && (familyOf r =? family)) (table k)), k)
  end.

Definition routeReplace (f : Faults) (r : netlink.Route) (k : Kernel)
  : option error * Kernel :=
  match failReplace f with
  | Some e => (Some e, k)
  | None =>
      (None, mkKernel (links k)
               (filter (fun x => negb (sameKey x r)) (table k) ++ [r]))
  end.

Definition routeDel (f : Faults) (r : netlink.Route) (k : Kernel)
  : option error * Kernel :=
  match failDel f with
  | Some e => (Some e, k)
  | None =>
      (None, mkKernel (links k)
               (filter (fun x => negb (ipnetEqb (netlink.Dst x) (netlink.Dst r)
                                       && (netlink.LinkIndex x =? netlink.LinkIndex r)))
                  (table k)))
  end.

Definition adapter (f : Faults) : Adapter :=
  {| kstate := Kernel;
     LinkByName := linkByName;
     RouteList := routeList f;
     RouteReplace := routeReplace f;
     RouteDel := routeDel f |}.

End fake.

(** ** Notions used to state the properties *)

(** Route equivalence in the words of the design: both routes have a
    destination, the two mask lengths and the two mask bit-widths are
    equal, the destination addresses are equal, the gateways are equal,
    and so are device index and scope. *)
Definition equivalent (r route : netlink.Route) : Prop :=
  exists rd d,
    netlink.Dst r = Some rd /\ netlink.Dst route = Some d
    /\ fst (net.Size (net.IPNet_Mask rd)) = fst (net.Size (net.IPNet_Mask d))
    /\ snd (net.Size (net.IPNet_Mask rd)) = snd (net.Size (net.IPNet_Mask d))
    /\ net.Equal (net.IPNet_IP rd) (net.IPNet_IP d) = true
    /\ net.Equal (netlink.Gw r) (netlink.Gw route) = true
    /\ netlink.LinkIndex r = netlink.LinkIndex route
    /\ netlink.Scope r = netlink.Scope route.


(** A network whose address and mask are both four or both sixteen
    bytes long, as [net.ParseCIDR] produces them. *)
Definition wellFormed (n : net.IPNet) : Prop :=
  length (net.IPNet_IP n) = length (net.IPNet_Mask n)
  /\ (length (net.IPNet_IP n) = 4%nat \/ length (net.IPNet_IP n) = 16%nat).

(** Modelled from the spec: the contract of the Kernel Route Adapter for a
    kernel that nobody else changes and that does not fail.  Resolving a
    device and listing routes leave the kernel as it is; listing and
    replacing succeed; a replace keeps the devices, makes the request
    appear in the listing of its device and family, and keeps every listed
    route with another key. *)
Record KernelContract (A : Adapter) : Prop := mkKernelContract {
  link_pure : forall dev k, snd (LinkByName A dev k) = k;
  list_pure : forall link fam k, snd (RouteList A link fam k) = k;
  list_ok : forall link fam k, exists rs, fst (RouteList A link fam k) = Ok rs;
  replace_ok : forall r k, fst (RouteReplace A r k) = None;
  replace_links : forall r k dev,
      fst (LinkByName A dev (snd (RouteReplace A r k))) = fst (LinkByName A dev k);
  replace_lists : forall r k d link rs,
      netlink.Dst r = Some d ->
      netlink.Index (netlink.Attrs link) = netlink.LinkIndex r ->
      fst (RouteList A link (ipFamily (net.IPNet_IP d)) (snd (RouteReplace A r k))) = Ok rs ->
      In r rs;
  replace_frame : forall r k link fam rs rs' x,
      fst (RouteList A link fam k) = Ok rs ->
      fst (RouteList A link fam (snd (RouteReplace A r k))) = Ok rs' ->
      In x rs -> sameKey x r = false -> In x rs'
}.

(** Idempotence as the design states it: the first reconciliation of
    [route] on kernel [k] succeeds and reports a change, the second one on
    the kernel the first one left succeeds, reports no change and issues no
    [RouteReplace]. *)
Definition changedThenUnchanged (A : Adapter) (deviceMTU routeMTU : Z)
    (route : Route) (k : kstate A) : Prop :=
  exists w1 w2,
    replaceRoute A deviceMTU routeMTU route (mkWorld k []) = (Done (true, None), w1)
    /\ replaceRoute A deviceMTU routeMTU route (mkWorld (kernel w1) [])
       = (Done (false, None), w2)
    /\ forall r, ~ In (CRouteReplace r) (trace w2).

(** A failing [RouteList] is surfaced, as the design states it: when every
    listing fails, reconciliation returns an error and issues no
    [RouteReplace]. *)
Definition listFailureSurfaced (A : Adapter) (deviceMTU routeMTU : Z)
    (route : Route) (w : World (kstate A)) : Prop :=
  (forall link fam k, exists e, fst (RouteList A link fam k) = Err e) ->
  exists changed e w',
    replaceRoute A deviceMTU routeMTU route w = (Done (changed, Some e), w')
    /\ forall r, ~ In (CRouteReplace r) (trace w').

(** ** Sample routes and kernels *)

Module ex.

Definition deviceMTU : Z := 1500.
Definition routeMTU : Z := 1450.

Definition eth0 : netlink.Link := netlink.mkLinkAttrs 3.

(** 10.1.0.0/16 via 10.0.0.1, local address 10.1.0.7. *)
Definition prefix4 : net.IPNet := net.mkIPNet [10; 1; 0; 0] [255; 255; 0; 0].
Definition gw4 : net.IP := [10; 0; 0; 1].
Definition route4 : Route :=
  mkRoute prefix4 (Some gw4) [10; 1; 0; 7] "eth0" 1500 0.

(** The same route with a local address outside the prefix. *)
Definition route4_remote : Route :=
  mkRoute prefix4 (Some gw4) [10; 2; 0; 7] "eth0" 1500 0.

(** The same route without a gateway. *)
Definition route4_direct : Route :=
  mkRoute prefix4 None [10; 1; 0; 7] "eth0" 1500 0.

(** The same route with link scope and no MTU. *)
Definition route4_link : Route :=
  mkRoute prefix4 (Some gw4) [10; 1; 0; 7] "eth0" 0 netlink.SCOPE_LINK.

(** fd00::/64 via fd00::1, no local address. *)
Definition prefix6 : net.IPNet :=
  net.mkIPNet [0xfd; 0; 0; 0; 0; 0; 0; 0; 0; 0; 0; 0; 0; 0; 0; 0]
              (net.CIDRMask 64 128).
Definition gw6 : net.IP := [0xfd; 0; 0; 0; 0; 0; 0; 0; 0; 0; 0; 0; 0; 0; 0; 1].
Definition route6 : Route :=
  mkRoute prefix6 (Some gw6) [] "eth0" 1500 netlink.SCOPE_LINK.


(** The on-link route of 10.0.0.1 and the request of [route4]. *)
Definition nexthop4 : netlink.Route :=
  netlink.mkRoute 3 netlink.SCOPE_LINK
    (Some (net.mkIPNet gw4 [255; 255; 255; 255])) [] [] 0.
Definition request4 : netlink.Route :=
  netlink.mkRoute 3 0 (Some prefix4) [10; 1; 0; 7] gw4 1500.

(** [request4] as a kernel that does not keep the scope would list it. *)
Definition request4_site : netlink.Route :=
  netlink.mkRoute 3 200 (Some prefix4) [10; 1; 0; 7] gw4 1500.

(** A kernel with the device [eth0] and no route; one with the two
    routes of [route4] installed; one without any device. *)
Definition kernel0 : fake.Kernel := fake.mkKernel [("eth0"%string, 3)] [].
Definition kernel4 : fake.Kernel :=
  fake.mkKernel [("eth0"%string, 3)] [nexthop4; request4].
Definition kernelNoDev : fake.Kernel := fake.mkKernel [] [].

(** A kernel that lists the main route of [route4] with site scope. *)
Definition kernel4_site : fake.Kernel :=
  fake.mkKernel [("eth0"%string, 3)] [nexthop4; request4_site].

Definition world (k : fake.Kernel) : World fake.Kernel := mkWorld k [].

(** Kernels that work, that cannot list, replace or delete. *)
Definition sound : Adapter := fake.adapter fake.noFaults.
Definition noList : Adapter :=
  fake.adapter (fake.mkFaults (Some "dump interrupted"%string) None None).
Definition noReplace : Adapter :=
  fake.adapter (fake.mkFaults None (Some "operation not permitted"%string) None).
Definition noDel : Adapter :=
  fake.adapter (fake.mkFaults None None (Some "no such process"%string)).

End ex.

From Stdlib Require Import Permutation.

(** ** Sorting by mask ([ByMask])

    [ByMask] is a slice of routes with the three methods of
    [sort.Interface].  An index outside the slice panics. *)

Module ByMask.

Definition t := list Route.

(** [a[i]] with Go's bounds check. *)
Definition index {T : Type} (a : list T) (i : Z) : outcome T :=
  if i <? 0 then Panicked
  else match nth_error a (Z.to_nat i) with
       | Some x => Done x
       | None => Panicked
       end.

(** [a[i] = x] on an index that is in range. *)
Fixpoint set {T : Type} (a : list T) (i : nat) (x : T) : list T :=
  match a, i with
  | [], _ => []
  | _ :: rest, O => x :: rest
  | y :: rest, S i' => y :: set rest i' x
  end.

(** The mask length [Less] compares. *)
Definition maskLen (r : Route) : Z := fst (net.Size (net.IPNet_Mask (Prefix r))).

(** [func (a ByMask) Len() int] *)
Definition Len (a : t) : Z := Z.of_nat (length a).

(** [func (a ByMask) Less(i, j int) bool] *)
Definition Less (a : t) (i j : Z) : outcome bool :=
  match index a i with
  | Panicked => Panicked
  | Done x =>
      match index a j with
      | Panicked => Panicked
      | Done y =>
          let lenA := fst (net.Size (net.IPNet_Mask (Prefix x))) in
          let lenB := fst (net.Size (net.IPNet_Mask (Prefix y))) in
          Done (lenB <? lenA)
      end
  end.

(** [func (a ByMask) Swap(i, j int)]: both right-hand sides [a[j]] and
    [a[i]] are evaluated before any element is assigned. *)
Definition Swap (a : t) (i j : Z) : outcome t :=
  match index a j with
  | Panicked => Panicked
  | Done y =>
      match index a i with
      | Panicked => Panicked
      | Done x => Done (set (set a (Z.to_nat i) y) (Z.to_nat j) x)
      end
  end.

End ByMask.

(** More sample routes: a default route, a route whose mask has a gap,
    and a slice of a /64, a /16 and a /0 route. *)
Module ex2.

Definition route_default : Route :=
  mkRoute (net.mkIPNet [0; 0; 0; 0] [0; 0; 0; 0]) (Some ex.gw4) [] "eth0" 0 0.

Definition route_gapped : Route :=
  mkRoute (net.mkIPNet [10; 0; 3; 0] [255; 0; 255; 0]) (Some ex.gw4) [] "eth0" 0 0.

Definition routes : ByMask.t := [ex.route6; ex.route4; route_default].

(** A specification with the zero [net.IPNet] as prefix and no local
    address. *)
Definition route_zero : Route :=
  mkRoute (net.mkIPNet [] []) (Some ex.gw4) [] "eth0" 1500 0.



End ex2.


(** ** Calls of a reconciliation *)

(** The calls a reconciliation may issue after it resolved the device. *)
Definition isListOrReplace (c : Call) : bool :=
  match c with
  | CRouteList _ _ => true
  | CRouteReplace _ => true
  | _ => false
  end.

(** Two requests that agree on the fields [lookup] documents for its
    filter: destination, device index, scope and gateway. *)
Definition sameFilter (r r' : netlink.Route) : Prop :=
  netlink.Dst r = netlink.Dst r'
  /\ netlink.LinkIndex r = netlink.LinkIndex r'
  /\ netlink.Scope r = netlink.Scope r'
  /\ netlink.Gw r = netlink.Gw r'.

(** Bytes as Go has them. *)
Definition isBytes (s : list Z) : Prop := Forall (fun b => 0 <= b < 256) s.

(** * The versioned map (pkg/versioned/map.go)

    Conventions of the embedding:
    - [Object] is declared in a file that is not at hand; the code and its
      tests use its fields [Data] (an [interface{}], nil is [None]) and
      [Version] (an integer) and its method [CompareVersion], which is a
      parameter here;
    - a Go map is a list of bindings in which the first binding of a key
      counts; storing a key removes its former binding.  The nil map is
      [None]: reading it finds nothing, deleting from it does nothing,
      storing into it panics;
    - a nil function value is [None], calling it panics; a [DeepEqualFunc]
      that is not nil is a total function without effects;
    - the pointer [*lock.RWMutex] is an [option]; the mutex itself is the
      number of readers and the writer flag of [sync.RWMutex], which
      [lock.RWMutex] wraps.  Locking through the nil pointer panics; locking
      a mutex that is held blocks the caller, which a single caller never
      leaves ([Blocked]);
    - [DoLocked] is left out: its callbacks are closures that may read and
      change the map they are handed, and Go does not fix the order of the
      iteration. *)

Module versioned.

Definition UUID := string.

Section Objects.

Variable D : Type.

Record Object := mkObject { Data : option D; Version : Z }.

(** The zero value [Object{}]. *)
Definition zeroObject : Object := mkObject None 0.

Definition DeepEqualFunc := option D -> option D -> bool.

Definition bindings := list (UUID * Object).

Record ComparableMap := mkComparableMap {
  Map : option bindings;
  DeepEquals : option DeepEqualFunc
}.

(** [v, ok := m[k]] on the bindings. *)
Fixpoint find (l : bindings) (k : UUID) : option Object :=
  match l with
  | [] => None
  | (k', v) :: rest => if String.eqb k' k then Some v else find rest k
  end.

(** [delete(m, k)] on the bindings. *)
Fixpoint remove (l : bindings) (k : UUID) : bindings :=
  match l with
  | [] => []
  | (k', v) :: rest =>
      if String.eqb k' k then remove rest k else (k', v) :: remove rest k
  end.

(** [m[k] = v] on the bindings. *)
Definition store (l : bindings) (k : UUID) (v : Object) : bindings :=
  (k, v) :: remove l k.

(** [v, ok := m.Map[k]], also on the nil map. *)
Definition mapIndex (m : ComparableMap) (k : UUID) : option Object :=
  match Map m with
  | None => None
  | Some l => find l k
  end.

(** [m.Map[k] = v]; panics on the nil map. *)
Definition mapAssign (m : ComparableMap) (k : UUID) (v : Object)
  : outcome unit * ComparableMap :=
  match Map m with
  | None => (Panicked, m)
  | Some l => (Done tt, mkComparableMap (Some (store l k v)) (DeepEquals m))
  end.

(** [func NewComparableMap(equalFunc DeepEqualFunc) *ComparableMap] *)
Definition NewComparableMap (equalFunc : option DeepEqualFunc) : ComparableMap :=
  mkComparableMap (Some []) equalFunc.

Section Methods.

(** [func (o *Object) CompareVersion(other Object)], not at hand. *)
Variable CompareVersion : Object -> Object -> Z.

(** [func (m *ComparableMap) AddEqual(uuid UUID, obj Object) bool] *)
Definition AddEqual (m : ComparableMap) (uuid : UUID) (obj : Object)
  : outcome bool * ComparableMap :=
  match mapIndex m uuid with
  | Some oldObj =>
      if 0 <? CompareVersion obj oldObj then
        match mapAssign m uuid obj with
        | (Panicked, m') => (Panicked, m')
        | (Done _, m') =>
            match DeepEquals m' with
            | None => (Panicked, m')
            | Some eq => (Done (eq (Data oldObj) (Data obj)), m')
            end
        end
      else (Done true, m)
  | None =>
      match mapAssign m uuid obj with
      | (Panicked, m') => (Panicked, m')
      | (Done _, m') => (Done false, m')
      end
  end.

End Methods.

(** [func (m *ComparableMap) Add(uuid UUID, obj Object)] *)
Definition Add (m : ComparableMap) (uuid : UUID) (obj : Object)
  : outcome unit * ComparableMap :=
  mapAssign m uuid obj.

(** [func (m *ComparableMap) Delete(uuid UUID) bool] *)
Definition Delete (m : ComparableMap) (uuid : UUID) : bool * ComparableMap :=
  match mapIndex m uuid with
  | Some _ =>
      (true,
       mkComparableMap
         (match Map m with Some l => Some (remove l uuid) | None => None end)
         (DeepEquals m))
  | None => (false, m)
  end.

(** [func (m *ComparableMap) Get(uuid UUID) (Object, bool)] *)
Definition Get (m : ComparableMap) (uuid : UUID) : Object * bool :=
  match mapIndex m uuid with
  | Some o => (o, true)
  | None => (zeroObject, false)
  end.

(** *** The thread-safe wrapper *)

Record RWMutex := mkRWMutex { writer : bool; readers : nat }.

Definition unlocked : RWMutex := mkRWMutex false 0.

Record SyncComparableMap := mkSyncComparableMap {
  mutex : option RWMutex;
  cm : option ComparableMap
}.

(** How a call of the wrapper ends. *)
Inductive ending (T : Type) : Type :=
| Returned (x : T)
| Panics
| Blocked.
Arguments Returned {T} x.
Arguments Panics {T}.
Arguments Blocked {T}.

(** [sm.mutex.Lock()] *)
Definition Lock (sm : SyncComparableMap) : ending SyncComparableMap :=
  match mutex sm with
  | None => Panics
  | Some mu =>
      if writer mu || negb (Nat.eqb (readers mu) 0) then Blocked
      else Returned (mkSyncComparableMap (Some (mkRWMutex true 0)) (cm sm))
  end.

(** [sm.mutex.Unlock()]; unlocking a mutex that is not locked for
    writing is a fatal error. *)
Definition Unlock (sm : SyncComparableMap) : ending SyncComparableMap :=
  match mutex sm with
  | None => Panics
  | Some mu =>
      if writer mu
      then Returned (mkSyncComparableMap (Some (mkRWMutex false (readers mu))) (cm sm))
      else Panics
  end.

(** [sm.mutex.RLock()] *)
Definition RLock (sm : SyncComparableMap) : ending SyncComparableMap :=
  match mutex sm with
  | None => Panics
  | Some mu =>
      if writer mu then Blocked
      else Returned (mkSyncComparableMap
                       (Some (mkRWMutex false (S (readers mu)))) (cm sm))
  end.

(** [sm.mutex.RUnlock()] *)
Definition RUnlock (sm : SyncComparableMap) : ending SyncComparableMap :=
  match mutex sm with
  | None => Panics
  | Some mu =>
      match readers mu with
      | O => Panics
      | S n => Returned (mkSyncComparableMap (Some (mkRWMutex (writer mu) n)) (cm sm))
      end
  end.

(** [func NewSyncComparableMap(def DeepEqualFunc) *SyncComparableMap] *)
Definition NewSyncComparableMap (def : option DeepEqualFunc) : SyncComparableMap :=
  mkSyncComparableMap None (Some (NewComparableMap def)).

(** A wrapper around [m] whose mutex is not held. *)
Definition ready (m : ComparableMap) : SyncComparableMap :=
  mkSyncComparableMap (Some unlocked) (Some m).

(** The body of a wrapper between taking and releasing the lock: a
    method of the inner map, which panics when [sm.cm] is nil. *)
Definition locked {T : Type}
    (lock unlock : SyncComparableMap -> ending SyncComparableMap)
    (body : ComparableMap -> outcome T * ComparableMap)
    (sm : SyncComparableMap) : ending T * SyncComparableMap :=
  match lock sm with
  | Panics => (Panics, sm)
  | Blocked => (Blocked, sm)
  | Returned sm1 =>
      match cm sm1 with
      | None => (Panics, sm1)
      | Some m =>
          match body m with
          | (Panicked, m') => (Panics, mkSyncComparableMap (mutex sm1) (Some m'))
          | (Done x, m') =>
              let sm2 := mkSyncComparableMap (mutex sm1) (Some m') in
              match unlock sm2 with
              | Returned sm3 => (Returned x, sm3)
              | Panics => (Panics, sm2)
              | Blocked => (Blocked, sm2)
              end
          end
      end
  end.

(** [func (sm *SyncComparableMap) Add(uuid UUID, obj Object)] *)
Definition SyncAdd (sm : SyncComparableMap) (uuid : UUID) (obj : Object)
  : ending unit * SyncComparableMap :=
  locked Lock Unlock (fun m => Add m uuid obj) sm.

(** [func (sm *SyncComparableMap) AddEqual(uuid UUID, obj Object) bool] *)
Definition SyncAddEqual (CompareVersion : Object -> Object -> Z)
    (sm : SyncComparableMap) (uuid : UUID) (obj : Object)
  : ending bool * SyncComparableMap :=
  locked Lock Unlock (fun m => AddEqual CompareVersion m uuid obj) sm.

(** [func (sm *SyncComparableMap) Delete(uuid UUID) bool] *)
Definition SyncDelete (sm : SyncComparableMap) (uuid : UUID)
  : ending bool * SyncComparableMap :=
  locked Lock Unlock
    (fun m => (Done (fst (Delete m uuid)), snd (Delete m uuid))) sm.

(** [func (sm *SyncComparableMap) Get(uuid UUID) (Object, bool)] *)
Definition SyncGet (sm : SyncComparableMap) (uuid : UUID)
  : ending (Object * bool) * SyncComparableMap :=
  locked RLock RUnlock (fun m => (Done (Get m uuid), m)) sm.

End Objects.

Arguments mkObject {D} Data Version.
Arguments Data {D} o.
Arguments Version {D} o.

Arguments Returned {T} x.
Arguments Panics {T}.
Arguments Blocked {T}.
Arguments zeroObject {D}.
Arguments mkComparableMap {D} Map DeepEquals.
Arguments Map {D} c.
Arguments DeepEquals {D} c.
Arguments find {D} l k.
Arguments remove {D} l k.
Arguments store {D} l k v.
Arguments mapIndex {D} m k.
Arguments mapAssign {D} m k v.
Arguments NewComparableMap {D} equalFunc.
Arguments AddEqual {D} CompareVersion m uuid obj.
Arguments Add {D} m uuid obj.
Arguments Delete {D} m uuid.
Arguments Get {D} m uuid.
Arguments mkSyncComparableMap {D} mutex cm.
Arguments mutex {D} s.
Arguments cm {D} s.
Arguments NewSyncComparableMap {D} def.
Arguments SyncAdd {D} sm uuid obj.
Arguments SyncAddEqual {D} CompareVersion sm uuid obj.
Arguments SyncDelete {D} sm uuid.
Arguments SyncGet {D} sm uuid.
Arguments ready {D} m.

(** Versions compared by their difference, as integers are. *)
Definition byVersion {D : Type} (o other : Object D) : Z :=
  Version o - Version other.

End versioned.

(** Sample objects and maps, as the tests of the package build them. *)
Module exv.

Definition v1 : versioned.Object Z := versioned.mkObject None 1.
Definition v2 : versioned.Object Z := versioned.mkObject None 2.

Definition always (b : bool) : versioned.DeepEqualFunc Z := fun _ _ => b.

(** The map that binds "foo" to version 1. *)
Definition foo (eq : option (versioned.DeepEqualFunc Z)) : versioned.ComparableMap Z :=
  versioned.mkComparableMap (Some [("foo"%string, v1)]) eq.

Definition cmp : versioned.Object Z -> versioned.Object Z -> Z := versioned.byVersion.

End exv.

(** * Properties *)

(** ** Facts about [net] *)

Module netFacts.
Import net.

Lemma bytesEqual_eq (a b : list Z) : bytesEqual a b = true <-> a = b.
Proof.
  revert b; induction a as [|x a IH]; intros [|y b]; simpl;
    try (split; [discriminate | discriminate]); try tauto.
  rewrite andb_true_iff, Z.eqb_eq, IH.
  split; [intros [-> ->]; reflexivity | intros E; inversion E; auto].
Qed.

Lemma bytesEqual_refl (a : list Z) : bytesEqual a a = true.
Proof. apply bytesEqual_eq; reflexivity. Qed.

Lemma Equal_refl (ip : IP) : Equal ip ip = true.
Proof. unfold Equal. rewrite Nat.eqb_refl. apply bytesEqual_refl. Qed.

(** The absent address is equal to itself and to nothing else. *)
Lemma Equal_nil (x : IP) : Equal [] x = true <-> x = [].
Proof.
  destruct x as [|b x]; [split; reflexivity|].
  unfold Equal. cbn. split; discriminate.
Qed.

(** The functions on the values Go computes for them. *)
Example To4_of_mapped :
  To4 [0; 0; 0; 0; 0; 0; 0; 0; 0; 0; 0xff; 0xff; 10; 0; 0; 1] = [10; 0; 0; 1].
Proof. reflexivity. Qed.

Example To4_of_v6 : To4 ex.gw6 = [].
Proof. reflexivity. Qed.

Example Equal_v4_mapped :
  Equal [10; 0; 0; 1] [0; 0; 0; 0; 0; 0; 0; 0; 0; 0; 0xff; 0xff; 10; 0; 0; 1] = true.
Proof. reflexivity. Qed.

Example Equal_absent_present : Equal [] [10; 0; 0; 1] = false.
Proof. reflexivity. Qed.

Example Size_20 : Size [255; 255; 240; 0] = (20, 32).
Proof. reflexivity. Qed.

Example Size_not_canonical : Size [255; 0; 255; 0] = (0, 0).
Proof. reflexivity. Qed.

Example CIDRMask_20 : CIDRMask 20 32 = [255; 255; 240; 0].
Proof. reflexivity. Qed.

Example CIDRMask_bad_width : CIDRMask 8 24 = [].
Proof. reflexivity. Qed.

Example Contains_inside : Contains ex.prefix4 [10; 1; 0; 7] = true.
Proof. reflexivity. Qed.

Example Contains_outside : Contains ex.prefix4 [10; 2; 0; 7] = false.
Proof. reflexivity. Qed.

Example Contains_mapped :
  Contains ex.prefix4 [0; 0; 0; 0; 0; 0; 0; 0; 0; 0; 0xff; 0xff; 10; 1; 0; 7] = true.
Proof. reflexivity. Qed.

(** The zero [IPNet] has no network number, and [Contains] compares no
    byte for the absent address: it answers true. *)
Example Contains_zero_net_nil : Contains (mkIPNet [] []) [] = true.
Proof. reflexivity. Qed.

(** [To4] answers nil or four bytes. *)
Lemma To4_length (ip : IP) : To4 ip = [] \/ length (To4 ip) = 4%nat.
Proof.
  unfold To4, IPv4len, IPv6len.
  destruct (Nat.eqb (length ip) 4) eqn:E4.
  - right. apply Nat.eqb_eq; exact E4.
  - destruct (_ && _ && _ && _) eqn:E; [|left; reflexivity].
    right. repeat rewrite andb_true_iff in E.
    destruct E as [[[E _] _] _]. apply Nat.eqb_eq in E.
    rewrite length_firstn, length_skipn, E. reflexivity.
Qed.

Lemma To4_nil : To4 [] = [].
Proof. reflexivity. Qed.

(** Sixteen bytes that start with the IPv4-in-IPv6 prefix are an IPv4
    address for [To4]. *)
Lemma To4_mapped (b : IP) :
  length b = 16%nat -> bytesEqual (firstn 12 b) v4InV6Prefix = true ->
  isNil (To4 b) = false.
Proof.
  intros L H. apply bytesEqual_eq in H.
  do 17 (destruct b as [|? b]; try discriminate L).
  simpl in H. inversion H; subst. reflexivity.
Qed.

Lemma To4_len4 (a : IP) : length a = 4%nat -> To4 a = a.
Proof. intros L. unfold To4, IPv4len. rewrite L. reflexivity. Qed.

Lemma isNil_len4 (a : IP) : length a = 4%nat -> isNil a = false.
Proof. destruct a; [discriminate | reflexivity]. Qed.

(** The byte loop of [simpleMaskLength] has left the loop after eight
    rounds, whatever the byte. *)
Lemma leadingOnes_snd (fuel : nat) (n m v : Z) :
  snd (leadingOnes fuel n v) = snd (leadingOnes fuel m v).
Proof.
  revert n m v; induction fuel as [|f IH]; intros n m v; simpl; [reflexivity|].
  destruct (Z.land v 128 =? 0); [reflexivity | apply IH].
Qed.

Lemma leadingOnes_exits_byte :
  forallb (fun w => Z.land (snd (leadingOnes 7 0 (Z.land (Z.shiftl w 1) 0xff))) 0x80 =? 0)
          (map Z.of_nat (seq 0 128)) = true.
Proof. vm_compute. reflexivity. Qed.

Lemma leadingOnes_exits (n v : Z) :
  Z.land (snd (leadingOnes 8 n v)) 0x80 = 0.
Proof.
  change (leadingOnes 8 n v)
    with (if Z.land v 0x80 =? 0 then (n, v)
          else leadingOnes 7 (n + 1) (Z.land (Z.shiftl v 1) 0xff)).
  destruct (Z.land v 128 =? 0) eqn:E; [apply Z.eqb_eq; exact E|].
  rewrite (leadingOnes_snd 7 (n + 1) 0).
  set (w := Z.land v 127).
  assert (Hw : 0 <= w < 128).
  { unfold w. change 127 with (Z.ones 7). rewrite Z.land_ones by lia.
    apply Z.mod_pos_bound. lia. }
  assert (Hs : Z.land (Z.shiftl v 1) 255 = Z.land (Z.shiftl w 1) 255).
  { unfold w. apply Z.bits_inj'. intros i Hi.
    rewrite !Z.land_spec.
    destruct (Z.eq_dec i 0) as [->|Hi0].
    - rewrite !Z.shiftl_spec_low by lia. reflexivity.
    - rewrite !Z.shiftl_spec by lia. rewrite Z.land_spec.
      destruct (Z.lt_ge_cases i 8) as [Hlt|Hge].
      + replace (Z.testbit 127 (i - 1)) with true.
        * rewrite andb_true_r. reflexivity.
        * change 127 with (Z.ones 7). symmetry. apply Z.ones_spec_low. lia.
      + replace (Z.testbit 255 i) with false.
        * rewrite !andb_false_r. reflexivity.
        * change 255 with (Z.ones 8). symmetry. apply Z.ones_spec_high. lia. }
  rewrite Hs.
  pose proof leadingOnes_exits_byte as Hall.
  rewrite forallb_forall in Hall.
  apply Z.eqb_eq. apply (Hall w).
  apply in_map_iff. exists (Z.to_nat w). split; [lia|].
  apply in_seq. lia.
Qed.

(** Equal addresses are of one family: [Equal] identifies an IPv4
    address only with itself and with its IPv4-in-IPv6 form. *)
Lemma Equal_To4_isNil (a b : IP) :
  Equal a b = true -> isNil (To4 a) = isNil (To4 b).
Proof.
  unfold Equal, IPv4len, IPv6len.
  destruct (Nat.eqb (length a) (length b)) eqn:EL.
  - intros H. apply bytesEqual_eq in H. subst. reflexivity.
  - destruct (Nat.eqb (length a) 4 && Nat.eqb (length b) 16) eqn:E1.
    + apply andb_true_iff in E1. destruct E1 as [La Lb].
      apply Nat.eqb_eq in La, Lb.
      rewrite andb_true_iff. intros [H _].
      rewrite (To4_len4 a La), (isNil_len4 a La).
      symmetry. apply To4_mapped; assumption.
    + destruct (Nat.eqb (length a) 16 && Nat.eqb (length b) 4) eqn:E2;
        [|discriminate].
      apply andb_true_iff in E2. destruct E2 as [La Lb].
      apply Nat.eqb_eq in La, Lb.
      rewrite andb_true_iff. intros [H _].
      rewrite (To4_len4 b Lb), (isNil_len4 b Lb).
      apply To4_mapped; assumption.
Qed.

Lemma Size_CIDRMask_32 : Size (CIDRMask 32 32) = (32, 32).
Proof. reflexivity. Qed.

Lemma Size_CIDRMask_128 : Size (CIDRMask 128 128) = (128, 128).
Proof. reflexivity. Qed.

Lemma networkNumber_length (n : IPNet) :
  wellFormed n ->
  length (fst (networkNumberAndMask n)) = 4%nat
  \/ length (fst (networkNumberAndMask n)) = 16%nat.
Proof.
  intros [HL [H4 | H16]]; unfold networkNumberAndMask, IPv4len, IPv6len.
  - rewrite (To4_len4 _ H4), (isNil_len4 _ H4). simpl.
    rewrite <- HL, H4. simpl. left. exact H4.
  - destruct (To4_length (IPNet_IP n)) as [E | E].
    + rewrite E. simpl. rewrite <- HL, H16. simpl. right. exact H16.
    + rewrite (isNil_len4 _ E). simpl. rewrite <- HL, H16, E. simpl.
      left. exact E.
Qed.

(** A well-formed network does not contain the absent address. *)
Lemma Contains_nil (n : IPNet) : wellFormed n -> Contains n [] = false.
Proof.
  intros W. pose proof (networkNumber_length n W) as H.
  unfold Contains. destruct (networkNumberAndMask n) as [nn m]. simpl in *.
  destruct nn; [destruct H; discriminate | reflexivity].
Qed.

End netFacts.

(** ** The equivalence check *)

Lemma sameRoute_true (r route : netlink.Route) (rd d : net.IPNet) :
  sameRoute r route rd d = true <->
  (netlink.LinkIndex r = netlink.LinkIndex route
   /\ netlink.Scope r = netlink.Scope route
   /\ fst (net.Size (net.IPNet_Mask rd)) = fst (net.Size (net.IPNet_Mask d))
   /\ snd (net.Size (net.IPNet_Mask rd)) = snd (net.Size (net.IPNet_Mask d))
   /\ net.Equal (net.IPNet_IP rd) (net.IPNet_IP d) = true
   /\ net.Equal (netlink.Gw r) (netlink.Gw route) = true).
Proof.
  unfold sameRoute.
  destruct (net.Size (net.IPNet_Mask rd)) as [al ab].
  destruct (net.Size (net.IPNet_Mask d)) as [bl bb]. simpl.
  rewrite !andb_true_iff, !Z.eqb_eq. tauto.
Qed.

Lemma sameRoute_equivalent (r route : netlink.Route) (rd d : net.IPNet) :
  netlink.Dst r = Some rd -> netlink.Dst route = Some d ->
  (sameRoute r route rd d = true <-> equivalent r route).
Proof.
  intros Hr Hd. rewrite sameRoute_true. unfold equivalent. split.
  - intros H. exists rd, d. tauto.
  - intros (rd' & d' & Hr' & Hd' & H).
    rewrite Hr in Hr'. rewrite Hd in Hd'.
    inversion Hr'; inversion Hd'; subst. tauto.
Qed.

(** A route is equivalent to itself as soon as it has a destination. *)
Lemma sameRoute_refl (r : netlink.Route) (d : net.IPNet) :
  sameRoute r r d d = true.
Proof.
  apply sameRoute_true. rewrite !netFacts.Equal_refl. tauto.
Qed.

Section LookupRange.

Variables (route : netlink.Route) (d : net.IPNet).
Hypothesis Hdst : netlink.Dst route = Some d.

(** With a destination in the desired route the loop never panics. *)
Lemma lookupRange_total (rs : list netlink.Route) :
  exists found, lookupRange route rs = Done found.
Proof.
  induction rs as [|r rs IH]; simpl; [eexists; reflexivity|].
  rewrite Hdst. destruct (netlink.Dst r) as [rd|]; [|exact IH].
  destruct (sameRoute r route rd d); [eexists; reflexivity | exact IH].
Qed.

Lemma lookupRange_Some (rs : list netlink.Route) (x : netlink.Route) :
  lookupRange route rs = Done (Some x) ->
  In x rs /\ exists xd, netlink.Dst x = Some xd /\ sameRoute x route xd d = true.
Proof.
  induction rs as [|r rs IH]; simpl; [discriminate|].
  rewrite Hdst. destruct (netlink.Dst r) as [rd|] eqn:Er.
  - destruct (sameRoute r route rd d) eqn:Es.
    + intros E; inversion E; subst. split; [left; reflexivity|].
      exists rd; split; assumption.
    + intros E. destruct (IH E) as [Hin Hx]. split; [right; exact Hin | exact Hx].
  - intros E. destruct (IH E) as [Hin Hx]. split; [right; exact Hin | exact Hx].
Qed.

Lemma lookupRange_None (rs : list netlink.Route) :
  lookupRange route rs = Done None ->
  forall x xd, In x rs -> netlink.Dst x = Some xd -> sameRoute x route xd d = false.
Proof.
  induction rs as [|r rs IH]; simpl; [intros _ x xd []|].
  rewrite Hdst. destruct (netlink.Dst r) as [rd|] eqn:Er.
  - destruct (sameRoute r route rd d) eqn:Es; [discriminate|].
    intros E x xd [->|Hin] Hx.
    + rewrite Er in Hx. inversion Hx; subst. exact Es.
    + exact (IH E x xd Hin Hx).
  - intros E x xd [->|Hin] Hx.
    + rewrite Er in Hx. discriminate.
    + exact (IH E x xd Hin Hx).
Qed.

Lemma lookupRange_found (rs : list netlink.Route) (x : netlink.Route) (xd : net.IPNet) :
  In x rs -> netlink.Dst x = Some xd -> sameRoute x route xd d = true ->
  exists y, lookupRange route rs = Done (Some y).
Proof.
  intros Hin Hx Hs.
  destruct (lookupRange_total rs) as [[y|] E]; [exists y; exact E|].
  rewrite (lookupRange_None rs E x xd Hin Hx) in Hs. discriminate.
Qed.

(** The loop finds a route exactly when an equivalent one is listed. *)
Lemma lookupRange_iff (rs : list netlink.Route) (found : option netlink.Route) :
  lookupRange route rs = Done found ->
  (found <> None <-> exists r, In r rs /\ equivalent r route).
Proof.
  intros E. split.
  - destruct found as [x|]; [intros _|intros H; contradiction H; reflexivity].
    destruct (lookupRange_Some rs x E) as [Hin (xd & Hx & Hs)].
    exists x. split; [exact Hin|].
    apply (sameRoute_equivalent x route xd d Hx Hdst). exact Hs.
  - intros (r & Hin & Heq).
    destruct Heq as (rd & d' & Hr & Hd' & H).
    assert (Hs : sameRoute r route rd d = true).
    { apply (sameRoute_equivalent r route rd d Hr Hdst).
      exists rd, d'. tauto. }
    destruct (lookupRange_found rs r rd Hin Hr Hs) as [y Ey].
    rewrite E in Ey. inversion Ey. discriminate.
Qed.

End LookupRange.


Section LookupRun.

Variable A : Adapter.

(** What a call of [lookup] does, for a desired route with a
    destination: one [RouteList] call, then the loop on its answer. *)
Lemma lookup_run (link : netlink.Link) (route : netlink.Route) (d : net.IPNet)
      (w : World (kstate A)) :
  netlink.Dst route = Some d ->
  let p := RouteList A link (ipFamily (net.IPNet_IP d)) (kernel w) in
  lookup A link route w =
    (match fst p with
     | Err _ => Done None
     | Ok rs => lookupRange route rs
     end,
     mkWorld (snd p) (trace w ++ [CRouteList link (ipFamily (net.IPNet_IP d))])).
Proof.
  intros Hd p. unfold lookup. rewrite Hd.
  unfold bind, netlink_RouteList. fold p.
  destruct (fst p) as [rs|e]; [|reflexivity].
  unfold lift. destruct (lookupRange route rs); reflexivity.
Qed.

(** Without a destination in the desired route, [lookup] panics before
    it reaches the kernel. *)
Lemma lookup_nil_Dst (link : netlink.Link) (route : netlink.Route)
      (w : World (kstate A)) :
  netlink.Dst route = None -> lookup A link route w = (Panicked, w).
Proof. intros Hd. unfold lookup. rewrite Hd. reflexivity. Qed.

End LookupRun.

(** C2. Route equivalence check: for a desired route with a destination
    and any list [rs] of existing routes answered by the kernel for the
    device and family, [lookup] reports a match if and only if some route
    of [rs] has a destination with the same mask length and mask
    bit-width, an equal destination address, an equal gateway (both may be
    absent, and an absent gateway is equal to no other) and the same
    device index and scope; on the empty list it reports no route; and its
    only call to the kernel is the one [RouteList] query. *)
Theorem lookup_reports_equivalent_route
    (A : Adapter) (link : netlink.Link) (route : netlink.Route) (d : net.IPNet)
    (w : World (kstate A)) (rs : list netlink.Route) :
  netlink.Dst route = Some d ->
  fst (RouteList A link (ipFamily (net.IPNet_IP d)) (kernel w)) = Ok rs ->
  exists found,
    lookup A link route w =
      (Done found,
       mkWorld (snd (RouteList A link (ipFamily (net.IPNet_IP d)) (kernel w)))
               (trace w ++ [CRouteList link (ipFamily (net.IPNet_IP d))]))
    /\ (found <> None <-> exists r, In r rs /\ equivalent r route)
    /\ (rs = [] -> found = None)
    /\ (forall gw, net.Equal [] gw = true <-> gw = []).
Proof.
  intros Hd Hl.
  destruct (lookupRange_total route d Hd rs) as [found E].
  exists found. split; [|split; [|split]].
  - rewrite (lookup_run A link route d w Hd). cbv zeta. rewrite Hl, E. reflexivity.
  - exact (lookupRange_iff route d Hd rs found E).
  - intros ->. simpl in E. inversion E. reflexivity.
  - exact netFacts.Equal_nil.
Qed.

(** Witness of C2 on the kernel with the two routes of the sample route
    installed: the request of the main route is found. *)
Lemma lookup_reports_equivalent_route_witness :
  exists found,
    lookup ex.sound ex.eth0 ex.request4 (ex.world ex.kernel4) =
      (Done found,
       mkWorld ex.kernel4 [CRouteList ex.eth0 netlink.FAMILY_V4])
    /\ (found <> None <->
        exists r, In r [ex.nexthop4; ex.request4] /\ equivalent r ex.request4)
    /\ ([ex.nexthop4; ex.request4] = [] -> found = None)
    /\ (forall gw, net.Equal [] gw = true <-> gw = []).
Proof.
  exact (lookup_reports_equivalent_route ex.sound ex.eth0 ex.request4 ex.prefix4
           (ex.world ex.kernel4) [ex.nexthop4; ex.request4]
           eq_refl eq_refl).
Defined.




(** ** The nexthop route *)

Section Nexthop.

Variable A : Adapter.

Lemma getNexthopAsIPNet_Some (route : Route) (g : net.IP) :
  Nexthop route = Some g ->
  getNexthopAsIPNet route =
    Some (net.mkIPNet g (if net.isNil (net.To4 g)
                         then net.CIDRMask 128 128 else net.CIDRMask 32 32)).
Proof.
  intros H. unfold getNexthopAsIPNet. rewrite H.
  destruct (net.isNil (net.To4 g)); reflexivity.
Qed.

Lemma getNexthopAsIPNet_None (route : Route) :
  Nexthop route = None -> getNexthopAsIPNet route = None.
Proof. intros H. unfold getNexthopAsIPNet. rewrite H. reflexivity. Qed.

(** Without a router network the nexthop step panics at once. *)
Lemma replaceNexthopRoute_nil (link : netlink.Link) (w : World (kstate A)) :
  replaceNexthopRoute A link None w = (Panicked, w).
Proof. reflexivity. Qed.

(** So does reconciliation of a route without a gateway, as soon as its
    device resolves. *)
Lemma replaceRoute_nil_Nexthop (deviceMTU routeMTU : Z) (route : Route)
      (link : netlink.Link) (w : World (kstate A)) :
  Nexthop route = None ->
  fst (LinkByName A (Device route) (kernel w)) = Ok link ->
  replaceRoute A deviceMTU routeMTU route w =
    (Panicked,
     mkWorld (snd (LinkByName A (Device route) (kernel w)))
             (trace w ++ [CLinkByName (Device route)])).
Proof.
  intros Hn Hl. unfold replaceRoute, bind, netlink_LinkByName.
  rewrite Hl, (getNexthopAsIPNet_None route Hn). reflexivity.
Qed.

End Nexthop.

(** C3, the code at a route without a gateway: after the device is
    resolved the nexthop step dereferences the nil router network and
    panics; the main-route step is not reached. *)
Theorem replaceRoute_without_gateway_panics :
  Nexthop ex.route4_direct = None
  /\ replaceRoute ex.sound ex.deviceMTU ex.routeMTU ex.route4_direct
       (ex.world ex.kernel0)
     = (Panicked, mkWorld ex.kernel0 [CLinkByName "eth0"]).
Proof. split; reflexivity. Qed.

(** C7. Nexthop route construction: for a route with gateway [g] the
    on-link route has the destination [g] with a host mask (32 of 32 bits
    when [g] is an IPv4 address, 128 of 128 otherwise), no gateway, the
    index of the device, and scope link exactly when [g] is an IPv4
    address; for an IPv6 gateway the scope stays zero. *)
Theorem createNexthopRoute_host_route
    (route : Route) (g : net.IP) (link : netlink.Link) :
  Nexthop route = Some g ->
  exists nh d,
    createNexthopRoute link (getNexthopAsIPNet route) = Done nh
    /\ netlink.Dst nh = Some d
    /\ net.IPNet_IP d = g
    /\ net.Size (net.IPNet_Mask d)
       = (if net.isNil (net.To4 g) then (128, 128) else (32, 32))
    /\ netlink.Gw nh = []
    /\ netlink.LinkIndex nh = netlink.Index (netlink.Attrs link)
    /\ (netlink.Scope nh = netlink.SCOPE_LINK <-> net.isNil (net.To4 g) = false)
    /\ (net.isNil (net.To4 g) = true -> netlink.Scope nh = 0).
Proof.
  intros H. rewrite (getNexthopAsIPNet_Some route g H).
  unfold createNexthopRoute. cbn [net.IPNet_IP].
  eexists. eexists. split; [reflexivity|].
  cbn [netlink.Dst netlink.Gw netlink.LinkIndex netlink.Scope].
  split; [reflexivity|]. cbn [net.IPNet_IP net.IPNet_Mask].
  destruct (net.isNil (net.To4 g)); cbn [negb].
  - repeat split; try reflexivity; discriminate.
  - repeat split; try reflexivity; discriminate.
Qed.

Lemma createNexthopRoute_host_route_witness :
  exists nh d,
    createNexthopRoute ex.eth0 (getNexthopAsIPNet ex.route6) = Done nh
    /\ netlink.Dst nh = Some d
    /\ net.IPNet_IP d = ex.gw6
    /\ net.Size (net.IPNet_Mask d)
       = (if net.isNil (net.To4 ex.gw6) then (128, 128) else (32, 32))
    /\ netlink.Gw nh = []
    /\ netlink.LinkIndex nh = netlink.Index (netlink.Attrs ex.eth0)
    /\ (netlink.Scope nh = netlink.SCOPE_LINK <-> net.isNil (net.To4 ex.gw6) = false)
    /\ (net.isNil (net.To4 ex.gw6) = true -> netlink.Scope nh = 0).
Proof.
  exact (createNexthopRoute_host_route ex.route6 ex.gw6 ex.eth0 eq_refl).
Defined.

(** ** Deletion *)

(** C8. Delete request: [deleteRoute] resolves the device and issues one
    [RouteDel], without any [RouteList]; the request carries the prefix and
    the index of the device, no gateway, no source address and no MTU, and
    the scope of the specification when the prefix is an IPv4 one, the zero
    scope otherwise.  The answer of [RouteDel] is returned as it is. *)
Theorem deleteRoute_request
    (A : Adapter) (route : Route) (link : netlink.Link) (w : World (kstate A)) :
  fst (LinkByName A (Device route) (kernel w)) = Ok link ->
  exists req,
    let k1 := snd (LinkByName A (Device route) (kernel w)) in
    deleteRoute A route w =
      (Done (fst (RouteDel A req k1)),
       mkWorld (snd (RouteDel A req k1))
               (trace w ++ [CLinkByName (Device route); CRouteDel req]))
    /\ netlink.Dst req = Some (Prefix route)
    /\ netlink.LinkIndex req = netlink.Index (netlink.Attrs link)
    /\ netlink.Gw req = []
    /\ netlink.Src req = []
    /\ netlink.MTU req = 0
    /\ netlink.Scope req =
       (if net.isNil (net.To4 (net.IPNet_IP (Prefix route))) then 0 else Scope route).
Proof.
  intros Hl. exists (deleteSpec route link). cbv zeta.
  split.
  - unfold deleteRoute, bind, netlink_LinkByName. rewrite Hl.
    unfold netlink_RouteDel. cbn [kernel trace fst snd].
    rewrite <- app_assoc. cbn [app].
    destruct (fst (RouteDel A (deleteSpec route link) _)); reflexivity.
  - unfold deleteSpec. cbn.
    destruct (net.isNil (net.To4 (net.IPNet_IP (Prefix route))));
      repeat split; reflexivity.
Qed.

Lemma deleteRoute_request_witness :
  exists req,
    let k1 := snd (LinkByName ex.sound (Device ex.route6) ex.kernel4) in
    deleteRoute ex.sound ex.route6 (ex.world ex.kernel4) =
      (Done (fst (RouteDel ex.sound req k1)),
       mkWorld (snd (RouteDel ex.sound req k1))
               ([] ++ [CLinkByName (Device ex.route6); CRouteDel req]))
    /\ netlink.Dst req = Some (Prefix ex.route6)
    /\ netlink.LinkIndex req = netlink.Index (netlink.Attrs ex.eth0)
    /\ netlink.Gw req = []
    /\ netlink.Src req = []
    /\ netlink.MTU req = 0
    /\ netlink.Scope req =
       (if net.isNil (net.To4 (net.IPNet_IP (Prefix ex.route6)))
        then 0 else Scope ex.route6).
Proof.
  exact (deleteRoute_request ex.sound ex.route6 ex.eth0 (ex.world ex.kernel4) eq_refl).
Defined.

(** ** Reconciliation, step by step *)

Section Runs.

Variable A : Adapter.
Variables deviceMTU routeMTU : Z.

(** The nexthop step after the on-link route is built: one [lookup],
    and one [RouteReplace] when it finds nothing. *)
Lemma replaceNexthopRoute_run (link : netlink.Link) (routerNet : option net.IPNet)
      (nh : netlink.Route) (w : World (kstate A)) :
  createNexthopRoute link routerNet = Done nh ->
  replaceNexthopRoute A link routerNet w =
    match lookup A link nh w with
    | (Panicked, w1) => (Panicked, w1)
    | (Done (Some _), w1) => (Done (false, None), w1)
    | (Done None, w1) =>
        (Done match fst (RouteReplace A nh (kernel w1)) with
              | Some e => (false, Some ("unable to add L2 nexthop route: " ++ e)%string)
              | None => (true, None)
              end,
         mkWorld (snd (RouteReplace A nh (kernel w1))) (trace w1 ++ [CRouteReplace nh]))
    end.
Proof.
  intros Hc. unfold replaceNexthopRoute, bind. rewrite Hc. cbn [lift ret].
  destruct (lookup A link nh w) as [[[x|]|] w1]; try reflexivity.
  unfold netlink_RouteReplace.
  destruct (fst (RouteReplace A nh (kernel w1))); reflexivity.
Qed.

(** Reconciliation once the device is resolved: the nexthop step, whose
    error ends the call, then one [lookup] of the main request, and one
    [RouteReplace] when it finds nothing. *)
Lemma replaceRoute_run (route : Route) (link : netlink.Link) (w : World (kstate A)) :
  fst (LinkByName A (Device route) (kernel w)) = Ok link ->
  replaceRoute A deviceMTU routeMTU route w =
    match replaceNexthopRoute A link (getNexthopAsIPNet route)
            (mkWorld (snd (LinkByName A (Device route) (kernel w)))
                     (trace w ++ [CLinkByName (Device route)])) with
    | (Panicked, w2) => (Panicked, w2)
    | (Done (_, Some e), w2) =>
        (Done (false, Some ("unable to add nexthop route: " ++ e)%string), w2)
    | (Done (_, None), w2) =>
        let rs := routeSpec deviceMTU routeMTU route link in
        match lookup A link rs w2 with
        | (Panicked, w3) => (Panicked, w3)
        | (Done (Some _), w3) => (Done (false, None), w3)
        | (Done None, w3) =>
            (Done match fst (RouteReplace A rs (kernel w3)) with
                  | Some e => (false, Some e)
                  | None => (true, None)
                  end,
             mkWorld (snd (RouteReplace A rs (kernel w3))) (trace w3 ++ [CRouteReplace rs]))
        end
    end.
Proof.
  intros Hl. unfold replaceRoute at 1. unfold bind at 1.
  unfold netlink_LinkByName at 1. rewrite Hl. unfold bind at 1.
  destruct (replaceNexthopRoute A link (getNexthopAsIPNet route) _)
    as [[[b [e|]]|] w2]; cbn [snd]; try reflexivity.
  cbv zeta. unfold bind at 1.
  destruct (lookup A link (routeSpec deviceMTU routeMTU route link) w2)
    as [[[x|]|] w3]; try reflexivity.
  unfold bind, netlink_RouteReplace.
  destruct (fst (RouteReplace A _ (kernel w3))); reflexivity.
Qed.

(** When the device does not resolve, nothing else is called. *)
Lemma replaceRoute_no_link (route : Route) (e : error) (w : World (kstate A)) :
  fst (LinkByName A (Device route) (kernel w)) = Err e ->
  replaceRoute A deviceMTU routeMTU route w =
    (Done (false,
           Some ("unable to lookup interface " ++ Device route ++ ": " ++ e)%string),
     mkWorld (snd (LinkByName A (Device route) (kernel w)))
             (trace w ++ [CLinkByName (Device route)])).
Proof.
  intros Hl. unfold replaceRoute, bind, netlink_LinkByName. rewrite Hl. reflexivity.
Qed.

(** The main-route step when the nexthop step has succeeded and no
    equivalent route is found: the request [routeSpec] is installed, as
    the last call. *)
Lemma replaceRoute_installs (route : Route) (link : netlink.Link)
      (w w2 w3 : World (kstate A)) (b : bool) :
  fst (LinkByName A (Device route) (kernel w)) = Ok link ->
  replaceNexthopRoute A link (getNexthopAsIPNet route)
    (mkWorld (snd (LinkByName A (Device route) (kernel w)))
             (trace w ++ [CLinkByName (Device route)])) = (Done (b, None), w2) ->
  lookup A link (routeSpec deviceMTU routeMTU route link) w2 = (Done None, w3) ->
  let rs := routeSpec deviceMTU routeMTU route link in
  replaceRoute A deviceMTU routeMTU route w =
    (Done match fst (RouteReplace A rs (kernel w3)) with
          | Some e => (false, Some e)
          | None => (true, None)
          end,
     mkWorld (snd (RouteReplace A rs (kernel w3))) (trace w3 ++ [CRouteReplace rs])).
Proof.
  intros Hl Hn Hk rs. rewrite (replaceRoute_run route link w Hl), Hn.
  cbv zeta. rewrite Hk. reflexivity.
Qed.

End Runs.

(** ** MTU policy *)

(** Whether a network contains the absent address: [Contains] compares
    no byte, so it answers true exactly when the network has no network
    number (its address and mask do not fit together). *)
Lemma Contains_absent (n : net.IPNet) :
  net.Contains n [] = net.isNil (fst (net.networkNumberAndMask n)).
Proof.
  unfold net.Contains. destruct (net.networkNumberAndMask n) as [nn m].
  cbn [fst]. destruct nn; reflexivity.
Qed.

(** C9 as stated fails for an absent local address when the prefix is
    the zero [net.IPNet]: [Contains] answers true, so the request carries
    the device MTU, and it is this request that is installed. *)
Lemma absent_local_in_zero_prefix_gets_device_MTU :
  MTU ex2.route_zero <> 0
  /\ Local ex2.route_zero = []
  /\ netlink.MTU (routeSpec ex.deviceMTU ex.routeMTU ex2.route_zero ex.eth0)
     = ex.deviceMTU
  /\ ex.deviceMTU <> ex.routeMTU
  /\ exists w',
       replaceRoute ex.sound ex.deviceMTU ex.routeMTU ex2.route_zero (ex.world ex.kernel0)
       = (Done (true, None), w')
       /\ In (CRouteReplace (routeSpec ex.deviceMTU ex.routeMTU ex2.route_zero ex.eth0))
             (trace w').
Proof.
  split; [discriminate|]. split; [reflexivity|]. split; [reflexivity|].
  split; [discriminate|].
  eexists. split; [vm_compute; reflexivity|].
  vm_compute. right. right. right. right. left. reflexivity.
Qed.

(** C9, amended. MTU policy: with a nonzero [MTU] in the specification the
    request of the main route carries the device MTU when the prefix
    contains the local address and the route MTU otherwise.  An absent
    local address is not contained, and the request carries the route MTU,
    exactly when the prefix has a network number; a prefix without one,
    such as the zero [net.IPNet], contains the absent address and the
    request carries the device MTU.  With a zero [MTU] the request's MTU
    stays zero.  That request is the one installed by the main-route
    step. *)
Theorem routeSpec_MTU_policy
    (A : Adapter) (deviceMTU routeMTU : Z) (route : Route) (link : netlink.Link) :
  (MTU route <> 0 ->
   netlink.MTU (routeSpec deviceMTU routeMTU route link) =
     if net.Contains (Prefix route) (Local route) then deviceMTU else routeMTU)
  /\ (MTU route <> 0 -> Local route = [] ->
      fst (net.networkNumberAndMask (Prefix route)) <> [] ->
      netlink.MTU (routeSpec deviceMTU routeMTU route link) = routeMTU)
  /\ (MTU route <> 0 -> Local route = [] ->
      fst (net.networkNumberAndMask (Prefix route)) = [] ->
      netlink.MTU (routeSpec deviceMTU routeMTU route link) = deviceMTU)
  /\ (MTU route = 0 -> netlink.MTU (routeSpec deviceMTU routeMTU route link) = 0)
  /\ (forall (w w2 w3 : World (kstate A)) (b : bool),
        fst (LinkByName A (Device route) (kernel w)) = Ok link ->
        replaceNexthopRoute A link (getNexthopAsIPNet route)
          (mkWorld (snd (LinkByName A (Device route) (kernel w)))
                   (trace w ++ [CLinkByName (Device route)])) = (Done (b, None), w2) ->
        lookup A link (routeSpec deviceMTU routeMTU route link) w2 = (Done None, w3) ->
        exists res k,
          replaceRoute A deviceMTU routeMTU route w =
            (Done res,
             mkWorld k (trace w3 ++ [CRouteReplace (routeSpec deviceMTU routeMTU route link)]))).
Proof.
  assert (Hpol : MTU route <> 0 ->
                 netlink.MTU (routeSpec deviceMTU routeMTU route link) =
                 if net.Contains (Prefix route) (Local route)
                 then deviceMTU else routeMTU).
  { intros Hm. unfold routeSpec, getNetlinkRoute. cbn [netlink.MTU].
    apply Z.eqb_neq in Hm. rewrite Hm. reflexivity. }
  split; [exact Hpol|]. split; [|split; [|split]].
  - intros Hm Hloc Hnn. rewrite (Hpol Hm), Hloc, Contains_absent.
    destruct (fst (net.networkNumberAndMask (Prefix route)));
      [contradiction Hnn; reflexivity | reflexivity].
  - intros Hm Hloc Hnn. rewrite (Hpol Hm), Hloc, Contains_absent, Hnn. reflexivity.
  - intros Hm. unfold routeSpec, getNetlinkRoute. cbn [netlink.MTU].
    rewrite Hm. reflexivity.
  - intros w w2 w3 b Hl Hn Hk.
    rewrite (replaceRoute_installs A deviceMTU routeMTU route link w w2 w3 b Hl Hn Hk).
    eexists. eexists. reflexivity.
Qed.

(** Witness of C9 (amended): an IPv4 route with its local address inside
    the prefix gets the device MTU, the same route with a local address
    outside gets the route MTU, an IPv6 route without local address gets
    the route MTU, the zero prefix without local address gets the device
    MTU, a route without MTU keeps zero. *)
Lemma routeSpec_MTU_policy_witness :
  netlink.MTU (routeSpec ex.deviceMTU ex.routeMTU ex.route4 ex.eth0) = ex.deviceMTU
  /\ netlink.MTU (routeSpec ex.deviceMTU ex.routeMTU ex.route4_remote ex.eth0) = ex.routeMTU
  /\ netlink.MTU (routeSpec ex.deviceMTU ex.routeMTU ex.route6 ex.eth0) = ex.routeMTU
  /\ netlink.MTU (routeSpec ex.deviceMTU ex.routeMTU ex2.route_zero ex.eth0) = ex.deviceMTU
  /\ netlink.MTU (routeSpec ex.deviceMTU ex.routeMTU ex.route4_link ex.eth0) = 0.
Proof.
  split; [|split; [|split; [|split]]].
  - apply (proj1 (routeSpec_MTU_policy ex.sound ex.deviceMTU ex.routeMTU ex.route4 ex.eth0)).
    discriminate.
  - apply (proj1 (routeSpec_MTU_policy ex.sound ex.deviceMTU ex.routeMTU
                    ex.route4_remote ex.eth0)).
    discriminate.
  - apply (proj1 (proj2 (routeSpec_MTU_policy ex.sound ex.deviceMTU ex.routeMTU
                           ex.route6 ex.eth0))).
    + discriminate.
    + reflexivity.
    + cbv. discriminate.
  - apply (proj1 (proj2 (proj2 (routeSpec_MTU_policy ex.sound ex.deviceMTU ex.routeMTU
                                  ex2.route_zero ex.eth0)))).
    + discriminate.
    + reflexivity.
    + reflexivity.
  - apply (proj1 (proj2 (proj2 (proj2 (routeSpec_MTU_policy ex.sound ex.deviceMTU
                                         ex.routeMTU ex.route4_link ex.eth0))))).
    reflexivity.
Defined.

(** ** Scope *)




(** ** Order of the installs and failures *)

Section Failures.

Variable A : Adapter.
Variables deviceMTU routeMTU : Z.

(** The on-link route of a route with a gateway has the gateway as its
    destination address. *)
Lemma createNexthopRoute_Dst (route : Route) (g : net.IP) (link : netlink.Link)
      (nh : netlink.Route) :
  Nexthop route = Some g ->
  createNexthopRoute link (getNexthopAsIPNet route) = Done nh ->
  exists d, netlink.Dst nh = Some d /\ net.IPNet_IP d = g.
Proof.
  intros Hg Hc. rewrite (getNexthopAsIPNet_Some route g Hg) in Hc.
  unfold createNexthopRoute in Hc. inversion Hc; subst; clear Hc.
  eexists. split; reflexivity.
Qed.

(** A [lookup] for a request with a destination adds one [RouteList]
    to the trace and takes the kernel that call leaves. *)
Lemma lookup_world (link : netlink.Link) (r : netlink.Route) (d : net.IPNet)
      (w w' : World (kstate A)) (o : outcome (option netlink.Route)) :
  netlink.Dst r = Some d ->
  lookup A link r w = (o, w') ->
  w' = mkWorld (snd (RouteList A link (ipFamily (net.IPNet_IP d)) (kernel w)))
               (trace w ++ [CRouteList link (ipFamily (net.IPNet_IP d))]).
Proof.
  intros Hd Hk. rewrite (lookup_run A link r d w Hd) in Hk.
  inversion Hk. reflexivity.
Qed.

(** A failing [RouteList] makes [lookup] answer that there is no
    route. *)
Lemma lookup_list_fails (link : netlink.Link) (r : netlink.Route) (d : net.IPNet)
      (w : World (kstate A)) (e : error) :
  netlink.Dst r = Some d ->
  fst (RouteList A link (ipFamily (net.IPNet_IP d)) (kernel w)) = Err e ->
  lookup A link r w =
    (Done None,
     mkWorld (snd (RouteList A link (ipFamily (net.IPNet_IP d)) (kernel w)))
             (trace w ++ [CRouteList link (ipFamily (net.IPNet_IP d))])).
Proof.
  intros Hd He. rewrite (lookup_run A link r d w Hd). cbv zeta.
  rewrite He. reflexivity.
Qed.

Section WithNexthop.

Variables (route : Route) (g : net.IP) (link : netlink.Link)
          (nh : netlink.Route) (w w2 : World (kstate A)).
Hypothesis Hg : Nexthop route = Some g.
Hypothesis Hl : fst (LinkByName A (Device route) (kernel w)) = Ok link.
Hypothesis Hc : createNexthopRoute link (getNexthopAsIPNet route) = Done nh.
Hypothesis Hk :
  lookup A link nh
    (mkWorld (snd (LinkByName A (Device route) (kernel w)))
             (trace w ++ [CLinkByName (Device route)])) = (Done None, w2).

Lemma nexthop_lookup_trace :
  trace w2 = trace w ++ [CLinkByName (Device route); CRouteList link (ipFamily g)].
Proof.
  destruct (createNexthopRoute_Dst route g link nh Hg Hc) as (d & Hd & Hip).
  rewrite (lookup_world link nh d _ _ _ Hd Hk). cbn [trace kernel].
  rewrite Hip, <- app_assoc. reflexivity.
Qed.

(** The install of the on-link route fails: the call ends there. *)
Lemma replaceRoute_nexthop_fails (e : error) :
  fst (RouteReplace A nh (kernel w2)) = Some e ->
  replaceRoute A deviceMTU routeMTU route w =
    (Done (false,
           Some ("unable to add nexthop route: "
                 ++ ("unable to add L2 nexthop route: " ++ e))%string),
     mkWorld (snd (RouteReplace A nh (kernel w2)))
             (trace w ++ [CLinkByName (Device route);
                          CRouteList link (ipFamily g);
                          CRouteReplace nh])).
Proof.
  intros He. rewrite (replaceRoute_run A deviceMTU routeMTU route link w Hl).
  rewrite (replaceNexthopRoute_run A link _ nh _ Hc), Hk, He.
  rewrite nexthop_lookup_trace, <- app_assoc. reflexivity.
Qed.

(** The install of the on-link route succeeds: the main-route step
    follows, with its [RouteList] and at most one [RouteReplace]. *)
Lemma replaceRoute_nexthop_installed :
  fst (RouteReplace A nh (kernel w2)) = None ->
  exists out k tail,
    replaceRoute A deviceMTU routeMTU route w =
      (out,
       mkWorld k
         ((trace w ++ [CLinkByName (Device route);
                       CRouteList link (ipFamily g);
                       CRouteReplace nh])
          ++ CRouteList link (ipFamily (net.IPNet_IP (Prefix route))) :: tail))
    /\ (tail = [] \/ tail = [CRouteReplace (routeSpec deviceMTU routeMTU route link)]).
Proof.
  intros He. rewrite (replaceRoute_run A deviceMTU routeMTU route link w Hl).
  rewrite (replaceNexthopRoute_run A link _ nh _ Hc), Hk, He. cbv zeta.
  set (rs := routeSpec deviceMTU routeMTU route link).
  set (w3 := mkWorld _ _).
  assert (Ht : trace w3 = trace w ++ [CLinkByName (Device route);
                                      CRouteList link (ipFamily g);
                                      CRouteReplace nh]).
  { unfold w3. cbn [trace]. rewrite nexthop_lookup_trace, <- app_assoc.
    reflexivity. }
  assert (Hd : netlink.Dst rs = Some (Prefix route)) by reflexivity.
  rewrite (lookup_run A link rs (Prefix route) w3 Hd). cbv zeta.
  rewrite Ht.
  destruct (match fst (RouteList A link _ (kernel w3)) with
            | Ok routes => lookupRange rs routes
            | Err _ => Done None
            end) as [[x|]|].
  - eexists. eexists. exists []. split; [|left; reflexivity].
    rewrite <- app_assoc. reflexivity.
  - eexists. eexists. exists [CRouteReplace rs]. split; [|right; reflexivity].
    cbn [trace]. rewrite <- !app_assoc. reflexivity.
  - eexists. eexists. exists []. split; [|left; reflexivity].
    rewrite <- app_assoc. reflexivity.
Qed.

End WithNexthop.

(** The install of the main route fails: its error is returned as it
    is, and the failing call is the last one. *)
Lemma replaceRoute_install_fails (route : Route) (link : netlink.Link)
      (w w2 w3 : World (kstate A)) (b : bool) (e : error) :
  fst (LinkByName A (Device route) (kernel w)) = Ok link ->
  replaceNexthopRoute A link (getNexthopAsIPNet route)
    (mkWorld (snd (LinkByName A (Device route) (kernel w)))
             (trace w ++ [CLinkByName (Device route)])) = (Done (b, None), w2) ->
  lookup A link (routeSpec deviceMTU routeMTU route link) w2 = (Done None, w3) ->
  fst (RouteReplace A (routeSpec deviceMTU routeMTU route link) (kernel w3)) = Some e ->
  replaceRoute A deviceMTU routeMTU route w =
    (Done (false, Some e),
     mkWorld (snd (RouteReplace A (routeSpec deviceMTU routeMTU route link) (kernel w3)))
             (trace w3 ++ [CRouteReplace (routeSpec deviceMTU routeMTU route link)])).
Proof.
  intros Hl Hn Hk He.
  rewrite (replaceRoute_installs A deviceMTU routeMTU route link w w2 w3 b Hl Hn Hk).
  cbv zeta. rewrite He. reflexivity.
Qed.

(** [deleteRoute] when the device does not resolve, and when it does. *)
Lemma deleteRoute_no_link (route : Route) (e : error) (w : World (kstate A)) :
  fst (LinkByName A (Device route) (kernel w)) = Err e ->
  deleteRoute A route w =
    (Done (Some ("unable to lookup interface " ++ Device route ++ ": " ++ e)%string),
     mkWorld (snd (LinkByName A (Device route) (kernel w)))
             (trace w ++ [CLinkByName (Device route)])).
Proof.
  intros Hl. unfold deleteRoute, bind, netlink_LinkByName. rewrite Hl. reflexivity.
Qed.

Lemma deleteRoute_run (route : Route) (link : netlink.Link) (w : World (kstate A)) :
  fst (LinkByName A (Device route) (kernel w)) = Ok link ->
  let k1 := snd (LinkByName A (Device route) (kernel w)) in
  deleteRoute A route w =
    (Done (fst (RouteDel A (deleteSpec route link) k1)),
     mkWorld (snd (RouteDel A (deleteSpec route link) k1))
             (trace w ++ [CLinkByName (Device route);
                          CRouteDel (deleteSpec route link)])).
Proof.
  intros Hl k1. unfold deleteRoute, bind, netlink_LinkByName. rewrite Hl.
  unfold netlink_RouteDel. cbn [kernel trace fst snd]. fold k1.
  rewrite <- app_assoc. cbn [app].
  destruct (fst (RouteDel A (deleteSpec route link) k1)); reflexivity.
Qed.

End Failures.

(** C5. Nexthop precedence and fatal nexthop failure: for a route with a
    gateway whose on-link route is not found, the [RouteReplace] of the
    on-link route is the third call, after the device is resolved and the
    routes are listed.  If it fails, it is the last call, neither the
    [RouteList] nor the [RouteReplace] of the main route follows, and the
    call returns the failure.  If it succeeds, the [RouteList] of the main
    route and then at most the [RouteReplace] of the main request
    follow. *)
Theorem nexthop_route_installed_first
    (A : Adapter) (deviceMTU routeMTU : Z) (route : Route) (g : net.IP)
    (link : netlink.Link) (nh : netlink.Route) (w w2 : World (kstate A)) :
  Nexthop route = Some g ->
  fst (LinkByName A (Device route) (kernel w)) = Ok link ->
  createNexthopRoute link (getNexthopAsIPNet route) = Done nh ->
  lookup A link nh
    (mkWorld (snd (LinkByName A (Device route) (kernel w)))
             (trace w ++ [CLinkByName (Device route)])) = (Done None, w2) ->
  let t3 := trace w ++ [CLinkByName (Device route);
                        CRouteList link (ipFamily g);
                        CRouteReplace nh] in
  (forall e, fst (RouteReplace A nh (kernel w2)) = Some e ->
     replaceRoute A deviceMTU routeMTU route w =
       (Done (false,
              Some ("unable to add nexthop route: "
                    ++ ("unable to add L2 nexthop route: " ++ e))%string),
        mkWorld (snd (RouteReplace A nh (kernel w2))) t3))
  /\ (fst (RouteReplace A nh (kernel w2)) = None ->
      exists out k tail,
        replaceRoute A deviceMTU routeMTU route w =
          (out,
           mkWorld k
             (t3 ++ CRouteList link (ipFamily (net.IPNet_IP (Prefix route))) :: tail))
        /\ (tail = []
            \/ tail = [CRouteReplace (routeSpec deviceMTU routeMTU route link)])).
Proof.
  intros Hg Hl Hc Hk t3. split.
  - intros e He.
    exact (replaceRoute_nexthop_fails A deviceMTU routeMTU route g link nh w w2
             Hg Hl Hc Hk e He).
  - intros He.
    exact (replaceRoute_nexthop_installed A deviceMTU routeMTU route g link nh w w2
             Hg Hl Hc Hk He).
Qed.

(** Witness of C5: on a kernel that refuses every replace the call ends
    with the failed install of the on-link route; on a kernel that works
    the main-route step follows it. *)
Lemma nexthop_route_installed_first_witness :
  replaceRoute ex.noReplace ex.deviceMTU ex.routeMTU ex.route4 (ex.world ex.kernel0)
  = (Done (false,
           Some ("unable to add nexthop route: "
                 ++ ("unable to add L2 nexthop route: " ++ "operation not permitted"))%string),
     mkWorld ex.kernel0
       [CLinkByName "eth0"; CRouteList ex.eth0 netlink.FAMILY_V4;
        CRouteReplace ex.nexthop4])
  /\ exists out k tail,
       replaceRoute ex.sound ex.deviceMTU ex.routeMTU ex.route4 (ex.world ex.kernel0)
       = (out,
          mkWorld k
            ([CLinkByName "eth0"; CRouteList ex.eth0 netlink.FAMILY_V4;
              CRouteReplace ex.nexthop4]
             ++ CRouteList ex.eth0 netlink.FAMILY_V4 :: tail))
       /\ (tail = [] \/ tail = [CRouteReplace ex.request4]).
Proof.
  split.
  - exact (proj1 (nexthop_route_installed_first ex.noReplace ex.deviceMTU ex.routeMTU
                    ex.route4 ex.gw4 ex.eth0 ex.nexthop4 (ex.world ex.kernel0)
                    (mkWorld ex.kernel0
                       [CLinkByName "eth0"; CRouteList ex.eth0 netlink.FAMILY_V4])
                    eq_refl eq_refl eq_refl eq_refl)
             "operation not permitted"%string eq_refl).
  - exact (proj2 (nexthop_route_installed_first ex.sound ex.deviceMTU ex.routeMTU
                    ex.route4 ex.gw4 ex.eth0 ex.nexthop4 (ex.world ex.kernel0)
                    (mkWorld ex.kernel0
                       [CLinkByName "eth0"; CRouteList ex.eth0 netlink.FAMILY_V4])
                    eq_refl eq_refl eq_refl eq_refl)
             eq_refl).
Defined.

(** C4 as stated fails: on a kernel whose [RouteList] always fails,
    reconciliation of the sample route returns no error and installs both
    routes. *)
Lemma list_failure_not_surfaced :
  ~ listFailureSurfaced ex.noList ex.deviceMTU ex.routeMTU ex.route4
      (ex.world ex.kernel0).
Proof.
  intros H.
  destruct H as (changed & e & w' & E & _).
  - intros link fam k. eexists. reflexivity.
  - vm_compute in E. discriminate E.
Qed.

(** C4, amended. A failure of the device resolution, of an install and
    of the delete ends the call with that call as the last one and is
    returned to the caller: wrapped with context for the device resolution
    and for the install of the on-link route, as it is for the install of
    the main route and for the delete.  A failure of [RouteList] is not
    returned: [lookup] answers that there is no route, and the install of
    the on-link route is attempted next. *)
Theorem adapter_errors_fatal_except_list
    (A : Adapter) (deviceMTU routeMTU : Z) (route : Route) (w : World (kstate A)) :
  (forall e,
     fst (LinkByName A (Device route) (kernel w)) = Err e ->
     replaceRoute A deviceMTU routeMTU route w =
       (Done (false,
              Some ("unable to lookup interface " ++ Device route ++ ": " ++ e)%string),
        mkWorld (snd (LinkByName A (Device route) (kernel w)))
                (trace w ++ [CLinkByName (Device route)]))
     /\ deleteRoute A route w =
       (Done (Some ("unable to lookup interface " ++ Device route ++ ": " ++ e)%string),
        mkWorld (snd (LinkByName A (Device route) (kernel w)))
                (trace w ++ [CLinkByName (Device route)])))
  /\ (forall g link nh w2 e,
        Nexthop route = Some g ->
        fst (LinkByName A (Device route) (kernel w)) = Ok link ->
        createNexthopRoute link (getNexthopAsIPNet route) = Done nh ->
        lookup A link nh
          (mkWorld (snd (LinkByName A (Device route) (kernel w)))
                   (trace w ++ [CLinkByName (Device route)])) = (Done None, w2) ->
        fst (RouteReplace A nh (kernel w2)) = Some e ->
        replaceRoute A deviceMTU routeMTU route w =
          (Done (false,
                 Some ("unable to add nexthop route: "
                       ++ ("unable to add L2 nexthop route: " ++ e))%string),
           mkWorld (snd (RouteReplace A nh (kernel w2)))
                   (trace w ++ [CLinkByName (Device route);
                                CRouteList link (ipFamily g);
                                CRouteReplace nh])))
  /\ (forall link w2 w3 b e,
        fst (LinkByName A (Device route) (kernel w)) = Ok link ->
        replaceNexthopRoute A link (getNexthopAsIPNet route)
          (mkWorld (snd (LinkByName A (Device route) (kernel w)))
                   (trace w ++ [CLinkByName (Device route)])) = (Done (b, None), w2) ->
        lookup A link (routeSpec deviceMTU routeMTU route link) w2 = (Done None, w3) ->
        fst (RouteReplace A (routeSpec deviceMTU routeMTU route link) (kernel w3)) = Some e ->
        replaceRoute A deviceMTU routeMTU route w =
          (Done (false, Some e),
           mkWorld (snd (RouteReplace A (routeSpec deviceMTU routeMTU route link) (kernel w3)))
                   (trace w3 ++ [CRouteReplace (routeSpec deviceMTU routeMTU route link)])))
  /\ (forall link e,
        fst (LinkByName A (Device route) (kernel w)) = Ok link ->
        fst (RouteDel A (deleteSpec route link)
               (snd (LinkByName A (Device route) (kernel w)))) = Some e ->
        deleteRoute A route w =
          (Done (Some e),
           mkWorld (snd (RouteDel A (deleteSpec route link)
                           (snd (LinkByName A (Device route) (kernel w)))))
                   (trace w ++ [CLinkByName (Device route);
                                CRouteDel (deleteSpec route link)])))
  /\ (forall link r d e,
        netlink.Dst r = Some d ->
        fst (RouteList A link (ipFamily (net.IPNet_IP d)) (kernel w)) = Err e ->
        lookup A link r w =
          (Done None,
           mkWorld (snd (RouteList A link (ipFamily (net.IPNet_IP d)) (kernel w)))
                   (trace w ++ [CRouteList link (ipFamily (net.IPNet_IP d))])))
  /\ (forall g link nh e,
        Nexthop route = Some g ->
        fst (LinkByName A (Device route) (kernel w)) = Ok link ->
        createNexthopRoute link (getNexthopAsIPNet route) = Done nh ->
        fst (RouteList A link (ipFamily g)
               (snd (LinkByName A (Device route) (kernel w)))) = Err e ->
        exists out k rest,
          replaceRoute A deviceMTU routeMTU route w =
            (out,
             mkWorld k
               ((trace w ++ [CLinkByName (Device route);
                             CRouteList link (ipFamily g);
                             CRouteReplace nh]) ++ rest))).
Proof.
  split; [|split; [|split; [|split; [|split]]]].
  - intros e He. split.
    + exact (replaceRoute_no_link A deviceMTU routeMTU route e w He).
    + exact (deleteRoute_no_link A route e w He).
  - intros g link nh w2 e Hg Hl Hc Hk He.
    exact (replaceRoute_nexthop_fails A deviceMTU routeMTU route g link nh w w2
             Hg Hl Hc Hk e He).
  - intros link w2 w3 b e Hl Hn Hk He.
    exact (replaceRoute_install_fails A deviceMTU routeMTU route link w w2 w3 b e
             Hl Hn Hk He).
  - intros link e Hl He.
    rewrite (deleteRoute_run A route link w Hl). cbv zeta. rewrite He. reflexivity.
  - intros link r d e Hd He. exact (lookup_list_fails A link r d w e Hd He).
  - intros g link nh e Hg Hl Hc He.
    destruct (createNexthopRoute_Dst route g link nh Hg Hc) as (d & Hd & Hip).
    set (w1 := mkWorld (snd (LinkByName A (Device route) (kernel w)))
                       (trace w ++ [CLinkByName (Device route)])).
    assert (Hk : lookup A link nh w1 =
                 (Done None,
                  mkWorld (snd (RouteList A link (ipFamily (net.IPNet_IP d)) (kernel w1)))
                          (trace w1 ++ [CRouteList link (ipFamily (net.IPNet_IP d))]))).
    { apply (lookup_list_fails A link nh d w1 e Hd). rewrite Hip. exact He. }
    destruct (fst (RouteReplace A nh
                     (snd (RouteList A link (ipFamily (net.IPNet_IP d)) (kernel w1)))))
      as [e'|] eqn:Er.
    + rewrite (replaceRoute_nexthop_fails A deviceMTU routeMTU route g link nh w _
                 Hg Hl Hc Hk e' Er).
      eexists. eexists. exists []. rewrite app_nil_r. reflexivity.
    + destruct (replaceRoute_nexthop_installed A deviceMTU routeMTU route g link nh w _
                  Hg Hl Hc Hk Er) as (out & k & tail & E & _).
      exists out, k. eexists. exact E.
Qed.

(** Witness of C4 (amended): an unknown device, a refused install, a
    refused delete, and a failing listing followed by both installs. *)
Lemma adapter_errors_fatal_except_list_witness :
  replaceRoute ex.sound ex.deviceMTU ex.routeMTU ex.route4 (ex.world ex.kernelNoDev)
  = (Done (false, Some "unable to lookup interface eth0: Link not found"%string),
     mkWorld ex.kernelNoDev [CLinkByName "eth0"])
  /\ replaceRoute ex.noReplace ex.deviceMTU ex.routeMTU ex.route4 (ex.world ex.kernel0)
     = (Done (false,
              Some ("unable to add nexthop route: "
                    ++ ("unable to add L2 nexthop route: " ++ "operation not permitted"))%string),
        mkWorld ex.kernel0
          [CLinkByName "eth0"; CRouteList ex.eth0 netlink.FAMILY_V4;
           CRouteReplace ex.nexthop4])
  /\ deleteRoute ex.noDel ex.route4 (ex.world ex.kernel4)
     = (Done (Some "no such process"%string),
        mkWorld ex.kernel4
          [CLinkByName "eth0"; CRouteDel (deleteSpec ex.route4 ex.eth0)])
  /\ exists out k rest,
       replaceRoute ex.noList ex.deviceMTU ex.routeMTU ex.route4 (ex.world ex.kernel0)
       = (out,
          mkWorld k
            ([CLinkByName "eth0"; CRouteList ex.eth0 netlink.FAMILY_V4;
              CRouteReplace ex.nexthop4] ++ rest)).
Proof.
  split; [|split; [|split]].
  - exact (proj1 (proj1 (adapter_errors_fatal_except_list ex.sound ex.deviceMTU
                           ex.routeMTU ex.route4 (ex.world ex.kernelNoDev))
                    "Link not found"%string eq_refl)).
  - exact (proj1 (proj2 (adapter_errors_fatal_except_list ex.noReplace ex.deviceMTU
                           ex.routeMTU ex.route4 (ex.world ex.kernel0)))
             ex.gw4 ex.eth0 ex.nexthop4
             (mkWorld ex.kernel0
                [CLinkByName "eth0"; CRouteList ex.eth0 netlink.FAMILY_V4])
             "operation not permitted"%string eq_refl eq_refl eq_refl eq_refl eq_refl).
  - exact (proj1 (proj2 (proj2 (proj2
             (adapter_errors_fatal_except_list ex.noDel ex.deviceMTU
                ex.routeMTU ex.route4 (ex.world ex.kernel4)))))
             ex.eth0 "no such process"%string eq_refl eq_refl).
  - exact (proj2 (proj2 (proj2 (proj2 (proj2
             (adapter_errors_fatal_except_list ex.noList ex.deviceMTU
                ex.routeMTU ex.route4 (ex.world ex.kernel0))))))
             ex.gw4 ex.eth0 ex.nexthop4 "dump interrupted"%string
             eq_refl eq_refl eq_refl eq_refl).
Defined.

(** ** Idempotence *)

(** Two requests with one key are equivalent to the same routes. *)
Lemma ipnetEqb_eq (a b : option net.IPNet) : ipnetEqb a b = true -> a = b.
Proof.
  destruct a as [[ai am]|], b as [[bi bm]|]; simpl; try discriminate;
    [|reflexivity].
  rewrite andb_true_iff, !netFacts.bytesEqual_eq. intros [-> ->]. reflexivity.
Qed.

Lemma sameKey_sameRoute (x q : netlink.Route) (d : net.IPNet) :
  sameKey x q = true -> netlink.Dst q = Some d ->
  netlink.Dst x = Some d /\ sameRoute x q d d = true.
Proof.
  unfold sameKey. rewrite !andb_true_iff, !Z.eqb_eq, netFacts.bytesEqual_eq.
  intros [[[Hd Hi] Hgw] Hs] Hq. apply ipnetEqb_eq in Hd.
  split; [congruence|].
  apply sameRoute_true. rewrite Hgw, !netFacts.Equal_refl. tauto.
Qed.

Lemma Equal_ipFamily (a b : net.IP) :
  net.Equal a b = true -> ipFamily a = ipFamily b.
Proof.
  intros H. unfold ipFamily. rewrite (netFacts.Equal_To4_isNil a b H). reflexivity.
Qed.

(** The in-memory kernel without faults obeys the contract. *)
Lemma fake_contract : KernelContract (fake.adapter fake.noFaults).
Proof.
  constructor; cbn [fake.adapter LinkByName RouteList RouteReplace kstate].
  - intros dev k. unfold fake.linkByName.
    destruct (fake.findLink dev (fake.links k)); reflexivity.
  - intros link fam k. reflexivity.
  - intros link fam k. eexists. reflexivity.
  - intros r k. reflexivity.
  - intros r k dev. unfold fake.linkByName, fake.routeReplace. cbn.
    destruct (fake.findLink dev (fake.links k)); reflexivity.
  - intros r k d link rs Hd Hi. unfold fake.routeList, fake.routeReplace.
    cbn. intros E. inversion E; subst; clear E.
    apply filter_In. split.
    + apply in_or_app. right. left. reflexivity.
    + unfold fake.familyOf. rewrite Hd. change (netlink.Attrs link) with link in Hi.
      rewrite Hi, !Z.eqb_refl. reflexivity.
  - intros r k link fam rs rs' x. unfold fake.routeList, fake.routeReplace. cbn.
    intros E E'. inversion E; inversion E'; subst; clear E E'.
    rewrite !filter_In. intros [Hin Hp] Hk. split; [|exact Hp].
    apply in_or_app. left. apply filter_In. split; [exact Hin|].
    rewrite Hk. reflexivity.
Qed.

Section Idempotence.

Variable A : Adapter.
Hypothesis contract : KernelContract A.
Variables deviceMTU routeMTU : Z.

(** On such a kernel [lookup] leaves the kernel as it is and runs the
    loop on the listing. *)
Lemma lookup_contract (link : netlink.Link) (r : netlink.Route) (d : net.IPNet)
      (w : World (kstate A)) :
  netlink.Dst r = Some d ->
  exists rs found,
    fst (RouteList A link (ipFamily (net.IPNet_IP d)) (kernel w)) = Ok rs
    /\ lookupRange r rs = Done found
    /\ lookup A link r w =
       (Done found,
        mkWorld (kernel w) (trace w ++ [CRouteList link (ipFamily (net.IPNet_IP d))])).
Proof.
  intros Hd.
  destruct (list_ok A contract link (ipFamily (net.IPNet_IP d)) (kernel w)) as [rs Hrs].
  destruct (lookupRange_total r d Hd rs) as [found Hf].
  exists rs, found. split; [exact Hrs|]. split; [exact Hf|].
  rewrite (lookup_run A link r d w Hd). cbv zeta.
  rewrite Hrs, Hf, (list_pure A contract). reflexivity.
Qed.

(** After a request is installed, the loop finds it in the listing of
    its device and family. *)
Lemma found_after_replace (link : netlink.Link) (r : netlink.Route) (d : net.IPNet)
      (k : kstate A) (rs : list netlink.Route) :
  netlink.Dst r = Some d ->
  netlink.Index (netlink.Attrs link) = netlink.LinkIndex r ->
  fst (RouteList A link (ipFamily (net.IPNet_IP d)) (snd (RouteReplace A r k))) = Ok rs ->
  exists y, lookupRange r rs = Done (Some y).
Proof.
  intros Hd Hi Hrs.
  apply (lookupRange_found r d Hd rs r d).
  - exact (replace_lists A contract r k d link rs Hd Hi Hrs).
  - exact Hd.
  - apply sameRoute_refl.
Qed.

(** A listed route equivalent to [r] is still listed after another
    request [q] is installed, when the loop found nothing for [q]
    before: the route has another key than [q], or it would have been
    found for [q] as well. *)
Lemma found_survives_replace (link : netlink.Link) (r q : netlink.Route)
      (d dq : net.IPNet) (k : kstate A)
      (rs rsq rs' : list netlink.Route) (x : netlink.Route) (xd : net.IPNet) :
  netlink.Dst r = Some d -> netlink.Dst q = Some dq ->
  fst (RouteList A link (ipFamily (net.IPNet_IP d)) k) = Ok rs ->
  In x rs -> netlink.Dst x = Some xd -> sameRoute x r xd d = true ->
  fst (RouteList A link (ipFamily (net.IPNet_IP dq)) k) = Ok rsq ->
  lookupRange q rsq = Done None ->
  fst (RouteList A link (ipFamily (net.IPNet_IP d)) (snd (RouteReplace A q k))) = Ok rs' ->
  exists y, lookupRange r rs' = Done (Some y).
Proof.
  intros Hd Hq Hrs Hin Hx Hs Hrsq Hnone Hrs'.
  apply (lookupRange_found r d Hd rs' x xd); [|exact Hx|exact Hs].
  apply (replace_frame A contract q k link (ipFamily (net.IPNet_IP d)) rs rs' x
           Hrs Hrs' Hin).
  destruct (sameKey x q) eqn:Ek; [exfalso|reflexivity].
  destruct (sameKey_sameRoute x q dq Ek Hq) as [Hxq Hsq].
  assert (Hxd : xd = dq) by congruence. subst xd.
  assert (Hfam : ipFamily (net.IPNet_IP dq) = ipFamily (net.IPNet_IP d)).
  { apply Equal_ipFamily. apply sameRoute_true in Hs. tauto. }
  rewrite Hfam, Hrs in Hrsq. inversion Hrsq; subst rsq.
  rewrite (lookupRange_None q dq Hq rs Hnone x dq Hin Hx) in Hsq. discriminate.
Qed.

Section Pass.

Variables (route : Route) (g : net.IP) (link : netlink.Link) (nh : netlink.Route).
Hypothesis Hg : Nexthop route = Some g.
Hypothesis Hc : createNexthopRoute link (getNexthopAsIPNet route) = Done nh.

(** One reconciliation pass on a kernel that obeys the contract, in
    terms of what the two listings hold. *)
Lemma replaceRoute_pass (k : kstate A) (t : list Call) :
  fst (LinkByName A (Device route) k) = Ok link ->
  let rq := routeSpec deviceMTU routeMTU route link in
  let famN := ipFamily g in
  let famM := ipFamily (net.IPNet_IP (Prefix route)) in
  exists rs0 found0 rs1 found1,
    fst (RouteList A link famN k) = Ok rs0
    /\ lookupRange nh rs0 = Done found0
    /\ let kmid := match found0 with
                   | Some _ => k
                   | None => snd (RouteReplace A nh k)
                   end in
       fst (RouteList A link famM kmid) = Ok rs1
       /\ lookupRange rq rs1 = Done found1
       /\ replaceRoute A deviceMTU routeMTU route (mkWorld k t) =
          (Done (match found1 with Some _ => false | None => true end, None),
           mkWorld (match found1 with
                    | Some _ => kmid
                    | None => snd (RouteReplace A rq kmid)
                    end)
                   (t ++ [CLinkByName (Device route); CRouteList link famN]
                      ++ match found0 with Some _ => [] | None => [CRouteReplace nh] end
                      ++ [CRouteList link famM]
                      ++ match found1 with Some _ => [] | None => [CRouteReplace rq] end)).
Proof.
  intros Hl rq famN famM.
  destruct (createNexthopRoute_Dst route g link nh Hg Hc) as (d & Hd & Hip).
  assert (Hdq : netlink.Dst rq = Some (Prefix route)) by reflexivity.
  set (w1 := mkWorld k (t ++ [CLinkByName (Device route)])).
  destruct (lookup_contract link nh d w1 Hd) as (rs0 & found0 & Hrs0 & Hf0 & Hk0).
  rewrite Hip in Hrs0, Hk0. fold famN in Hrs0, Hk0.
  exists rs0, found0.
  set (kmid := match found0 with Some _ => k | None => snd (RouteReplace A nh k) end).
  set (w2 := mkWorld kmid
               ((t ++ [CLinkByName (Device route)]) ++ [CRouteList link famN]
                  ++ match found0 with Some _ => [] | None => [CRouteReplace nh] end)).
  assert (Hn : exists b,
             replaceNexthopRoute A link (getNexthopAsIPNet route) w1
             = (Done (b, None), w2)).
  { rewrite (replaceNexthopRoute_run A link _ nh w1 Hc), Hk0.
    unfold w2, kmid. destruct found0 as [x0|].
    - exists false. rewrite app_nil_r. reflexivity.
    - exists true. cbn [kernel trace]. rewrite (replace_ok A contract).
      rewrite <- app_assoc. reflexivity. }
  destruct Hn as [b Hn].
  destruct (lookup_contract link rq (Prefix route) w2 Hdq)
    as (rs1 & found1 & Hrs1 & Hf1 & Hk1).
  fold famM in Hrs1, Hk1.
  exists rs1, found1.
  split; [exact Hrs0|]. split; [exact Hf0|]. cbv zeta.
  split; [exact Hrs1|]. split; [exact Hf1|].
  assert (Hl' : fst (LinkByName A (Device route) (kernel (mkWorld k t))) = Ok link)
    by exact Hl.
  rewrite (replaceRoute_run A deviceMTU routeMTU route link (mkWorld k t) Hl').
  cbn [kernel trace]. rewrite (link_pure A contract). fold w1. rewrite Hn.
  cbv zeta. fold rq. rewrite Hk1.
  destruct found1 as [x1|].
  - unfold w2. cbn [kernel trace]. rewrite app_nil_r, <- !app_assoc.
    reflexivity.
  - unfold w2. cbn [kernel trace]. rewrite (replace_ok A contract).
    rewrite <- !app_assoc. reflexivity.
Qed.

End Pass.

End Idempotence.

Lemma createNexthopRoute_LinkIndex (link : netlink.Link) (routerNet : option net.IPNet)
      (nh : netlink.Route) :
  createNexthopRoute link routerNet = Done nh ->
  netlink.Index (netlink.Attrs link) = netlink.LinkIndex nh.
Proof.
  destruct routerNet as [rn|]; simpl; [|discriminate].
  intros E. inversion E. reflexivity.
Qed.

(** C1 as stated fails: when the two routes of the sample route are
    installed already, the first reconciliation reports no change. *)
Lemma first_pass_may_be_unchanged :
  ~ changedThenUnchanged ex.sound ex.deviceMTU ex.routeMTU ex.route4 ex.kernel4.
Proof.
  intros (w1 & w2 & E1 & _). vm_compute in E1. discriminate E1.
Qed.

(** C1, amended. Idempotence: for a route with a gateway whose device
    resolves, on a kernel that obeys the adapter contract and is changed by
    nobody else, the first reconciliation succeeds and reports a change
    exactly when it installed the main request, that is when no route
    equivalent to it was listed; the second reconciliation, on the kernel
    the first one left, succeeds, reports no change, leaves the kernel as
    it is and issues no [RouteReplace].  The exported [ReplaceRoute]
    returns no error both times. *)
Theorem reconcile_twice
    (A : Adapter) (deviceMTU routeMTU : Z) (route : Route) (g : net.IP)
    (link : netlink.Link) (k0 : kstate A) :
  KernelContract A ->
  Nexthop route = Some g ->
  fst (LinkByName A (Device route) k0) = Ok link ->
  let rq := routeSpec deviceMTU routeMTU route link in
  let famN := ipFamily g in
  let famM := ipFamily (net.IPNet_IP (Prefix route)) in
  exists nh (nhChanged changed : bool) (k1 : kstate A) (routes : list netlink.Route),
    createNexthopRoute link (getNexthopAsIPNet route) = Done nh
    /\ replaceRoute A deviceMTU routeMTU route (mkWorld k0 []) =
       (Done (changed, None),
        mkWorld k1
          ([CLinkByName (Device route); CRouteList link famN]
             ++ (if nhChanged then [CRouteReplace nh] else [])
             ++ [CRouteList link famM]
             ++ (if changed then [CRouteReplace rq] else [])))
    /\ fst (RouteList A link famM
              (if nhChanged then snd (RouteReplace A nh k0) else k0)) = Ok routes
    /\ (changed = false <-> exists x, In x routes /\ equivalent x rq)
    /\ replaceRoute A deviceMTU routeMTU route (mkWorld k1 []) =
       (Done (false, None),
        mkWorld k1 [CLinkByName (Device route); CRouteList link famN;
                    CRouteList link famM])
    /\ fst (ReplaceRoute A deviceMTU routeMTU route (mkWorld k0 [])) = Done None
    /\ fst (ReplaceRoute A deviceMTU routeMTU route (mkWorld k1 [])) = Done None.
Proof.
  intros contract Hg Hl rq famN famM.
  assert (Hc : exists nh, createNexthopRoute link (getNexthopAsIPNet route) = Done nh).
  { rewrite (getNexthopAsIPNet_Some route g Hg). eexists. reflexivity. }
  destruct Hc as [nh Hc].
  destruct (createNexthopRoute_Dst route g link nh Hg Hc) as (d & Hd & Hip).
  pose proof (createNexthopRoute_LinkIndex link _ nh Hc) as Hidx.
  assert (Hdq : netlink.Dst rq = Some (Prefix route)) by reflexivity.
  assert (Hidxq : netlink.Index (netlink.Attrs link) = netlink.LinkIndex rq)
    by reflexivity.
  (* first pass *)
  destruct (replaceRoute_pass A contract deviceMTU routeMTU route g link nh Hg Hc k0 [] Hl)
    as (rs0 & found0 & rs1 & found1 & Hrs0 & Hf0 & Hrs1 & Hf1 & E1).
  fold rq famN famM in Hrs0, Hrs1, Hf1, E1.
  set (kmid := match found0 with Some _ => k0 | None => snd (RouteReplace A nh k0) end)
    in *.
  set (k1 := match found1 with Some _ => kmid | None => snd (RouteReplace A rq kmid) end)
    in *.
  assert (Hlmid : fst (LinkByName A (Device route) kmid) = Ok link).
  { unfold kmid. destruct found0; [exact Hl|].
    rewrite (replace_links A contract). exact Hl. }
  assert (Hl1 : fst (LinkByName A (Device route) k1) = Ok link).
  { unfold k1. destruct found1; [exact Hlmid|].
    rewrite (replace_links A contract). exact Hlmid. }
  (* an equivalent on-link route is listed before the main-route step *)
  assert (HN : exists rsN x xd,
             fst (RouteList A link (ipFamily (net.IPNet_IP d)) kmid) = Ok rsN
             /\ In x rsN /\ netlink.Dst x = Some xd /\ sameRoute x nh xd d = true).
  { unfold kmid. destruct found0 as [x0|].
    - destruct (lookupRange_Some nh d Hd rs0 x0 Hf0) as [Hin (xd & Hx & Hs)].
      exists rs0, x0, xd. rewrite Hip. tauto.
    - destruct (list_ok A contract link (ipFamily (net.IPNet_IP d))
                  (snd (RouteReplace A nh k0))) as [rsN HrsN].
      exists rsN, nh, d. split; [exact HrsN|]. split; [|split].
      + exact (replace_lists A contract nh k0 d link rsN Hd Hidx HrsN).
      + exact Hd.
      + apply sameRoute_refl. }
  destruct HN as (rsN & x & xd & HrsN & HinN & HxN & HsN).
  (* second pass *)
  destruct (replaceRoute_pass A contract deviceMTU routeMTU route g link nh Hg Hc k1 [] Hl1)
    as (rs0' & found0' & rs1' & found1' & Hrs0' & Hf0' & Hrs1' & Hf1' & E2).
  fold rq famN famM in Hrs0', Hrs1', Hf1', E2.
  assert (H0' : exists y, found0' = Some y).
  { assert (H : exists y, lookupRange nh rs0' = Done (Some y)).
    { unfold famN in Hrs0'. rewrite <- Hip in Hrs0'. unfold k1 in Hrs0'.
      destruct found1 as [x1|].
      - rewrite HrsN in Hrs0'. inversion Hrs0'; subst rs0'.
        exact (lookupRange_found nh d Hd rsN x xd HinN HxN HsN).
      - exact (found_survives_replace A contract link nh rq d (Prefix route) kmid
                 rsN rs1 rs0' x xd Hd Hdq HrsN HinN HxN HsN Hrs1 Hf1 Hrs0'). }
    destruct H as [y Hy]. exists y. congruence. }
  destruct H0' as [y0 ->].
  assert (H1' : exists y, found1' = Some y).
  { assert (H : exists y, lookupRange rq rs1' = Done (Some y)).
    { unfold k1 in Hrs1'. destruct found1 as [x1|].
      - unfold famM in Hrs1, Hrs1'. rewrite Hrs1 in Hrs1'. inversion Hrs1'; subst rs1'.
        exists x1. exact Hf1.
      - exact (found_after_replace A contract link rq (Prefix route) kmid rs1'
                 Hdq Hidxq Hrs1'). }
    destruct H as [y Hy]. exists y. congruence. }
  destruct H1' as [y1 ->].
  exists nh, (match found0 with Some _ => false | None => true end),
         (match found1 with Some _ => false | None => true end), k1, rs1.
  split; [exact Hc|]. split; [|split; [|split; [|split; [|split]]]].
  - rewrite E1. cbn [app]. destruct found0, found1; reflexivity.
  - unfold kmid in Hrs1. destruct found0; exact Hrs1.
  - pose proof (lookupRange_iff rq (Prefix route) Hdq rs1 found1 Hf1) as Hiff.
    rewrite <- Hiff. destruct found1; split; congruence.
  - rewrite E2. reflexivity.
  - unfold ReplaceRoute, bind. rewrite E1. reflexivity.
  - unfold ReplaceRoute, bind. rewrite E2. reflexivity.
Qed.

(** Witness of C1 (amended), on the in-memory kernel with the device and
    no route: both routes are installed by the first pass, none by the
    second. *)
Lemma reconcile_twice_witness :
  exists nh (nhChanged changed : bool) k1 routes,
    createNexthopRoute ex.eth0 (getNexthopAsIPNet ex.route4) = Done nh
    /\ replaceRoute ex.sound ex.deviceMTU ex.routeMTU ex.route4 (ex.world ex.kernel0) =
       (Done (changed, None),
        mkWorld k1
          ([CLinkByName "eth0"; CRouteList ex.eth0 netlink.FAMILY_V4]
             ++ (if nhChanged then [CRouteReplace nh] else [])
             ++ [CRouteList ex.eth0 netlink.FAMILY_V4]
             ++ (if changed then [CRouteReplace ex.request4] else [])))
    /\ fst (RouteList ex.sound ex.eth0 netlink.FAMILY_V4
              (if nhChanged then snd (RouteReplace ex.sound nh ex.kernel0)
               else ex.kernel0)) = Ok routes
    /\ (changed = false <-> exists x, In x routes /\ equivalent x ex.request4)
    /\ replaceRoute ex.sound ex.deviceMTU ex.routeMTU ex.route4 (mkWorld k1 []) =
       (Done (false, None),
        mkWorld k1 [CLinkByName "eth0"; CRouteList ex.eth0 netlink.FAMILY_V4;
                    CRouteList ex.eth0 netlink.FAMILY_V4])
    /\ fst (ReplaceRoute ex.sound ex.deviceMTU ex.routeMTU ex.route4
              (ex.world ex.kernel0)) = Done None
    /\ fst (ReplaceRoute ex.sound ex.deviceMTU ex.routeMTU ex.route4
              (mkWorld k1 [])) = Done None.
Proof.
  exact (reconcile_twice ex.sound ex.deviceMTU ex.routeMTU ex.route4 ex.gw4 ex.eth0
           ex.kernel0 fake_contract eq_refl eq_refl).
Defined.

(** * Further properties of the route code *)

(** ** More on the equivalence check *)

Module equalFacts.
Import net.

Lemma bytesEqual_sym (a b : list Z) : bytesEqual a b = bytesEqual b a.
Proof.
  revert b; induction a as [|x a IH]; intros [|y b]; simpl; try reflexivity.
  rewrite Z.eqb_sym, IH. reflexivity.
Qed.

Lemma length16_split (b : IP) :
  length b = 16%nat -> b = firstn 12 b ++ skipn 12 b.
Proof. intros _. symmetry. apply firstn_skipn. Qed.

(** [Equal] identifies an address with itself and an IPv4 address
    with its IPv4-in-IPv6 form, and nothing else. *)
Lemma Equal_spec (a b : IP) :
  Equal a b = true <->
  (a = b
   \/ (length a = 4%nat /\ b = v4InV6Prefix ++ a)
   \/ (length b = 4%nat /\ a = v4InV6Prefix ++ b)).
Proof.
  unfold Equal, IPv4len, IPv6len.
  destruct (Nat.eqb (length a) (length b)) eqn:EL.
  - apply Nat.eqb_eq in EL. rewrite netFacts.bytesEqual_eq. split.
    + intros ->. left. reflexivity.
    + intros [H | [[L H] | [L H]]]; [exact H | exfalso | exfalso].
      * subst b. rewrite length_app in EL. simpl in EL. lia.
      * subst a. rewrite length_app in EL. simpl in EL. lia.
  - apply Nat.eqb_neq in EL.
    destruct (Nat.eqb (length a) 4 && Nat.eqb (length b) 16) eqn:E1.
    + apply andb_true_iff in E1. destruct E1 as [La Lb].
      apply Nat.eqb_eq in La, Lb.
      rewrite andb_true_iff, !netFacts.bytesEqual_eq. split.
      * intros [H1 H2]. right. left. split; [exact La|].
        rewrite (length16_split b Lb), H1, <- H2. reflexivity.
      * intros [H | [[L H] | [L H]]].
        -- subst b. lia.
        -- subst b. split.
           ++ reflexivity.
           ++ reflexivity.
        -- lia.
    + destruct (Nat.eqb (length a) 16 && Nat.eqb (length b) 4) eqn:E2.
      * apply andb_true_iff in E2. destruct E2 as [La Lb].
        apply Nat.eqb_eq in La, Lb.
        rewrite andb_true_iff, !netFacts.bytesEqual_eq. split.
        -- intros [H1 H2]. right. right. split; [exact Lb|].
           rewrite (length16_split a La), H1, H2. reflexivity.
        -- intros [H | [[L H] | [L H]]].
           ++ subst b. lia.
           ++ lia.
           ++ subst a. split.
              ** reflexivity.
              ** reflexivity.
      * split; [discriminate|].
        apply andb_false_iff in E1, E2.
        intros [H | [[L H] | [L H]]].
        -- subst b. contradiction EL. reflexivity.
        -- subst b. rewrite length_app in E1. simpl in E1.
           rewrite L in E1. simpl in E1. destruct E1; discriminate.
        -- subst a. rewrite length_app in E2. simpl in E2.
           rewrite L in E2. simpl in E2. destruct E2; discriminate.
Qed.

Lemma Equal_sym (a b : IP) : Equal a b = Equal b a.
Proof.
  destruct (Equal a b) eqn:E1, (Equal b a) eqn:E2; try reflexivity.
  - apply Equal_spec in E1. assert (H : Equal b a = true).
    { apply Equal_spec. destruct E1 as [H | [H | H]]; auto. }
    congruence.
  - apply Equal_spec in E2. assert (H : Equal a b = true).
    { apply Equal_spec. destruct E2 as [H | [H | H]]; auto. }
    congruence.
Qed.

Lemma Equal_trans (a b c : IP) :
  Equal a b = true -> Equal b c = true -> Equal a c = true.
Proof.
  rewrite !Equal_spec.
  intros [H1 | [[L1 H1] | [L1 H1]]] [H2 | [[L2 H2] | [L2 H2]]]; subst; auto.
  - rewrite length_app in L2. simpl in L2. lia.
  - left. apply app_inv_head in H2. exact H2.
  - rewrite length_app in L1. simpl in L1. lia.
Qed.

End equalFacts.

(** The loop returns the first listed route that passes the test. *)
Lemma lookupRange_first (route : netlink.Route) (d : net.IPNet)
      (rs : list netlink.Route) (x : netlink.Route) :
  netlink.Dst route = Some d ->
  lookupRange route rs = Done (Some x) ->
  exists l1 l2,
    rs = l1 ++ x :: l2
    /\ forall y yd, In y l1 -> netlink.Dst y = Some yd -> sameRoute y route yd d = false.
Proof.
  intros Hd. induction rs as [|r rs IH]; simpl; [discriminate|].
  rewrite Hd. destruct (netlink.Dst r) as [rd|] eqn:Er.
  - destruct (sameRoute r route rd d) eqn:Es.
    + intros E. inversion E; subst. exists [], rs. split; [reflexivity|].
      intros y yd [].
    + intros E. destruct (IH E) as (l1 & l2 & -> & H).
      exists (r :: l1), l2. split; [reflexivity|].
      intros y yd [<-|Hin] Hy.
      * rewrite Er in Hy. inversion Hy; subst. exact Es.
      * exact (H y yd Hin Hy).
  - intros E. destruct (IH E) as (l1 & l2 & -> & H).
    exists (r :: l1), l2. split; [reflexivity|].
    intros y yd [<-|Hin] Hy.
    + rewrite Er in Hy. discriminate.
    + exact (H y yd Hin Hy).
Qed.

(** X1. [lookup] returns the first equivalent route of the listing: the
    route it returns is equivalent to the desired one, and no route listed
    before it is. *)
Theorem lookup_returns_first_equivalent
    (A : Adapter) (link : netlink.Link) (route : netlink.Route) (d : net.IPNet)
    (w w' : World (kstate A)) (rs : list netlink.Route) (x : netlink.Route) :
  netlink.Dst route = Some d ->
  fst (RouteList A link (ipFamily (net.IPNet_IP d)) (kernel w)) = Ok rs ->
  lookup A link route w = (Done (Some x), w') ->
  exists l1 l2,
    rs = l1 ++ x :: l2
    /\ equivalent x route
    /\ forall y, In y l1 -> ~ equivalent y route.
Proof.
  intros Hd Hl Hk.
  rewrite (lookup_run A link route d w Hd) in Hk. cbv zeta in Hk.
  rewrite Hl in Hk. inversion Hk as [[E Hw]]. clear Hk Hw.
  destruct (lookupRange_first route d rs x Hd E) as (l1 & l2 & Hrs & Hbefore).
  exists l1, l2. split; [exact Hrs|]. split.
  - destruct (lookupRange_Some route d Hd rs x E) as [_ (xd & Hx & Hs)].
    apply (sameRoute_equivalent x route xd d Hx Hd). exact Hs.
  - intros y Hin Heq. destruct Heq as (yd & d' & Hy & Hd' & H).
    assert (Hs : sameRoute y route yd d = true).
    { apply (sameRoute_equivalent y route yd d Hy Hd). exists yd, d'. tauto. }
    rewrite (Hbefore y yd Hin Hy) in Hs. discriminate.
Qed.

Lemma lookup_returns_first_equivalent_witness :
  exists l1 l2,
    [ex.nexthop4; ex.request4] = l1 ++ ex.request4 :: l2
    /\ equivalent ex.request4 ex.request4
    /\ forall y, In y l1 -> ~ equivalent y ex.request4.
Proof.
  exact (lookup_returns_first_equivalent ex.sound ex.eth0 ex.request4 ex.prefix4
           (ex.world ex.kernel4)
           (mkWorld ex.kernel4 [CRouteList ex.eth0 netlink.FAMILY_V4])
           [ex.nexthop4; ex.request4] ex.request4 eq_refl eq_refl eq_refl).
Defined.

Lemma sameRoute_sameFilter (x r r' : netlink.Route) (xd d : net.IPNet) :
  sameFilter r r' -> sameRoute x r xd d = sameRoute x r' xd d.
Proof.
  intros (_ & Hi & Hs & Hg). unfold sameRoute. rewrite Hi, Hs, Hg. reflexivity.
Qed.

Lemma lookupRange_sameFilter (r r' : netlink.Route) (rs : list netlink.Route) :
  sameFilter r r' -> lookupRange r rs = lookupRange r' rs.
Proof.
  intros H. pose proof H as (Hd & _).
  induction rs as [|x rs IH]; simpl; [reflexivity|].
  rewrite <- Hd.
  destruct (netlink.Dst x) as [xd|], (netlink.Dst r) as [d|]; try exact IH;
    [|reflexivity].
  rewrite (sameRoute_sameFilter x r r' xd d H), IH. reflexivity.
Qed.

(** X2. [lookup] reads only the destination, the device index, the scope
    and the gateway of its filter: two filters that agree on these four
    fields, whatever their source address and MTU, get the same answer and
    the same call. *)
Theorem lookup_reads_four_fields
    (A : Adapter) (link : netlink.Link) (r r' : netlink.Route)
    (w : World (kstate A)) :
  sameFilter r r' -> lookup A link r w = lookup A link r' w.
Proof.
  intros H. pose proof H as (Hd & _).
  unfold lookup. rewrite <- Hd. destruct (netlink.Dst r) as [d|]; [|reflexivity].
  unfold bind, netlink_RouteList.
  destruct (fst (RouteList A link (ipFamily (net.IPNet_IP d)) (kernel w)));
    [|reflexivity].
  rewrite (lookupRange_sameFilter r r' a H). reflexivity.
Qed.

(** Witness of X2: the request of the sample route and the same request
    with another source address and MTU. *)
Lemma lookup_reads_four_fields_witness :
  lookup ex.sound ex.eth0 ex.request4 (ex.world ex.kernel4)
  = lookup ex.sound ex.eth0
      (netlink.mkRoute 3 0 (Some ex.prefix4) [10; 9; 9; 9] ex.gw4 9000)
      (ex.world ex.kernel4).
Proof.
  apply (lookup_reads_four_fields ex.sound ex.eth0 ex.request4
           (netlink.mkRoute 3 0 (Some ex.prefix4) [10; 9; 9; 9] ex.gw4 9000)).
  repeat split.
Defined.

(** X3. The test of [lookup] is an equivalence on routes with a
    destination: it is reflexive, symmetric and transitive. *)
Theorem equivalent_is_equivalence :
  (forall r d, netlink.Dst r = Some d -> equivalent r r)
  /\ (forall r s, equivalent r s -> equivalent s r)
  /\ (forall r s t, equivalent r s -> equivalent s t -> equivalent r t).
Proof.
  split; [|split].
  - intros r d Hd. apply (sameRoute_equivalent r r d d Hd Hd). apply sameRoute_refl.
  - intros r s (rd & sd & Hr & Hs & H1 & H2 & H3 & H4 & H5 & H6).
    exists sd, rd. repeat split; try congruence.
    + rewrite equalFacts.Equal_sym. exact H3.
    + rewrite equalFacts.Equal_sym. exact H4.
  - intros r s t (rd & sd & Hr & Hs & H1 & H2 & H3 & H4 & H5 & H6)
           (sd' & td & Hs' & Ht & G1 & G2 & G3 & G4 & G5 & G6).
    assert (sd' = sd) by congruence. subst sd'.
    exists rd, td. repeat split; try congruence.
    + exact (equalFacts.Equal_trans _ _ _ H3 G3).
    + exact (equalFacts.Equal_trans _ _ _ H4 G4).
Qed.

Lemma equivalent_is_equivalence_witness :
  equivalent ex.request4 ex.request4
  /\ equivalent ex.request4
       (netlink.mkRoute 3 0
          (Some (net.mkIPNet [0; 0; 0; 0; 0; 0; 0; 0; 0; 0; 0xff; 0xff; 10; 1; 0; 0]
                             [255; 255; 0; 0]))
          [] ex.gw4 0).
Proof.
  destruct equivalent_is_equivalence as (Hrefl & Hsym & _).
  split.
  - exact (Hrefl ex.request4 ex.prefix4 eq_refl).
  - apply Hsym.
    exists (net.mkIPNet [0; 0; 0; 0; 0; 0; 0; 0; 0; 0; 0xff; 0xff; 10; 1; 0; 0]
                        [255; 255; 0; 0]), ex.prefix4.
    repeat split.
Defined.

(** ** The calls of a reconciliation *)

Section Shape.

Variable A : Adapter.
Variables deviceMTU routeMTU : Z.

(** Every run of [replaceRoute]: the calls after the device is
    resolved, and how the result relates to them. *)
Lemma replaceRoute_shape (route : Route) (w : World (kstate A)) :
  exists out k calls,
    replaceRoute A deviceMTU routeMTU route w =
      (out, mkWorld k (trace w ++ CLinkByName (Device route) :: calls))
    /\ forallb isListOrReplace calls = true
    /\ (length calls <= 4)%nat
    /\ match out with
       | Panicked => True
       | Done (true, Some _) => False
       | Done (true, None) =>
           exists link pre,
             fst (LinkByName A (Device route) (kernel w)) = Ok link
             /\ calls = pre ++ [CRouteReplace (routeSpec deviceMTU routeMTU route link)]
       | Done (false, None) =>
           exists link pre,
             fst (LinkByName A (Device route) (kernel w)) = Ok link
             /\ calls = pre ++ [CRouteList link (ipFamily (net.IPNet_IP (Prefix route)))]
       | Done (false, Some _) =>
           calls = [] \/ exists pre r, calls = pre ++ [CRouteReplace r]
       end.
Proof.
  destruct (fst (LinkByName A (Device route) (kernel w))) as [link|e] eqn:Hl.
  - destruct (Nexthop route) as [g|] eqn:Hg.
    + assert (Hc : exists nh, createNexthopRoute link (getNexthopAsIPNet route) = Done nh).
      { rewrite (getNexthopAsIPNet_Some route g Hg). eexists. reflexivity. }
      destruct Hc as [nh Hc].
      destruct (createNexthopRoute_Dst route g link nh Hg Hc) as (d & Hd & Hip).
      rewrite (replaceRoute_run A deviceMTU routeMTU route link w Hl).
      rewrite (replaceNexthopRoute_run A link _ nh _ Hc).
      rewrite (lookup_run A link nh d _ Hd). cbv zeta. cbn [kernel trace].
      set (rq := routeSpec deviceMTU routeMTU route link).
      assert (Hdq : netlink.Dst rq = Some (Prefix route)) by reflexivity.
      match goal with
      | |- context [match ?o with Ok rs => lookupRange nh rs | Err _ => Done None end] =>
          assert (Hn : exists found, o = o /\
                    match o with Ok rs => lookupRange nh rs | Err _ => Done None end
                    = Done found)
      end.
      { match goal with |- exists _, ?o = _ /\ _ => destruct o as [rs|e] end.
        - destruct (lookupRange_total nh d Hd rs) as [f Hf]. exists f. auto.
        - exists None. auto. }
      destruct Hn as (found0 & _ & ->).
      assert (Hmain : forall w2 : World (kstate A),
                exists found1,
                  lookup A link rq w2 =
                    (Done found1,
                     mkWorld (snd (RouteList A link
                                     (ipFamily (net.IPNet_IP (Prefix route))) (kernel w2)))
                             (trace w2 ++ [CRouteList link
                                             (ipFamily (net.IPNet_IP (Prefix route)))]))).
      { intros w2. rewrite (lookup_run A link rq (Prefix route) w2 Hdq). cbv zeta.
        destruct (fst (RouteList A link _ (kernel w2))) as [rs|e].
        - destruct (lookupRange_total rq (Prefix route) Hdq rs) as [f ->].
          exists f. reflexivity.
        - exists None. reflexivity. }
      destruct found0 as [x0|].
      * match goal with
        | |- context [lookup A link rq ?w2] => destruct (Hmain w2) as [found1 ->]
        end.
        cbn [kernel trace].
        destruct found1 as [x1|].
        -- eexists. eexists.
           exists [CRouteList link (ipFamily (net.IPNet_IP d));
                   CRouteList link (ipFamily (net.IPNet_IP (Prefix route)))].
           split; [rewrite <- !app_assoc; reflexivity|].
           split; [reflexivity|]. split; [simpl; lia|].
           exists link, [CRouteList link (ipFamily (net.IPNet_IP d))].
           split; reflexivity.
        -- match goal with
           | |- context [fst (RouteReplace A rq ?k)] =>
               destruct (fst (RouteReplace A rq k)) as [e|]
           end.
           ++ eexists. eexists.
              exists [CRouteList link (ipFamily (net.IPNet_IP d));
                      CRouteList link (ipFamily (net.IPNet_IP (Prefix route)));
                      CRouteReplace rq].
              split; [rewrite <- !app_assoc; reflexivity|].
              split; [reflexivity|]. split; [simpl; lia|].
              right.
              exists [CRouteList link (ipFamily (net.IPNet_IP d));
                      CRouteList link (ipFamily (net.IPNet_IP (Prefix route)))], rq.
              reflexivity.
           ++ eexists. eexists.
              exists [CRouteList link (ipFamily (net.IPNet_IP d));
                      CRouteList link (ipFamily (net.IPNet_IP (Prefix route)));
                      CRouteReplace rq].
              split; [rewrite <- !app_assoc; reflexivity|].
              split; [reflexivity|]. split; [simpl; lia|].
              exists link,
                [CRouteList link (ipFamily (net.IPNet_IP d));
                 CRouteList link (ipFamily (net.IPNet_IP (Prefix route)))].
              split; reflexivity.
      * match goal with
        | |- context [fst (RouteReplace A nh ?k)] =>
            destruct (fst (RouteReplace A nh k)) as [e|]
        end.
        -- eexists. eexists.
           exists [CRouteList link (ipFamily (net.IPNet_IP d)); CRouteReplace nh].
           split; [rewrite <- !app_assoc; reflexivity|].
           split; [reflexivity|]. split; [simpl; lia|].
           right. exists [CRouteList link (ipFamily (net.IPNet_IP d))], nh.
           reflexivity.
        -- match goal with
           | |- context [lookup A link rq ?w2] => destruct (Hmain w2) as [found1 ->]
           end.
           cbn [kernel trace].
           destruct found1 as [x1|].
           ++ eexists. eexists.
              exists [CRouteList link (ipFamily (net.IPNet_IP d)); CRouteReplace nh;
                      CRouteList link (ipFamily (net.IPNet_IP (Prefix route)))].
              split; [rewrite <- !app_assoc; reflexivity|].
              split; [reflexivity|]. split; [simpl; lia|].
              exists link,
                [CRouteList link (ipFamily (net.IPNet_IP d)); CRouteReplace nh].
              split; reflexivity.
           ++ match goal with
              | |- context [fst (RouteReplace A rq ?k)] =>
                  destruct (fst (RouteReplace A rq k)) as [e|]
              end.
              ** eexists. eexists.
                 exists [CRouteList link (ipFamily (net.IPNet_IP d)); CRouteReplace nh;
                         CRouteList link (ipFamily (net.IPNet_IP (Prefix route)));
                         CRouteReplace rq].
                 split; [rewrite <- !app_assoc; reflexivity|].
                 split; [reflexivity|]. split; [simpl; lia|].
                 right.
                 exists [CRouteList link (ipFamily (net.IPNet_IP d)); CRouteReplace nh;
                         CRouteList link (ipFamily (net.IPNet_IP (Prefix route)))], rq.
                 reflexivity.
              ** eexists. eexists.
                 exists [CRouteList link (ipFamily (net.IPNet_IP d)); CRouteReplace nh;
                         CRouteList link (ipFamily (net.IPNet_IP (Prefix route)));
                         CRouteReplace rq].
                 split; [rewrite <- !app_assoc; reflexivity|].
                 split; [reflexivity|]. split; [simpl; lia|].
                 exists link,
                   [CRouteList link (ipFamily (net.IPNet_IP d)); CRouteReplace nh;
                    CRouteList link (ipFamily (net.IPNet_IP (Prefix route)))].
                 split; reflexivity.
    + rewrite (replaceRoute_nil_Nexthop A deviceMTU routeMTU route link w Hg Hl).
      eexists. eexists. exists []. repeat split. simpl. lia.
  - rewrite (replaceRoute_no_link A deviceMTU routeMTU route e w Hl).
    eexists. eexists. exists []. repeat split; [simpl; lia|]. left. reflexivity.
Qed.

End Shape.

(** X4. Calls of a reconciliation: whatever the kernel answers, and also
    when it panics, [replaceRoute] first resolves the device and then
    issues at most four more calls, each of them a [RouteList] or a
    [RouteReplace]; it never deletes a route and never resolves a device a
    second time. *)
Theorem replaceRoute_calls
    (A : Adapter) (deviceMTU routeMTU : Z) (route : Route) (w : World (kstate A)) :
  exists calls,
    trace (snd (replaceRoute A deviceMTU routeMTU route w))
    = trace w ++ CLinkByName (Device route) :: calls
    /\ (length calls <= 4)%nat
    /\ forall c, In c calls ->
         (exists link family, c = CRouteList link family)
         \/ (exists r, c = CRouteReplace r).
Proof.
  destruct (replaceRoute_shape A deviceMTU routeMTU route w)
    as (out & k & calls & E & Hall & Hlen & _).
  exists calls. rewrite E. split; [reflexivity|]. split; [exact Hlen|].
  intros c Hin. rewrite forallb_forall in Hall. specialize (Hall c Hin).
  destruct c; try discriminate.
  - left. eauto.
  - right. eauto.
Qed.

(** X5. The result of a reconciliation: [replaceRoute] never returns
    "changed" together with an error; when it returns "changed", its last
    call is the [RouteReplace] of the main request; when it returns
    "unchanged" without error, its last call is the [RouteList] of the main
    route, so nothing was installed after the check. *)
Theorem replaceRoute_result
    (A : Adapter) (deviceMTU routeMTU : Z) (route : Route)
    (w w' : World (kstate A)) (changed : bool) (err : option error) :
  replaceRoute A deviceMTU routeMTU route w = (Done (changed, err), w') ->
  (err <> None -> changed = false)
  /\ (changed = true ->
      exists link pre,
        fst (LinkByName A (Device route) (kernel w)) = Ok link
        /\ trace w' = pre ++ [CRouteReplace (routeSpec deviceMTU routeMTU route link)])
  /\ (changed = false -> err = None ->
      exists link pre,
        fst (LinkByName A (Device route) (kernel w)) = Ok link
        /\ trace w' = pre ++ [CRouteList link (ipFamily (net.IPNet_IP (Prefix route)))]).
Proof.
  intros E.
  destruct (replaceRoute_shape A deviceMTU routeMTU route w)
    as (out & k & calls & E' & _ & _ & H).
  rewrite E in E'. inversion E'; subst out w'; clear E'.
  cbn [trace].
  destruct changed, err as [e|]; cbn in H.
  - contradiction.
  - destruct H as (link & pre & Hl & ->).
    split; [intros Hne; contradiction Hne; reflexivity|]. split; [|discriminate].
    intros _. exists link, (trace w ++ CLinkByName (Device route) :: pre).
    split; [exact Hl|]. rewrite <- app_assoc. reflexivity.
  - split; [reflexivity|]. split; discriminate.
  - destruct H as (link & pre & Hl & ->).
    split; [reflexivity|]. split; [discriminate|].
    intros _ _. exists link, (trace w ++ CLinkByName (Device route) :: pre).
    split; [exact Hl|]. rewrite <- app_assoc. reflexivity.
Qed.

Lemma replaceRoute_result_witness :
  (@None error <> None -> true = false)
  /\ (true = true ->
      exists link pre,
        fst (LinkByName ex.sound (Device ex.route4) ex.kernel0) = Ok link
        /\ [CLinkByName "eth0"; CRouteList ex.eth0 netlink.FAMILY_V4;
            CRouteReplace ex.nexthop4; CRouteList ex.eth0 netlink.FAMILY_V4;
            CRouteReplace ex.request4]
           = pre ++ [CRouteReplace (routeSpec ex.deviceMTU ex.routeMTU ex.route4 link)])
  /\ (true = false -> @None error = None ->
      exists link pre,
        fst (LinkByName ex.sound (Device ex.route4) ex.kernel0) = Ok link
        /\ [CLinkByName "eth0"; CRouteList ex.eth0 netlink.FAMILY_V4;
            CRouteReplace ex.nexthop4; CRouteList ex.eth0 netlink.FAMILY_V4;
            CRouteReplace ex.request4]
           = pre ++ [CRouteList link (ipFamily (net.IPNet_IP (Prefix ex.route4)))]).
Proof.
  exact (replaceRoute_result ex.sound ex.deviceMTU ex.routeMTU ex.route4
           (ex.world ex.kernel0)
           (mkWorld (fake.mkKernel [("eth0"%string, 3)] [ex.nexthop4; ex.request4])
              [CLinkByName "eth0"; CRouteList ex.eth0 netlink.FAMILY_V4;
               CRouteReplace ex.nexthop4; CRouteList ex.eth0 netlink.FAMILY_V4;
               CRouteReplace ex.request4])
           true None eq_refl).
Defined.

(** ** The nexthop helpers *)

(** [deleteNexthopRoute] for a router network: one [RouteDel] of the
    on-link route. *)
Lemma deleteNexthopRoute_run
    (A : Adapter) (link : netlink.Link) (routerNet : option net.IPNet)
    (nh : netlink.Route) (w : World (kstate A)) :
  createNexthopRoute link routerNet = Done nh ->
  deleteNexthopRoute A link routerNet w =
    (Done match fst (RouteDel A nh (kernel w)) with
          | Some e => Some ("unable to delete L2 nexthop route: " ++ e)%string
          | None => None
          end,
     mkWorld (snd (RouteDel A nh (kernel w))) (trace w ++ [CRouteDel nh])).
Proof.
  intros Hc. unfold deleteNexthopRoute, bind. rewrite Hc. cbn [lift ret].
  unfold netlink_RouteDel.
  destruct (fst (RouteDel A nh (kernel w))); reflexivity.
Qed.

(** X7. [deleteNexthopRoute] undoes what [replaceNexthopRoute] does: a
    route that [replaceNexthopRoute] installs for a link and a router
    network is the route that [deleteNexthopRoute] deletes for them, in one
    [RouteDel] and without listing anything; the kernel's error comes back
    behind the words "unable to delete L2 nexthop route". *)
Theorem deleteNexthopRoute_deletes_installed
    (A : Adapter) (link : netlink.Link) (routerNet : option net.IPNet)
    (w w' : World (kstate A)) (r : netlink.Route) :
  trace w = [] ->
  In (CRouteReplace r) (trace (snd (replaceNexthopRoute A link routerNet w))) ->
  deleteNexthopRoute A link routerNet w' =
    (Done match fst (RouteDel A r (kernel w')) with
          | Some e => Some ("unable to delete L2 nexthop route: " ++ e)%string
          | None => None
          end,
     mkWorld (snd (RouteDel A r (kernel w'))) (trace w' ++ [CRouteDel r])).
Proof.
  intros Ht Hin.
  destruct routerNet as [rn|];
    [|cbn in Hin; rewrite Ht in Hin; contradiction Hin].
  destruct (createNexthopRoute link (Some rn)) as [nh|] eqn:Hc; [|discriminate Hc].
  assert (Hd : exists d, netlink.Dst nh = Some d).
  { cbn in Hc. inversion Hc. eexists. reflexivity. }
  destruct Hd as [d Hd].
  rewrite (replaceNexthopRoute_run A link (Some rn) nh w Hc) in Hin.
  rewrite (lookup_run A link nh d w Hd) in Hin. cbv zeta in Hin.
  assert (Hr : r = nh).
  { destruct (match fst (RouteList A link _ (kernel w)) with
              | Ok rs => lookupRange nh rs
              | Err _ => Done None
              end) as [[x|]|]; cbn [snd trace] in Hin; rewrite Ht in Hin;
      cbn in Hin.
    - destruct Hin as [H|[]]; discriminate H.
    - destruct Hin as [H|[H|[]]]; [discriminate H | inversion H; reflexivity].
    - destruct Hin as [H|[]]; discriminate H. }
  subst r. exact (deleteNexthopRoute_run A link (Some rn) nh w' Hc).
Qed.

Lemma deleteNexthopRoute_deletes_installed_witness :
  deleteNexthopRoute ex.sound ex.eth0 (getNexthopAsIPNet ex.route4) (ex.world ex.kernel4) =
    (Done match fst (RouteDel ex.sound ex.nexthop4 ex.kernel4) with
          | Some e => Some ("unable to delete L2 nexthop route: " ++ e)%string
          | None => None
          end,
     mkWorld (snd (RouteDel ex.sound ex.nexthop4 ex.kernel4))
             ([] ++ [CRouteDel ex.nexthop4])).
Proof.
  apply (deleteNexthopRoute_deletes_installed ex.sound ex.eth0
           (getNexthopAsIPNet ex.route4) (ex.world ex.kernel0) (ex.world ex.kernel4)
           ex.nexthop4 eq_refl).
  right. left. reflexivity.
Defined.

(** ** Reconciling again *)

Section Settled.

Variable A : Adapter.
Hypothesis contract : KernelContract A.
Variables deviceMTU routeMTU : Z.

(** After a pass on a kernel that obeys the contract, the device still
    resolves and both listings hold a route equivalent to the request
    they are searched for. *)
Lemma settled_after_pass (route : Route) (g : net.IP) (link : netlink.Link)
      (nh : netlink.Route) (k0 : kstate A) (t : list Call) :
  Nexthop route = Some g ->
  createNexthopRoute link (getNexthopAsIPNet route) = Done nh ->
  fst (LinkByName A (Device route) k0) = Ok link ->
  let rq := routeSpec deviceMTU routeMTU route link in
  let k1 := kernel (snd (replaceRoute A deviceMTU routeMTU route (mkWorld k0 t))) in
  fst (LinkByName A (Device route) k1) = Ok link
  /\ (forall rs, fst (RouteList A link (ipFamily g) k1) = Ok rs ->
                 exists y, lookupRange nh rs = Done (Some y))
  /\ (forall rs, fst (RouteList A link (ipFamily (net.IPNet_IP (Prefix route))) k1) = Ok rs ->
                 exists y, lookupRange rq rs = Done (Some y)).
Proof.
  intros Hg Hc Hl rq k1.
  destruct (createNexthopRoute_Dst route g link nh Hg Hc) as (d & Hd & Hip).
  pose proof (createNexthopRoute_LinkIndex link _ nh Hc) as Hidx.
  assert (Hdq : netlink.Dst rq = Some (Prefix route)) by reflexivity.
  assert (Hidxq : netlink.Index (netlink.Attrs link) = netlink.LinkIndex rq)
    by reflexivity.
  destruct (replaceRoute_pass A contract deviceMTU routeMTU route g link nh Hg Hc k0 t Hl)
    as (rs0 & found0 & rs1 & found1 & Hrs0 & Hf0 & Hrs1 & Hf1 & E1).
  fold rq in Hrs1, Hf1, E1.
  set (kmid := match found0 with Some _ => k0 | None => snd (RouteReplace A nh k0) end)
    in *.
  assert (Hk1 : k1 = match found1 with
                     | Some _ => kmid
                     | None => snd (RouteReplace A rq kmid)
                     end).
  { unfold k1. rewrite E1. reflexivity. }
  clearbody k1. subst k1. clear E1.
  assert (Hlmid : fst (LinkByName A (Device route) kmid) = Ok link).
  { unfold kmid. destruct found0; [exact Hl|].
    rewrite (replace_links A contract). exact Hl. }
  assert (HN : exists rsN x xd,
             fst (RouteList A link (ipFamily (net.IPNet_IP d)) kmid) = Ok rsN
             /\ In x rsN /\ netlink.Dst x = Some xd /\ sameRoute x nh xd d = true).
  { unfold kmid. destruct found0 as [x0|].
    - destruct (lookupRange_Some nh d Hd rs0 x0 Hf0) as [Hin (xd & Hx & Hs)].
      exists rs0, x0, xd. rewrite Hip. tauto.
    - destruct (list_ok A contract link (ipFamily (net.IPNet_IP d))
                  (snd (RouteReplace A nh k0))) as [rsN HrsN].
      exists rsN, nh, d. split; [exact HrsN|]. split; [|split].
      + exact (replace_lists A contract nh k0 d link rsN Hd Hidx HrsN).
      + exact Hd.
      + apply sameRoute_refl. }
  destruct HN as (rsN & x & xd & HrsN & HinN & HxN & HsN).
  split; [|split].
  - destruct found1; [exact Hlmid|].
    rewrite (replace_links A contract). exact Hlmid.
  - intros rs Hrs. rewrite <- Hip in Hrs. destruct found1 as [x1|].
    + rewrite HrsN in Hrs. inversion Hrs; subst rs.
      exact (lookupRange_found nh d Hd rsN x xd HinN HxN HsN).
    + exact (found_survives_replace A contract link nh rq d (Prefix route) kmid
               rsN rs1 rs x xd Hd Hdq HrsN HinN HxN HsN Hrs1 Hf1 Hrs).
  - intros rs Hrs. destruct found1 as [x1|].
    + rewrite Hrs1 in Hrs. inversion Hrs; subst rs. exists x1. exact Hf1.
    + exact (found_after_replace A contract link rq (Prefix route) kmid rs
               Hdq Hidxq Hrs).
Qed.

End Settled.

(** X8. A changed MTU or local address is not installed: once a route
    with a gateway is reconciled on a kernel that obeys the adapter
    contract, reconciling a specification with the same prefix, gateway,
    device and scope, whatever its MTU and local address, reports no
    change and issues no [RouteReplace], because the equivalence check
    reads neither the MTU nor the source address. *)
Theorem changed_MTU_is_not_installed
    (A : Adapter) (deviceMTU routeMTU : Z) (route route' : Route) (g : net.IP)
    (link : netlink.Link) (k0 : kstate A) :
  KernelContract A ->
  Nexthop route = Some g ->
  fst (LinkByName A (Device route) k0) = Ok link ->
  Prefix route' = Prefix route ->
  Nexthop route' = Nexthop route ->
  Device route' = Device route ->
  Scope route' = Scope route ->
  let k1 := kernel (snd (replaceRoute A deviceMTU routeMTU route (mkWorld k0 []))) in
  replaceRoute A deviceMTU routeMTU route' (mkWorld k1 []) =
    (Done (false, None),
     mkWorld k1 [CLinkByName (Device route); CRouteList link (ipFamily g);
                 CRouteList link (ipFamily (net.IPNet_IP (Prefix route)))]).
Proof.
  intros contract Hg Hl HP HN HD HS k1.
  assert (Hc : exists nh, createNexthopRoute link (getNexthopAsIPNet route) = Done nh).
  { rewrite (getNexthopAsIPNet_Some route g Hg). eexists. reflexivity. }
  destruct Hc as [nh Hc].
  destruct (settled_after_pass A contract deviceMTU routeMTU route g link nh k0 []
              Hg Hc Hl) as (Hl1 & HsN & HsM).
  fold k1 in Hl1, HsN, HsM.
  assert (Hg' : Nexthop route' = Some g) by congruence.
  assert (Hc' : createNexthopRoute link (getNexthopAsIPNet route') = Done nh).
  { unfold getNexthopAsIPNet in *. rewrite HN. exact Hc. }
  assert (Hl1' : fst (LinkByName A (Device route') k1) = Ok link) by (rewrite HD; exact Hl1).
  destruct (replaceRoute_pass A contract deviceMTU routeMTU route' g link nh Hg' Hc' k1 []
              Hl1') as (rs0 & found0 & rs1 & found1 & Hrs0 & Hf0 & Hrs1 & Hf1 & E).
  rewrite HP, HD in *.
  destruct (HsN rs0 Hrs0) as [y0 Hy0].
  assert (found0 = Some y0) by congruence. subst found0.
  assert (Hsf : sameFilter (routeSpec deviceMTU routeMTU route' link)
                           (routeSpec deviceMTU routeMTU route link)).
  { unfold sameFilter, routeSpec, getNetlinkRoute. cbn.
    rewrite HP, HN, HS. repeat split. }
  rewrite (lookupRange_sameFilter _ _ rs1 Hsf) in Hf1.
  destruct (HsM rs1 Hrs1) as [y1 Hy1].
  assert (found1 = Some y1) by congruence. subst found1.
  rewrite E. reflexivity.
Qed.

(** Witness of X8: the sample route is installed with the device MTU; the
    same route with a local address outside the prefix asks for the route
    MTU and is left as it is. *)
Lemma changed_MTU_is_not_installed_witness :
  netlink.MTU (routeSpec ex.deviceMTU ex.routeMTU ex.route4 ex.eth0)
  <> netlink.MTU (routeSpec ex.deviceMTU ex.routeMTU ex.route4_remote ex.eth0)
  /\ let k1 := kernel (snd (replaceRoute ex.sound ex.deviceMTU ex.routeMTU ex.route4
                              (mkWorld ex.kernel0 []))) in
     replaceRoute ex.sound ex.deviceMTU ex.routeMTU ex.route4_remote (mkWorld k1 []) =
       (Done (false, None),
        mkWorld k1 [CLinkByName "eth0"; CRouteList ex.eth0 netlink.FAMILY_V4;
                    CRouteList ex.eth0 netlink.FAMILY_V4]).
Proof.
  split; [discriminate|].
  exact (changed_MTU_is_not_installed ex.sound ex.deviceMTU ex.routeMTU ex.route4
           ex.route4_remote ex.gw4 ex.eth0 ex.kernel0 fake_contract
           eq_refl eq_refl eq_refl eq_refl eq_refl eq_refl).
Defined.

(** X9. The nexthop step is idempotent: on a kernel that obeys the
    adapter contract, [replaceNexthopRoute] for a router network succeeds,
    and a second call on the kernel it leaves lists the routes once, finds
    the on-link route, reports no change and leaves the kernel as it is. *)
Theorem replaceNexthopRoute_twice
    (A : Adapter) (link : netlink.Link) (rn : net.IPNet) (k0 : kstate A) :
  KernelContract A ->
  let first := replaceNexthopRoute A link (Some rn) (mkWorld k0 []) in
  (exists changed, fst first = Done (changed, None))
  /\ replaceNexthopRoute A link (Some rn) (mkWorld (kernel (snd first)) []) =
     (Done (false, None),
      mkWorld (kernel (snd first)) [CRouteList link (ipFamily (net.IPNet_IP rn))]).
Proof.
  intros contract first.
  destruct (createNexthopRoute link (Some rn)) as [nh|] eqn:Hc; [|discriminate Hc].
  assert (Hd : netlink.Dst nh = Some rn) by (cbn in Hc; inversion Hc; reflexivity).
  pose proof (createNexthopRoute_LinkIndex link _ nh Hc) as Hidx.
  assert (Hfirst : exists changed k1,
             first = (Done (changed, None), mkWorld k1 (trace (snd first)))
             /\ forall rs, fst (RouteList A link (ipFamily (net.IPNet_IP rn)) k1) = Ok rs ->
                           exists y, lookupRange nh rs = Done (Some y)).
  { unfold first. rewrite (replaceNexthopRoute_run A link (Some rn) nh _ Hc).
    destruct (lookup_contract A contract link nh rn (mkWorld k0 []) Hd)
      as (rs0 & found0 & Hrs0 & Hf0 & ->).
    cbn [kernel trace] in *.
    destruct found0 as [x0|].
    - exists false, k0. split; [reflexivity|].
      intros rs Hrs. rewrite Hrs0 in Hrs. inversion Hrs; subst rs.
      exists x0. exact Hf0.
    - rewrite (replace_ok A contract). exists true, (snd (RouteReplace A nh k0)).
      split; [reflexivity|].
      intros rs Hrs. exact (found_after_replace A contract link nh rn k0 rs Hd Hidx Hrs). }
  destruct Hfirst as (changed & k1 & E & Hfound).
  rewrite E. cbn [fst snd kernel]. split; [exists changed; reflexivity|].
  rewrite (replaceNexthopRoute_run A link (Some rn) nh _ Hc).
  destruct (lookup_contract A contract link nh rn (mkWorld k1 []) Hd)
    as (rs & found & Hrs & Hf & ->).
  cbn [kernel trace] in *.
  destruct (Hfound rs Hrs) as [y Hy].
  assert (found = Some y) by congruence. subst found. reflexivity.
Qed.

Lemma replaceNexthopRoute_twice_witness :
  let first := replaceNexthopRoute ex.sound ex.eth0 (Some ex.prefix6)
                 (mkWorld ex.kernel0 []) in
  (exists changed, fst first = Done (changed, None))
  /\ replaceNexthopRoute ex.sound ex.eth0 (Some ex.prefix6)
       (mkWorld (kernel (snd first)) []) =
     (Done (false, None),
      mkWorld (kernel (snd first))
        [CRouteList ex.eth0 (ipFamily (net.IPNet_IP ex.prefix6))]).
Proof.
  exact (replaceNexthopRoute_twice ex.sound ex.eth0 ex.prefix6 ex.kernel0 fake_contract).
Defined.


(** ** The host prefix of the gateway *)

Module hostFacts.
Import net.

Ltac len_contra :=
exfalso;
repeat match goal with
       | H : @eq (list Z) _ _ |- _ => apply (f_equal (@length Z)) in H
       | H : @eq IP _ _ |- _ => apply (f_equal (@length Z)) in H
       end;
rewrite ?length_app in *; cbn [length v4InV6Prefix] in *; lia.

Lemma To4_prefixed (t : IP) : length t = 4%nat -> To4 (v4InV6Prefix ++ t) = t.
Proof.
  intros L. do 5 (destruct t as [|? t]; try discriminate L). reflexivity.
Qed.

Lemma To4_cases (ip : IP) :
  (length ip = 4%nat /\ To4 ip = ip)
  \/ (length (To4 ip) = 4%nat /\ ip = v4InV6Prefix ++ To4 ip)
  \/ (To4 ip = [] /\ length ip <> 4%nat
      /\ forall t, length t = 4%nat -> ip <> v4InV6Prefix ++ t).
Proof.
  destruct (Nat.eq_dec (length ip) 4) as [L4|L4].
  - left. split; [exact L4 | apply netFacts.To4_len4; exact L4].
  - right.
    destruct (isNil (To4 ip)) eqn:En.
    + right. destruct (To4 ip) eqn:E; [|discriminate En].
      split; [reflexivity|]. split; [exact L4|].
      intros t Lt ->. rewrite (To4_prefixed t Lt) in E. subst t. discriminate Lt.
    + left. unfold To4, IPv4len, IPv6len in *.
      destruct (Nat.eqb (length ip) 4) eqn:E4;
        [apply Nat.eqb_eq in E4; contradiction|].
      destruct (Nat.eqb (length ip) 16 && isZeros (firstn 10 ip)
                && (nth 10 ip 0 =? 255) && (nth 11 ip 0 =? 255)) eqn:E;
        [|discriminate En].
      rewrite !andb_true_iff in E. destruct E as [[[L Hz] H10] H11].
      apply Nat.eqb_eq in L.
      do 17 (destruct ip as [|? ip]; try discriminate L).
      cbn in Hz, H10, H11. rewrite !andb_true_iff in Hz.
      repeat match goal with
             | H : _ /\ _ |- _ => destruct H
             | H : (_ =? _) = true |- _ => apply Z.eqb_eq in H
             end.
      subst. split; reflexivity.
Qed.

Lemma Equal_v4 (ip t : IP) :
  length t = 4%nat ->
  (Equal ip t = true <-> To4 ip = t)
  /\ (Equal ip (v4InV6Prefix ++ t) = true <-> To4 ip = t).
Proof.
  intros Lt.
  rewrite !equalFacts.Equal_spec.
  destruct (To4_cases ip) as [[L E] | [[L E] | (E & L & Hno)]].
  - rewrite E. split; split.
    + intros [H | [[_ H] | [_ H]]]; [exact H | len_contra | len_contra].
    + intros ->. left. reflexivity.
    + intros [H | [[_ H] | [H _]]]; [len_contra | | len_contra].
      apply app_inv_head in H. symmetry. exact H.
    + intros ->. right. left. split; [exact L | reflexivity].
  - split; split.
    + intros [H | [[H _] | [_ H]]].
      * rewrite H in E. len_contra.
      * rewrite E in H. len_contra.
      * rewrite E in H. apply app_inv_head in H. exact H.
    + intros H. right. right. split; [exact Lt|]. rewrite <- H. exact E.
    + intros [H | [[H _] | [H _]]].
      * rewrite E in H. apply app_inv_head in H. exact H.
      * rewrite E in H. len_contra.
      * len_contra.
    + intros H. left. rewrite <- H. exact E.
  - rewrite E. split; split.
    + intros [H | [[_ H] | [_ H]]].
      * subst ip. contradiction.
      * len_contra.
      * exfalso. exact (Hno t Lt H).
    + intros <-. discriminate Lt.
    + intros [H | [[H _] | [H _]]].
      * exfalso. exact (Hno t Lt H).
      * contradiction.
      * len_contra.
    + intros <-. discriminate Lt.
Qed.

Lemma land_byte (b : Z) : 0 <= b < 256 -> Z.land b 255 = b.
Proof.
  intros H. change 255 with (Z.ones 8). rewrite Z.land_ones by lia.
  apply Z.mod_small. lia.
Qed.

Lemma sameMasked_ones (ip nn : list Z) :
  length nn = length ip -> isBytes ip -> isBytes nn ->
  sameMasked nn (repeat 255 (length ip)) ip = bytesEqual ip nn.
Proof.
  revert nn. induction ip as [|b ip IH]; intros [|n nn] L Hi Hn;
    try discriminate L; [reflexivity|].
  inversion Hi; subst. inversion Hn; subst. simpl.
  rewrite !land_byte by assumption.
  rewrite (Z.eqb_sym n b). f_equal. apply IH; auto.
Qed.

Lemma isBytes_app (a b : list Z) : isBytes (a ++ b) <-> isBytes a /\ isBytes b.
Proof. unfold isBytes. apply Forall_app. Qed.

Lemma isBytes_To4 (ip : IP) : isBytes ip -> isBytes (To4 ip).
Proof.
  intros H.
  destruct (To4_cases ip) as [[_ E] | [[_ E] | (E & _)]].
  - rewrite E. exact H.
  - rewrite E in H. apply isBytes_app in H. tauto.
  - rewrite E. constructor.
Qed.

(** Containment in a network whose mask is all ones and whose network
    number is [nn]. *)
Lemma Contains_host (n : IPNet) (nn ip : IP) :
  networkNumberAndMask n = (nn, repeat 255 (length nn)) ->
  (length nn = 4%nat /\ True \/ length nn = 16%nat /\ isNil (To4 nn) = true) ->
  isBytes nn -> isBytes ip ->
  Contains n ip = Equal ip nn.
Proof.
  intros Hn Hl Bn Bi. unfold Contains. rewrite Hn.
  pose proof (isBytes_To4 ip Bi) as Bt.
  destruct Hl as [[L4 _] | [L16 Hnil]].
  - destruct (Equal_v4 ip nn L4) as [Heq _].
    destruct (To4_cases ip) as [[L E] | [[L E] | (E & L & Hno)]].
    + rewrite E, (netFacts.isNil_len4 ip L), L, L4. cbn [Nat.eqb negb].
      rewrite <- L at 1. rewrite (sameMasked_ones ip nn) by (auto; congruence).
      destruct (bytesEqual ip nn) eqn:Eb.
      * apply netFacts.bytesEqual_eq in Eb. symmetry. apply Heq. congruence.
      * symmetry. apply not_true_is_false. intros Ht. apply Heq in Ht.
        rewrite E in Ht. apply netFacts.bytesEqual_eq in Ht. congruence.
    + rewrite (netFacts.isNil_len4 _ L), L, L4. cbn [Nat.eqb negb].
      rewrite <- L at 1. rewrite (sameMasked_ones (To4 ip) nn) by (auto; congruence).
      destruct (bytesEqual (To4 ip) nn) eqn:Eb.
      * apply netFacts.bytesEqual_eq in Eb. symmetry. apply Heq. exact Eb.
      * symmetry. apply not_true_is_false. intros Ht. apply Heq in Ht.
        apply netFacts.bytesEqual_eq in Ht. congruence.
    + rewrite E. cbn [isNil]. rewrite L4.
      destruct (Nat.eqb (length ip) 4) eqn:E4;
        [apply Nat.eqb_eq in E4; contradiction|]. cbn [negb].
      symmetry. apply not_true_is_false. intros Ht. apply Heq in Ht.
      rewrite E in Ht. subst nn. discriminate L4.
  - assert (Heq : Equal ip nn = true <-> ip = nn).
    { rewrite equalFacts.Equal_spec. split; [|auto].
      intros [H | [[L H] | [L H]]]; [exact H | | ].
      - exfalso. rewrite H, (To4_prefixed ip L) in Hnil.
        rewrite (netFacts.isNil_len4 ip L) in Hnil. discriminate.
      - exfalso. lia. }
    destruct (To4_cases ip) as [[L E] | [[L E] | (E & L & Hno)]].
    + rewrite E, (netFacts.isNil_len4 ip L), L, L16. cbn [Nat.eqb negb].
      symmetry. apply not_true_is_false. intros Ht. apply Heq in Ht. subst. lia.
    + rewrite (netFacts.isNil_len4 _ L), L, L16. cbn [Nat.eqb negb].
      symmetry. apply not_true_is_false. intros Ht. apply Heq in Ht. subst nn.
      rewrite (netFacts.isNil_len4 _ L) in Hnil. discriminate.
    + rewrite E. cbn [isNil]. rewrite L16.
      destruct (Nat.eqb (length ip) 16) eqn:E16; cbn [negb].
      * apply Nat.eqb_eq in E16. rewrite <- E16 at 1.
        rewrite (sameMasked_ones ip nn) by (auto; congruence).
        destruct (bytesEqual ip nn) eqn:Eb.
        -- apply netFacts.bytesEqual_eq in Eb. symmetry. apply Heq. exact Eb.
        -- symmetry. apply not_true_is_false. intros Ht. apply Heq in Ht.
           apply netFacts.bytesEqual_eq in Ht. congruence.
      * symmetry. apply not_true_is_false. intros Ht. apply Heq in Ht.
        apply Nat.eqb_neq in E16. congruence.
Qed.


End hostFacts.

(** X10. The host prefix of the gateway contains the gateway and nothing
    else: for a gateway of four or sixteen bytes, the network that
    [getNexthopAsIPNet] builds contains an address exactly when the address
    is [Equal] to the gateway (the gateway itself or its other IPv4
    form). *)
Theorem nexthop_prefix_contains_gateway_only (route : Route) (g : net.IP) :
  Nexthop route = Some g ->
  (length g = 4%nat \/ length g = 16%nat) ->
  isBytes g ->
  exists hostnet,
    getNexthopAsIPNet route = Some hostnet
    /\ forall ip, isBytes ip -> net.Contains hostnet ip = net.Equal ip g.
Proof.
  intros Hg Hl Bg. rewrite (getNexthopAsIPNet_Some route g Hg).
  eexists. split; [reflexivity|]. intros ip Bi.
  destruct Hl as [L4 | L16].
  - rewrite (netFacts.To4_len4 g L4), (netFacts.isNil_len4 g L4).
    apply hostFacts.Contains_host; auto.
    unfold net.networkNumberAndMask. cbn [net.IPNet_IP net.IPNet_Mask].
    rewrite (netFacts.To4_len4 g L4), (netFacts.isNil_len4 g L4), L4. reflexivity.
  - destruct (hostFacts.To4_cases g) as [[L E] | [[L E] | (E & L & Hno)]].
    + lia.
    + rewrite (netFacts.isNil_len4 _ L).
      pose proof (hostFacts.isBytes_To4 g Bg) as Bt.
      destruct (hostFacts.Equal_v4 ip (net.To4 g) L) as [H1 H2].
      rewrite <- E in H2.
      assert (Hc : net.Contains (net.mkIPNet g (net.CIDRMask 32 32)) ip
                   = net.Equal ip (net.To4 g)).
      { apply hostFacts.Contains_host; auto.
        unfold net.networkNumberAndMask. cbn [net.IPNet_IP net.IPNet_Mask].
        rewrite (netFacts.isNil_len4 _ L), L. reflexivity. }
      rewrite Hc.
      assert (Hiff : net.Equal ip (net.To4 g) = true <-> net.Equal ip g = true) by tauto.
      clear H1 H2.
      destruct (net.Equal ip (net.To4 g)), (net.Equal ip g); try reflexivity.
      * symmetry. apply Hiff. reflexivity.
      * apply Hiff. reflexivity.
    + rewrite E. cbn [net.isNil].
      apply hostFacts.Contains_host; auto.
      * unfold net.networkNumberAndMask. cbn [net.IPNet_IP net.IPNet_Mask].
        rewrite E. cbn [net.isNil]. rewrite L16. reflexivity.
      * right. rewrite E. auto.
Qed.

Lemma nexthop_prefix_contains_gateway_only_witness :
  exists hostnet,
    getNexthopAsIPNet ex.route4 = Some hostnet
    /\ forall ip, isBytes ip -> net.Contains hostnet ip = net.Equal ip ex.gw4.
Proof.
  apply (nexthop_prefix_contains_gateway_only ex.route4 ex.gw4 eq_refl).
  - left. reflexivity.
  - repeat constructor; lia.
Defined.

(** * Sorting by mask *)

Module byMaskFacts.
Import ByMask.

Lemma index_Done {T} (a : list T) (i : Z) (x : T) :
index a i = Done x <-> 0 <= i /\ nth_error a (Z.to_nat i) = Some x.
Proof.
unfold index. destruct (i <? 0) eqn:E.
- apply Z.ltb_lt in E. split; [discriminate | intros [H _]; lia].
- apply Z.ltb_ge in E. destruct (nth_error a (Z.to_nat i)) as [y|].
  + split; [intros H; inversion H; auto | intros [_ H]; inversion H; reflexivity].
  + split; [discriminate | intros [_ H]; discriminate].
Qed.

Lemma index_Panicked {T} (a : list T) (i : Z) :
index a i = Panicked <-> ~ (0 <= i < Z.of_nat (length a)).
Proof.
unfold index. destruct (i <? 0) eqn:E.
- apply Z.ltb_lt in E. split; [intros _; lia | reflexivity].
- apply Z.ltb_ge in E. destruct (nth_error a (Z.to_nat i)) as [y|] eqn:En.
  + split; [discriminate|]. intros H. exfalso. apply H.
    assert (Hlt : (Z.to_nat i < length a)%nat)
      by (apply nth_error_Some; rewrite En; discriminate).
    lia.
  + split; [|reflexivity]. intros _ H. apply nth_error_None in En. lia.
Qed.

Lemma index_in_range {T} (a : list T) (i : Z) :
0 <= i < Z.of_nat (length a) -> exists x, index a i = Done x.
Proof.
intros H. destruct (index a i) as [x|] eqn:E; [eauto|].
apply index_Panicked in E. contradiction.
Qed.

Lemma Less_Done (a : t) (i j : Z) (b : bool) :
Less a i j = Done b <->
exists x y, index a i = Done x /\ index a j = Done y /\ b = (maskLen y <? maskLen x).
Proof.
unfold Less, maskLen. destruct (index a i) as [x|]; [destruct (index a j) as [y|]|].
- split.
  + intros H. inversion H. exists x, y. auto.
  + intros (x' & y' & Hx & Hy & ->). inversion Hx; inversion Hy; reflexivity.
- split; [discriminate | intros (x' & y' & _ & Hy & _); discriminate].
- split; [discriminate | intros (x' & y' & Hx & _); discriminate].
Qed.

Lemma set_length {T} (a : list T) (i : nat) (x : T) : length (set a i x) = length a.
Proof.
revert i; induction a as [|y a IH]; intros [|i]; simpl; auto.
Qed.

Lemma set_app {T} (l1 l2 : list T) (y x : T) :
set (l1 ++ y :: l2) (length l1) x = l1 ++ x :: l2.
Proof. induction l1 as [|z l1 IH]; simpl; [reflexivity | rewrite IH; reflexivity]. Qed.

Lemma nth_error_set_eq {T} (a : list T) (i : nat) (x : T) :
(i < length a)%nat -> nth_error (set a i x) i = Some x.
Proof.
revert i; induction a as [|y a IH]; intros [|i] H; simpl in *; try lia; auto.
apply IH. lia.
Qed.

Lemma nth_error_set_neq {T} (a : list T) (i k : nat) (x : T) :
i <> k -> nth_error (set a i x) k = nth_error a k.
Proof.
revert i k; induction a as [|y a IH]; intros [|i] [|k] H; simpl; auto.
contradiction H. reflexivity.
Qed.

Lemma set_same {T} (a : list T) (i : nat) (x : T) :
nth_error a i = Some x -> set a i x = a.
Proof.
revert i; induction a as [|y a IH]; intros [|i]; simpl; try discriminate.
- intros E. inversion E. reflexivity.
- intros E. rewrite (IH i E). reflexivity.
Qed.

Lemma set_set {T} (a : list T) (i : nat) (x y : T) :
set (set a i x) i y = set a i y.
Proof. revert i; induction a as [|z a IH]; intros [|i]; simpl; auto. rewrite IH. auto. Qed.

Lemma set_comm {T} (a : list T) (i j : nat) (x y : T) :
i <> j -> set (set a i x) j y = set (set a j y) i x.
Proof.
revert i j; induction a as [|z a IH]; intros [|i] [|j] H; simpl; auto.
- contradiction H. reflexivity.
- rewrite IH by lia. reflexivity.
Qed.

(** Exchanging two elements permutes the list. *)
Lemma swap_Permutation {T} (a : list T) (i j : nat) (x y : T) :
nth_error a i = Some x -> nth_error a j = Some y ->
Permutation a (set (set a i y) j x).
Proof.
revert i j. induction a as [|z a IH]; intros [|i] [|j]; simpl; try discriminate.
- intros E1 E2. inversion E1; inversion E2; subst. apply Permutation_refl.
- intros E1 E2. inversion E1; subst.
  destruct (nth_error_split a j E2) as (l1 & l2 & -> & <-).
  rewrite set_app.
  transitivity (y :: x :: l1 ++ l2).
  + transitivity (x :: y :: l1 ++ l2); [|apply perm_swap].
    apply perm_skip. symmetry. apply Permutation_middle.
  + apply perm_skip. apply Permutation_middle.
- intros E1 E2. inversion E2; subst.
  destruct (nth_error_split a i E1) as (l1 & l2 & -> & <-).
  rewrite set_app.
  transitivity (x :: y :: l1 ++ l2).
  + transitivity (y :: x :: l1 ++ l2); [|apply perm_swap].
    apply perm_skip. symmetry. apply Permutation_middle.
  + apply perm_skip. apply Permutation_middle.
- intros E1 E2. apply perm_skip. apply IH; assumption.
Qed.

Lemma leadingOnes_bounds (fuel : nat) (n v : Z) :
n <= fst (net.leadingOnes fuel n v) <= n + Z.of_nat fuel.
Proof.
revert n v. induction fuel as [|f IH]; intros n v.
- simpl. lia.
- cbn [net.leadingOnes]. destruct (Z.land v 128 =? 0).
  + simpl. lia.
  + specialize (IH (n + 1) (Z.land (Z.shiftl v 1) 255)). lia.
Qed.

Lemma simpleMaskLength_from_bounds (mask : net.IPMask) (n : Z) :
net.simpleMaskLength_from n mask = -1
\/ n <= net.simpleMaskLength_from n mask <= n + 8 * Z.of_nat (length mask).
Proof.
revert n. induction mask as [|v rest IH]; intros n.
- right. simpl. lia.
- cbn [net.simpleMaskLength_from]. destruct (v =? 255).
  + destruct (IH (n + 8)) as [H|H]; [left; exact H|].
    right. cbn [length]. lia.
  + pose proof (leadingOnes_bounds 8 n v) as B.
    destruct (net.leadingOnes 8 n v) as [n' v']. cbn [fst] in B.
    destruct (negb (v' =? 0)); [left; reflexivity|].
    destruct (forallb _ rest); [|left; reflexivity].
    right. cbn [length]. lia.
Qed.

Lemma Size_bounds (m : net.IPMask) :
0 <= fst (net.Size m) <= snd (net.Size m).
Proof.
unfold net.Size, net.simpleMaskLength.
destruct (simpleMaskLength_from_bounds m 0) as [H|H].
- rewrite H. simpl. lia.
- destruct (net.simpleMaskLength_from 0 m =? -1) eqn:E; simpl; lia.
Qed.

End byMaskFacts.

(** X11. [ByMask.Less] is a strict weak order, as [sort.Sort] needs it:
    on indices of the slice it never holds between an index and itself, it
    is transitive, and being unordered both ways is transitive too; it
    panics exactly when an index is outside the slice. *)
Theorem ByMask_Less_strict_weak_order (a : ByMask.t) :
  (forall i j, ByMask.Less a i j = Panicked <->
               ~ (0 <= i < ByMask.Len a /\ 0 <= j < ByMask.Len a))
  /\ (forall i, 0 <= i < ByMask.Len a -> ByMask.Less a i i = Done false)
  /\ (forall i j k, ByMask.Less a i j = Done true -> ByMask.Less a j k = Done true ->
                    ByMask.Less a i k = Done true)
  /\ (forall i j k,
        ByMask.Less a i j = Done false -> ByMask.Less a j i = Done false ->
        ByMask.Less a j k = Done false -> ByMask.Less a k j = Done false ->
        ByMask.Less a i k = Done false /\ ByMask.Less a k i = Done false).
Proof.
  split; [|split; [|split]].
  - intros i j. unfold ByMask.Less, ByMask.Len.
    destruct (ByMask.index a i) as [x|] eqn:Ei.
    + destruct (ByMask.index a j) as [y|] eqn:Ej.
      * split; [discriminate|]. intros H. exfalso. apply H.
        split.
        -- destruct (Z_lt_le_dec i 0); [| destruct (Z_lt_le_dec i (Z.of_nat (length a)))];
             try lia.
           ++ assert (ByMask.index a i = Panicked) by (apply byMaskFacts.index_Panicked; lia). congruence.
           ++ assert (ByMask.index a i = Panicked) by (apply byMaskFacts.index_Panicked; lia). congruence.
        -- destruct (Z_lt_le_dec j 0); [| destruct (Z_lt_le_dec j (Z.of_nat (length a)))];
             try lia.
           ++ assert (ByMask.index a j = Panicked) by (apply byMaskFacts.index_Panicked; lia). congruence.
           ++ assert (ByMask.index a j = Panicked) by (apply byMaskFacts.index_Panicked; lia). congruence.
      * split; [|reflexivity]. intros _ [_ H]. apply byMaskFacts.index_Panicked in Ej. contradiction.
    + split; [|reflexivity]. intros _ [H _]. apply byMaskFacts.index_Panicked in Ei. contradiction.
  - intros i Hi. destruct (byMaskFacts.index_in_range a i Hi) as [x Hx].
    apply byMaskFacts.Less_Done. exists x, x. rewrite Z.ltb_irrefl. auto.
  - intros i j k H1 H2. apply byMaskFacts.Less_Done in H1, H2.
    destruct H1 as (x & y & Hx & Hy & E1). destruct H2 as (y' & z & Hy' & Hz & E2).
    assert (y' = y) by congruence. subst y'.
    apply byMaskFacts.Less_Done. exists x, z. split; [exact Hx|]. split; [exact Hz|].
    symmetry in E1, E2. apply Z.ltb_lt in E1, E2. symmetry. apply Z.ltb_lt. lia.
  - intros i j k H1 H2 H3 H4. apply byMaskFacts.Less_Done in H1, H2, H3, H4.
    destruct H1 as (x & y & Hx & Hy & E1). destruct H2 as (y2 & x2 & Hy2 & Hx2 & E2).
    destruct H3 as (y3 & z & Hy3 & Hz & E3). destruct H4 as (z4 & y4 & Hz4 & Hy4 & E4).
    assert (y2 = y) by congruence. assert (x2 = x) by congruence.
    assert (y3 = y) by congruence. assert (z4 = z) by congruence.
    assert (y4 = y) by congruence. subst.
    symmetry in E1, E2, E3, E4. apply Z.ltb_ge in E1, E2, E3, E4.
    split; apply byMaskFacts.Less_Done; [exists x, z | exists z, x];
      (split; [assumption|]; split; [assumption|]; symmetry; apply Z.ltb_ge; lia).
Qed.


Lemma ByMask_Less_strict_weak_order_witness :
  ByMask.Less ex2.routes 0 0 = Done false
  /\ ByMask.Less ex2.routes 0 2 = Done true.
Proof.
  destruct (ByMask_Less_strict_weak_order ex2.routes) as (_ & Hirr & Htrans & _).
  split.
  - apply Hirr. cbn. lia.
  - apply (Htrans 0 1 2); reflexivity.
Defined.

(** X12. [ByMask.Swap] exchanges two routes and loses none: for indices
    of the slice the result has the same length, is a permutation of the
    slice, holds at each of the two indices what the other one held and
    leaves every other index as it was, and swapping again gives the slice
    back; with an index outside the slice it panics. *)
Theorem ByMask_Swap_exchanges (a : ByMask.t) (i j : Z) :
  (ByMask.Swap a i j = Panicked <-> ~ (0 <= i < ByMask.Len a /\ 0 <= j < ByMask.Len a))
  /\ (0 <= i < ByMask.Len a -> 0 <= j < ByMask.Len a ->
      exists a',
        ByMask.Swap a i j = Done a'
        /\ ByMask.Len a' = ByMask.Len a
        /\ Permutation a a'
        /\ ByMask.index a' i = ByMask.index a j
        /\ ByMask.index a' j = ByMask.index a i
        /\ (forall k, k <> i -> k <> j -> ByMask.index a' k = ByMask.index a k)
        /\ ByMask.Swap a' i j = Done a).
Proof.
  unfold ByMask.Len. split.
  - unfold ByMask.Swap. destruct (ByMask.index a j) as [y|] eqn:Ej.
    + destruct (ByMask.index a i) as [x|] eqn:Ei.
      * split; [discriminate|]. intros H. exfalso. apply H. split.
        -- destruct (Z_lt_le_dec i 0); [| destruct (Z_lt_le_dec i (Z.of_nat (length a)))];
             try lia.
           ++ assert (ByMask.index a i = Panicked) by (apply byMaskFacts.index_Panicked; lia). congruence.
           ++ assert (ByMask.index a i = Panicked) by (apply byMaskFacts.index_Panicked; lia). congruence.
        -- destruct (Z_lt_le_dec j 0); [| destruct (Z_lt_le_dec j (Z.of_nat (length a)))];
             try lia.
           ++ assert (ByMask.index a j = Panicked) by (apply byMaskFacts.index_Panicked; lia). congruence.
           ++ assert (ByMask.index a j = Panicked) by (apply byMaskFacts.index_Panicked; lia). congruence.
      * split; [|reflexivity]. intros _ [H _]. apply byMaskFacts.index_Panicked in Ei. contradiction.
    + split; [|reflexivity]. intros _ [_ H]. apply byMaskFacts.index_Panicked in Ej. contradiction.
  - intros Hi Hj.
    destruct (byMaskFacts.index_in_range a i Hi) as [x Hx].
    destruct (byMaskFacts.index_in_range a j Hj) as [y Hy].
    pose proof (proj1 (byMaskFacts.index_Done a i x) Hx) as [_ Nx].
    pose proof (proj1 (byMaskFacts.index_Done a j y) Hy) as [_ Ny].
    set (a' := ByMask.set (ByMask.set a (Z.to_nat i) y) (Z.to_nat j) x).
    assert (La : length a' = length a) by (unfold a'; rewrite !byMaskFacts.set_length; reflexivity).
    assert (Nj' : nth_error a' (Z.to_nat j) = Some x).
    { unfold a'. apply byMaskFacts.nth_error_set_eq. rewrite byMaskFacts.set_length. lia. }
    assert (Ni' : nth_error a' (Z.to_nat i) = Some y).
    { unfold a'. destruct (Nat.eq_dec (Z.to_nat i) (Z.to_nat j)) as [E|E].
      - rewrite <- E in *. rewrite Nx in Ny. inversion Ny; subst y.
        apply byMaskFacts.nth_error_set_eq. rewrite byMaskFacts.set_length. lia.
      - rewrite byMaskFacts.nth_error_set_neq by auto. apply byMaskFacts.nth_error_set_eq. lia. }
    exists a'. split; [|split; [|split; [|split; [|split; [|split]]]]].
    + unfold ByMask.Swap. rewrite Hy, Hx. reflexivity.
    + rewrite La. reflexivity.
    + exact (byMaskFacts.swap_Permutation a (Z.to_nat i) (Z.to_nat j) x y Nx Ny).
    + rewrite Hy. apply byMaskFacts.index_Done. split; [lia | exact Ni'].
    + rewrite Hx. apply byMaskFacts.index_Done. split; [lia | exact Nj'].
    + intros k Hki Hkj. unfold ByMask.index. destruct (k <? 0) eqn:Ek; [reflexivity|].
      apply Z.ltb_ge in Ek. unfold a'.
      rewrite !byMaskFacts.nth_error_set_neq by lia. reflexivity.
    + unfold ByMask.Swap.
      assert (Hy' : ByMask.index a' j = Done x) by (apply byMaskFacts.index_Done; split; [lia | exact Nj']).
      assert (Hx' : ByMask.index a' i = Done y) by (apply byMaskFacts.index_Done; split; [lia | exact Ni']).
      rewrite Hy', Hx'. f_equal. unfold a'.
      destruct (Nat.eq_dec (Z.to_nat i) (Z.to_nat j)) as [E|E].
      * rewrite <- E in *. rewrite Nx in Ny. inversion Ny; subst y.
        rewrite !byMaskFacts.set_set. apply byMaskFacts.set_same. exact Nx.
      * rewrite (byMaskFacts.set_comm (ByMask.set a (Z.to_nat i) y) (Z.to_nat j) (Z.to_nat i) x x)
          by auto.
        rewrite !byMaskFacts.set_set.
        rewrite (byMaskFacts.set_same a (Z.to_nat i) x Nx).
        apply byMaskFacts.set_same. exact Ny.
Qed.


Lemma ByMask_Swap_exchanges_witness :
  exists a',
    ByMask.Swap ex2.routes 0 2 = Done a'
    /\ ByMask.Len a' = ByMask.Len ex2.routes
    /\ Permutation ex2.routes a'
    /\ ByMask.index a' 0 = ByMask.index ex2.routes 2
    /\ ByMask.index a' 2 = ByMask.index ex2.routes 0
    /\ (forall k, k <> 0 -> k <> 2 -> ByMask.index a' k = ByMask.index ex2.routes k)
    /\ ByMask.Swap a' 0 2 = Done ex2.routes.
Proof.
  apply (proj2 (ByMask_Swap_exchanges ex2.routes 0 2)); cbn; lia.
Defined.

(** X13. A route whose mask has length zero for [IPMask.Size], because
    it is /0 or because its ones are not contiguous, is never [Less] than
    another route: such routes sort last. *)
Theorem ByMask_Less_needs_mask_length (a : ByMask.t) (i j : Z) (x : Route) :
  ByMask.index a i = Done x ->
  fst (net.Size (net.IPNet_Mask (Prefix x))) = 0 ->
  ByMask.Less a i j <> Done true.
Proof.
  intros Hx H0 HL. apply byMaskFacts.Less_Done in HL.
  destruct HL as (x' & y & Hx' & Hy & E).
  assert (x' = x) by congruence. subst x'.
  symmetry in E. apply Z.ltb_lt in E. unfold ByMask.maskLen in E.
  pose proof (byMaskFacts.Size_bounds (net.IPNet_Mask (Prefix y))). lia.
Qed.

Lemma ByMask_Less_needs_mask_length_witness :
  ByMask.Less [ex2.route_gapped; ex.route4] 0 1 <> Done true.
Proof.
  exact (ByMask_Less_needs_mask_length [ex2.route_gapped; ex.route4] 0 1
           ex2.route_gapped eq_refl eq_refl).
Defined.

(** * Properties of the versioned map *)

Module versionedFacts.
Import versioned.

Section Bindings.
Variable D : Type.
Implicit Types (l : bindings D) (k : UUID) (v : Object D).

Lemma find_remove_eq l k : find (remove l k) k = None.
Proof.
  induction l as [|[k' v'] l IH]; simpl; [reflexivity|].
  destruct (String.eqb k' k) eqn:E; [exact IH|]. simpl. rewrite E. exact IH.
Qed.

Lemma find_remove_neq l k k' : k' <> k -> find (remove l k) k' = find l k'.
Proof.
  intros H. induction l as [|[k0 v0] l IH]; simpl; [reflexivity|].
  destruct (String.eqb k0 k) eqn:E.
  - apply String.eqb_eq in E. subst k0.
    destruct (String.eqb k k') eqn:E'; [|exact IH].
    apply String.eqb_eq in E'. congruence.
  - simpl. rewrite IH. reflexivity.
Qed.

Lemma find_store_eq l k v : find (store l k v) k = Some v.
Proof. unfold store. simpl. rewrite String.eqb_refl. reflexivity. Qed.

Lemma find_store_neq l k k' v : k' <> k -> find (store l k v) k' = find l k'.
Proof.
  intros H. unfold store. simpl.
  destruct (String.eqb k k') eqn:E.
  - apply String.eqb_eq in E. congruence.
  - apply find_remove_neq. exact H.
Qed.

(** A key that is not bound is not touched by [remove]. *)
Lemma remove_absent l k : find l k = None -> remove l k = l.
Proof.
  induction l as [|[k0 v0] l IH]; simpl; [reflexivity|].
  destruct (String.eqb k0 k); [discriminate|]. intros H. rewrite (IH H). reflexivity.
Qed.

Lemma mapIndex_assign (m : ComparableMap D) l k v :
  Map m = Some l ->
  exists m', mapAssign m k v = (Done tt, m')
             /\ Map m' = Some (store l k v)
             /\ DeepEquals m' = DeepEquals m
             /\ mapIndex m' k = Some v
             /\ forall k', k' <> k -> mapIndex m' k' = mapIndex m k'.
Proof.
  intros Hm. unfold mapAssign. rewrite Hm. eexists. split; [reflexivity|].
  unfold mapIndex. cbn [Map DeepEquals]. rewrite Hm.
  repeat split.
  - apply find_store_eq.
  - intros k' H. apply find_store_neq. exact H.
Qed.

Lemma Get_mapIndex (m : ComparableMap D) k :
  Get m k = match mapIndex m k with Some o => (o, true) | None => (zeroObject, false) end.
Proof. reflexivity. Qed.

End Bindings.


End versionedFacts.

Section VersionedAddEqual.
Variable D : Type.
Variable cmp : versioned.Object D -> versioned.Object D -> Z.

(** X14. What [AddEqual] stores: afterwards the key is bound to the new
    object when it was unbound or bound to an object with an older version,
    and to the object it was bound to otherwise; no other key changes.  This
    also holds when the call panics on a nil [DeepEquals], which happens
    after the new object is stored. *)
Theorem AddEqual_stores_newest (m : versioned.ComparableMap D) (l : versioned.bindings D)
        (uuid : versioned.UUID) (obj : versioned.Object D) :
  versioned.Map m = Some l ->
  let m' := snd (versioned.AddEqual cmp m uuid obj) in
  versioned.Get m' uuid =
    (match versioned.mapIndex m uuid with
     | Some old => if 0 <? cmp obj old then obj else old
     | None => obj
     end, true)
  /\ (forall k, k <> uuid -> versioned.Get m' k = versioned.Get m k)
  /\ versioned.DeepEquals m' = versioned.DeepEquals m.
Proof.
  intros Hm m'.
  destruct (versionedFacts.mapIndex_assign D m l uuid obj Hm) as (ma & Ha & _ & Hde & Hi & Hframe).
  unfold m', versioned.AddEqual. rewrite Ha.
  destruct (versioned.mapIndex m uuid) as [old|] eqn:Eold.
  - destruct (0 <? cmp obj old).
    + assert (Hs : snd (match versioned.DeepEquals ma with
                        | Some eq => (Done (eq (versioned.Data old) (versioned.Data obj)), ma)
                        | None => (Panicked, ma)
                        end) = ma) by (destruct (versioned.DeepEquals ma); reflexivity).
      rewrite Hs. rewrite !versionedFacts.Get_mapIndex, Hi. split; [reflexivity|]. split; [|exact Hde].
      intros k Hk. rewrite !versionedFacts.Get_mapIndex, (Hframe k Hk). reflexivity.
    + cbn [snd]. rewrite versionedFacts.Get_mapIndex, Eold. auto.
  - cbn [snd]. rewrite versionedFacts.Get_mapIndex, Hi. split; [reflexivity|]. split; [|exact Hde].
    intros k Hk. rewrite !versionedFacts.Get_mapIndex, (Hframe k Hk). reflexivity.
Qed.


(** X16. [AddEqual] is idempotent: when an object is not newer than
    itself, adding it a second time under the same key returns true and
    leaves the map as the first call left it. *)
Theorem AddEqual_twice (m : versioned.ComparableMap D) (l : versioned.bindings D)
        (uuid : versioned.UUID) (obj : versioned.Object D) (b : bool) (m1 : versioned.ComparableMap D) :
  versioned.Map m = Some l ->
  cmp obj obj <= 0 ->
  versioned.AddEqual cmp m uuid obj = (Done b, m1) ->
  versioned.AddEqual cmp m1 uuid obj = (Done true, m1).
Proof.
  intros Hm Hrefl E.
  destruct (versionedFacts.mapIndex_assign D m l uuid obj Hm) as (ma & Ha & _ & Hde & Hi & _).
  unfold versioned.AddEqual in E. rewrite Ha in E.
  destruct (versioned.mapIndex m uuid) as [old|] eqn:Eold.
  - destruct (0 <? cmp obj old) eqn:Ec.
    + destruct (versioned.DeepEquals ma); inversion E; subst.
      unfold versioned.AddEqual. rewrite Hi.
      replace (0 <? cmp obj obj) with false by (symmetry; apply Z.ltb_ge; lia).
      reflexivity.
    + inversion E; subst. unfold versioned.AddEqual. rewrite Eold, Ec. reflexivity.
  - inversion E; subst. unfold versioned.AddEqual. rewrite Hi.
    replace (0 <? cmp obj obj) with false by (symmetry; apply Z.ltb_ge; lia).
    reflexivity.
Qed.
End VersionedAddEqual.


Section VersionedOthers.
Variable D : Type.
Variable cmp : versioned.Object D -> versioned.Object D -> Z.

(** X17. [Delete] returns whether the key was bound, unbinds it and
    only it, and a second [Delete] of the key returns false and changes
    nothing; this holds on the nil map too, where it returns false. *)
Theorem Delete_removes (m : versioned.ComparableMap D) (uuid : versioned.UUID) :
  let m' := snd (versioned.Delete m uuid) in
  fst (versioned.Delete m uuid) = snd (versioned.Get m uuid)
  /\ versioned.Get m' uuid = (versioned.zeroObject, false)
  /\ (forall k, k <> uuid -> versioned.Get m' k = versioned.Get m k)
  /\ versioned.Delete m' uuid = (false, m').
Proof.
  cbv zeta. unfold versioned.Delete.
  destruct (versioned.mapIndex m uuid) as [o|] eqn:E; cbn [fst snd];
    rewrite (versionedFacts.Get_mapIndex D m uuid), E; cbn [snd].
  - unfold versioned.mapIndex in E. destruct (versioned.Map m) as [l|] eqn:Hm; [|discriminate].
    assert (Hi : versioned.mapIndex (versioned.mkComparableMap (Some (versioned.remove l uuid)) (versioned.DeepEquals m)) uuid
                 = None) by apply versionedFacts.find_remove_eq.
    split; [reflexivity|]. split; [|split].
    + rewrite versionedFacts.Get_mapIndex, Hi. reflexivity.
    + intros k Hk. rewrite !versionedFacts.Get_mapIndex. unfold versioned.mapIndex. cbn [versioned.Map]. rewrite Hm.
      rewrite versionedFacts.find_remove_neq by exact Hk. reflexivity.
    + rewrite Hi. reflexivity.
  - split; [reflexivity|]. split; [reflexivity|]. split; [reflexivity|].
    reflexivity.
Qed.

(** X18. [Add] then [Get]: on a map that is not nil, [Add] binds the key
    to the object whatever was bound before and whatever the versions, [Get]
    returns that object, and the other keys keep their objects. *)
Theorem Add_then_Get (m : versioned.ComparableMap D) (l : versioned.bindings D) (uuid : versioned.UUID) (obj : versioned.Object D) :
  versioned.Map m = Some l ->
  exists m',
    versioned.Add m uuid obj = (Done tt, m')
    /\ versioned.Get m' uuid = (obj, true)
    /\ (forall k, k <> uuid -> versioned.Get m' k = versioned.Get m k)
    /\ versioned.DeepEquals m' = versioned.DeepEquals m.
Proof.
  intros Hm.
  destruct (versionedFacts.mapIndex_assign D m l uuid obj Hm) as (ma & Ha & _ & Hde & Hi & Hframe).
  exists ma. split; [exact Ha|]. split; [|split; [|exact Hde]].
  - rewrite versionedFacts.Get_mapIndex, Hi. reflexivity.
  - intros k Hk. rewrite !versionedFacts.Get_mapIndex, (Hframe k Hk). reflexivity.
Qed.

(** X19. [Add] then [Delete] of a key that was not bound gives the map
    back, and [Delete] reports that the key existed. *)
Theorem Add_then_Delete (m : versioned.ComparableMap D) (l : versioned.bindings D)
        (uuid : versioned.UUID) (obj : versioned.Object D) :
  versioned.Map m = Some l ->
  snd (versioned.Get m uuid) = false ->
  versioned.Delete (snd (versioned.Add m uuid obj)) uuid = (true, m).
Proof.
  intros Hm Hg. rewrite versionedFacts.Get_mapIndex in Hg.
  destruct (versioned.mapIndex m uuid) as [o|] eqn:E; [discriminate|].
  unfold versioned.mapIndex in E. rewrite Hm in E.
  unfold versioned.Add, versioned.mapAssign. rewrite Hm. cbn [snd].
  unfold versioned.Delete, versioned.mapIndex. cbn [versioned.Map versioned.DeepEquals].
  rewrite versionedFacts.find_store_eq. unfold versioned.store. cbn [versioned.remove].
  rewrite String.eqb_refl.
  assert (Hr : versioned.remove (versioned.remove l uuid) uuid = l).
  { rewrite (versionedFacts.remove_absent D l uuid E). apply versionedFacts.remove_absent. exact E. }
  rewrite Hr. destruct m as [mp de]. cbn in *. subst mp. reflexivity.
Qed.

(** X20. The zero [ComparableMap], whose [Map] is nil, can be read but
    not written: [Get] finds nothing, [Delete] returns false, [Add] and
    [AddEqual] panic and leave it as it is. *)
Theorem nil_map_reads_but_panics_on_write
        (m : versioned.ComparableMap D) (uuid : versioned.UUID) (obj : versioned.Object D) :
  versioned.Map m = None ->
  versioned.Get m uuid = (versioned.zeroObject, false)
  /\ versioned.Delete m uuid = (false, m)
  /\ versioned.Add m uuid obj = (Panicked, m)
  /\ versioned.AddEqual cmp m uuid obj = (Panicked, m).
Proof.
  intros Hm. unfold versioned.Get, versioned.Delete, versioned.Add, versioned.AddEqual, versioned.mapAssign, versioned.mapIndex. rewrite Hm.
  repeat split.
Qed.

(** X21. [NewSyncComparableMap] leaves the mutex pointer nil, so every
    method of the map it returns panics on taking the lock, before it
    reaches the inner map. *)
Theorem NewSyncComparableMap_panics
        (def : option (versioned.DeepEqualFunc D)) (uuid : versioned.UUID) (obj : versioned.Object D) :
  let sm := versioned.NewSyncComparableMap def in
  versioned.SyncAdd sm uuid obj = (versioned.Panics, sm)
  /\ versioned.SyncAddEqual cmp sm uuid obj = (versioned.Panics, sm)
  /\ versioned.SyncDelete sm uuid = (versioned.Panics, sm)
  /\ versioned.SyncGet sm uuid = (versioned.Panics, sm).
Proof. repeat split. Qed.

(** X22. With a mutex that is not held, the four wrappers return what
    the methods of the inner map return, change the inner map as they do
    and leave the mutex not held. *)
Theorem wrappers_return_and_unlock (m : versioned.ComparableMap D) (uuid : versioned.UUID) (obj : versioned.Object D) :
  versioned.SyncGet (versioned.ready m) uuid = (versioned.Returned (versioned.Get m uuid), versioned.ready m)
  /\ versioned.SyncDelete (versioned.ready m) uuid
     = (versioned.Returned (fst (versioned.Delete m uuid)), versioned.ready (snd (versioned.Delete m uuid)))
  /\ (forall m', versioned.Add m uuid obj = (Done tt, m') ->
                 versioned.SyncAdd (versioned.ready m) uuid obj = (versioned.Returned tt, versioned.ready m'))
  /\ (forall b m', versioned.AddEqual cmp m uuid obj = (Done b, m') ->
                   versioned.SyncAddEqual cmp (versioned.ready m) uuid obj = (versioned.Returned b, versioned.ready m')).
Proof.
  split; [reflexivity|]. split; [reflexivity|]. split.
  - intros m' E. unfold versioned.SyncAdd, versioned.locked. cbn. rewrite E. reflexivity.
  - intros b m' E. unfold versioned.SyncAddEqual, versioned.locked. cbn. rewrite E. reflexivity.
Qed.

(** X23. A panic keeps the lock: when the inner [AddEqual] panics,
    [SyncComparableMap.AddEqual] panics without releasing the mutex (the
    unlock is not deferred), and every later call of a wrapper blocks. *)
Theorem panic_keeps_the_lock (m m' : versioned.ComparableMap D) (uuid k : versioned.UUID) (obj o : versioned.Object D) :
  versioned.AddEqual cmp m uuid obj = (Panicked, m') ->
  let sm' := snd (versioned.SyncAddEqual cmp (versioned.ready m) uuid obj) in
  fst (versioned.SyncAddEqual cmp (versioned.ready m) uuid obj) = versioned.Panics
  /\ versioned.cm sm' = Some m'
  /\ fst (versioned.SyncGet sm' k) = versioned.Blocked
  /\ fst (versioned.SyncAdd sm' k o) = versioned.Blocked
  /\ fst (versioned.SyncAddEqual cmp sm' k o) = versioned.Blocked
  /\ fst (versioned.SyncDelete sm' k) = versioned.Blocked.
Proof.
  intros E. cbv zeta. unfold versioned.SyncAddEqual at 1 2 3 4 5 6, versioned.locked. cbn.
  rewrite E. cbn. repeat split.
Qed.
End VersionedOthers.

(** Witness of X14: version 2 replaces version 1 under "foo"%string, also with
    a nil [DeepEquals]. *)
Lemma AddEqual_stores_newest_witness :
  let m' := snd (versioned.AddEqual exv.cmp (exv.foo None) "foo"%string exv.v2) in
  versioned.Get m' "foo"%string =
    (match versioned.mapIndex (exv.foo None) "foo"%string with
     | Some old => if 0 <? exv.cmp exv.v2 old then exv.v2 else old
     | None => exv.v2
     end, true)
  /\ (forall k, k <> "foo"%string -> versioned.Get m' k = versioned.Get (exv.foo None) k)
  /\ versioned.DeepEquals m' = versioned.DeepEquals (exv.foo None).
Proof.
  exact (AddEqual_stores_newest Z exv.cmp (exv.foo None) [("foo"%string, exv.v1)]
           "foo"%string exv.v2 eq_refl).
Defined.


(** Witness of X16, the first case of the package's test: the same
    object twice. *)
Lemma AddEqual_twice_witness :
  versioned.AddEqual exv.cmp
    (snd (versioned.AddEqual exv.cmp (versioned.NewComparableMap (Some (exv.always true)))
            "foo"%string exv.v1))
    "foo"%string exv.v1
  = (Done true,
     snd (versioned.AddEqual exv.cmp (versioned.NewComparableMap (Some (exv.always true)))
            "foo"%string exv.v1)).
Proof.
  apply (AddEqual_twice Z exv.cmp (versioned.NewComparableMap (Some (exv.always true)))
           [] "foo"%string exv.v1 false).
  - reflexivity.
  - cbn. lia.
  - reflexivity.
Defined.

Lemma Delete_removes_witness :
  versioned.Delete (exv.foo None) "foo"%string
  = (true, versioned.mkComparableMap (Some []) None)
  /\ versioned.Get (snd (versioned.Delete (exv.foo None) "foo"%string)) "foo"%string
     = (versioned.zeroObject, false).
Proof.
  split; [reflexivity|].
  exact (proj1 (proj2 (Delete_removes Z (exv.foo None) "foo"%string))).
Defined.

Lemma Add_then_Get_witness :
  exists m',
    versioned.Add (exv.foo None) "foo"%string exv.v2 = (Done tt, m')
    /\ versioned.Get m' "foo"%string = (exv.v2, true)
    /\ (forall k, k <> "foo"%string -> versioned.Get m' k = versioned.Get (exv.foo None) k)
    /\ versioned.DeepEquals m' = versioned.DeepEquals (exv.foo None).
Proof.
  exact (Add_then_Get Z (exv.foo None) [("foo"%string, exv.v1)] "foo"%string exv.v2 eq_refl).
Defined.

Lemma Add_then_Delete_witness :
  versioned.Delete (snd (versioned.Add (exv.foo None) "bar"%string exv.v2)) "bar"%string
  = (true, exv.foo None).
Proof.
  exact (Add_then_Delete Z (exv.foo None) [("foo"%string, exv.v1)] "bar"%string exv.v2
           eq_refl eq_refl).
Defined.

Lemma nil_map_reads_but_panics_on_write_witness :
  let zero := versioned.mkComparableMap (D:=Z) None None in
  versioned.Get zero "foo"%string = (versioned.zeroObject, false)
  /\ versioned.Delete zero "foo"%string = (false, zero)
  /\ versioned.Add zero "foo"%string exv.v1 = (Panicked, zero)
  /\ versioned.AddEqual exv.cmp zero "foo"%string exv.v1 = (Panicked, zero).
Proof.
  exact (nil_map_reads_but_panics_on_write Z exv.cmp
           (versioned.mkComparableMap None None) "foo"%string exv.v1 eq_refl).
Defined.

Lemma wrappers_return_and_unlock_witness :
  versioned.SyncAddEqual exv.cmp (versioned.ready (exv.foo (Some (exv.always true))))
    "foo"%string exv.v2
  = (versioned.Returned true,
     versioned.ready
       (versioned.mkComparableMap (Some [("foo"%string, exv.v2)])
          (Some (exv.always true)))).
Proof.
  apply (proj2 (proj2 (proj2
           (wrappers_return_and_unlock Z exv.cmp (exv.foo (Some (exv.always true)))
              "foo"%string exv.v2)))).
  reflexivity.
Defined.

(** Witness of X23: a map built with a nil [DeepEquals] panics on the
    first newer version and stays locked. *)
Lemma panic_keeps_the_lock_witness :
  let sm' := snd (versioned.SyncAddEqual exv.cmp (versioned.ready (exv.foo None))
                    "foo"%string exv.v2) in
  fst (versioned.SyncAddEqual exv.cmp (versioned.ready (exv.foo None)) "foo"%string exv.v2)
  = versioned.Panics
  /\ versioned.cm sm'
     = Some (versioned.mkComparableMap (Some [("foo"%string, exv.v2)]) None)
  /\ fst (versioned.SyncGet sm' "foo"%string) = versioned.Blocked
  /\ fst (versioned.SyncAdd sm' "foo"%string exv.v1) = versioned.Blocked
  /\ fst (versioned.SyncAddEqual exv.cmp sm' "foo"%string exv.v1) = versioned.Blocked
  /\ fst (versioned.SyncDelete sm' "foo"%string) = versioned.Blocked.
Proof.
  exact (panic_keeps_the_lock Z exv.cmp (exv.foo None)
           (versioned.mkComparableMap (Some [("foo"%string, exv.v2)]) None)
           "foo"%string "foo"%string exv.v2 exv.v1 eq_refl).
Defined.

(** Witness of X4 on the sample route: four calls after the device is
    resolved. *)
Lemma replaceRoute_calls_witness :
  exists calls,
    trace (snd (replaceRoute ex.sound ex.deviceMTU ex.routeMTU ex.route4
                  (ex.world ex.kernel0)))
    = [] ++ CLinkByName "eth0" :: calls
    /\ (length calls <= 4)%nat
    /\ forall c, In c calls ->
         (exists link family, c = CRouteList link family)
         \/ (exists r, c = CRouteReplace r).
Proof.
  exact (replaceRoute_calls ex.sound ex.deviceMTU ex.routeMTU ex.route4
           (ex.world ex.kernel0)).
Defined.
